(** * Minimap renderer: the rendering pipeline of [renderer/render.py]

    A shallow embedding of the [Renderer] class: manifest resolution
    ([_load_map_manifest]), the coordinate transform ([get_scaled],
    [get_scaled_r]), the layer registry ([_check_versioned_layers]) and the
    per-frame loop of [start], followed by the properties of the
    specification that concern them.

    Python values are modelled as the interpreter has them: [int] as [Z],
    [float] as IEEE-754 binary64 through the executable specification of
    [SpecFloat], exceptions as a result type, the attributes of [self] and
    every external object (images, layers, the video writer) as explicit
    state. *)

From Stdlib Require Import ZArith List String Bool Lia Permutation.
From Stdlib Require Import SpecFloat.
Import ListNotations.

Local Open Scope string_scope.
Local Open Scope Z_scope.

(** ** Exceptions and results *)

(** The exception classes that the module raises, catches or lets through.
    [raise X from e] keeps [e] as the cause. *)
Inductive exn : Type :=
| FileNotFoundError
| ModuleNotFoundError
| KeyError
| AttributeError
| TypeError
| ValueError
| OverflowError
| ZeroDivisionError
| AssertionError
| JSONDecodeError
| ExternalError (tag : string)
| MapLoadError (cause : exn)
| MapManifestLoadError (cause : exn).

Inductive result (A : Type) : Type :=
| Ok (a : A)
| Raise (e : exn).
Arguments Ok {A} a.
Arguments Raise {A} e.

Definition rbind {A B} (r : result A) (k : A -> result B) : result B :=
  match r with
  | Ok a => k a
  | Raise e => Raise e
  end.

Declare Scope result_scope.
Delimit Scope result_scope with result.
Notation "x <- r ;; k" := (rbind r (fun x => k))
  (at level 61, r at next level, right associativity) : result_scope.

Definition is_ok {A} (r : result A) : bool :=
  match r with Ok _ => true | Raise _ => false end.

(** ** Python numbers *)

(** [float] is binary64. *)
Module Float64.
Definition prec : Z := 53.
Definition emax : Z := 1024.

Definition add : spec_float -> spec_float -> spec_float := SFadd prec emax.
Definition mul : spec_float -> spec_float -> spec_float := SFmul prec emax.
Definition div : spec_float -> spec_float -> spec_float := SFdiv prec emax.
Definition opp : spec_float -> spec_float := SFopp.

(** Nearest binary64 of the integer [n] (ties to even), infinite when out
    of range. *)
Definition of_Z (n : Z) : spec_float := binary_normalize prec emax n 0 false.

Definition is_finite (f : spec_float) : bool :=
  match f with
  | S754_zero _ | S754_finite _ _ _ => true
  | S754_infinity _ | S754_nan => false
  end.

(** A finite float is the dyadic number [num / 2^scale]. *)
Definition num (f : spec_float) : Z :=
  match f with
  | S754_finite s m e =>
      cond_Zopp s (if 0 <=? e then Z.pos m * 2 ^ e else Z.pos m)
  | _ => 0
  end.
Definition scale (f : spec_float) : Z :=
  match f with
  | S754_finite _ _ e => if 0 <=? e then 0 else - e
  | _ => 0
  end.

(** Nearest integer of [n / 2^k], ties to the even integer. *)
Definition round_half_even (n k : Z) : Z :=
  let d := 2 ^ k in
  let q := n / d in
  match (2 * (n mod d)) ?= d with
  | Lt => q
  | Gt => q + 1
  | Eq => if Z.even q then q else q + 1
  end.

Definition to_nearest_Z (f : spec_float) : Z :=
  round_half_even (num f) (scale f).

(** [f + g = n] as real numbers, for finite [f] and [g]. *)
Definition sum_is (f g : spec_float) (n : Z) : Prop :=
  num f * 2 ^ scale g + num g * 2 ^ scale f = n * 2 ^ (scale f + scale g).
End Float64.

(** [f] lies exactly half way between two integers. *)
Definition is_tie (f : spec_float) : bool :=
  2 * (Float64.num f mod 2 ^ Float64.scale f) =? 2 ^ Float64.scale f.

(** [abs(f) < 2**52]: up to there the floats are no coarser than the
    halves. *)
Definition below_2_52 (f : spec_float) : bool :=
  Z.abs (Float64.num f) <? 2 ^ (52 + Float64.scale f).

Inductive Number : Type :=
| PInt (n : Z)
| PFloat (f : spec_float).

(** Implicit [int -> float] conversion of mixed arithmetic. *)
Definition to_float (a : Number) : result spec_float :=
  match a with
  | PFloat f => Ok f
  | PInt n =>
      let f := Float64.of_Z n in
      if Float64.is_finite f then Ok f else Raise OverflowError
  end.

Definition py_neg (a : Number) : Number :=
  match a with
  | PInt n => PInt (- n)
  | PFloat f => PFloat (Float64.opp f)
  end.

Definition py_mul (a b : Number) : result Number :=
  match a, b with
  | PInt m, PInt n => Ok (PInt (m * n))
  | _, _ =>
      (x <- to_float a ;; y <- to_float b ;; Ok (PFloat (Float64.mul x y)))%result
  end.

Definition py_add (a b : Number) : result Number :=
  match a, b with
  | PInt m, PInt n => Ok (PInt (m + n))
  | _, _ =>
      (x <- to_float a ;; y <- to_float b ;; Ok (PFloat (Float64.add x y)))%result
  end.

(** True division [a / b].  On two ints the quotient is rounded once, from
    the exact ratio; on floats a zero divisor raises as well. *)
Definition py_truediv (a b : Number) : result Number :=
  match a, b with
  | PInt m, PInt n =>
      match m, n with
      | _, Z0 => Raise ZeroDivisionError
      | Z0, Zpos _ => Ok (PFloat (S754_zero false))
      | Z0, Zneg _ => Ok (PFloat (S754_zero true))
      | Zpos p, Zpos q | Zneg p, Zneg q =>
          let f := Float64.div (S754_finite false p 0) (S754_finite false q 0) in
          if Float64.is_finite f then Ok (PFloat f) else Raise OverflowError
      | Zpos p, Zneg q | Zneg p, Zpos q =>
          let f := Float64.div (S754_finite true p 0) (S754_finite false q 0) in
          if Float64.is_finite f then Ok (PFloat f) else Raise OverflowError
      end
  | _, _ =>
      (x <- to_float a ;;
       y <- to_float b ;;
       match y with
       | S754_zero _ => Raise ZeroDivisionError
       | _ => Ok (PFloat (Float64.div x y))
       end)%result
  end.

(** [round(a)] with one argument: an int, ties to even. *)
Definition py_round (a : Number) : result Z :=
  match a with
  | PInt n => Ok n
  | PFloat S754_nan => Raise ValueError
  | PFloat (S754_infinity _) => Raise OverflowError
  | PFloat f => Ok (Float64.to_nearest_Z f)
  end.

(** SpecFloat has one NaN.  It stands for every NaN of the machine: the
    sign bit and the payload of a NaN are not modelled, so a result that
    is a NaN is only ever stated to be one, never to be equal to
    another. *)
Definition is_nan (a : Number) : bool :=
  match a with
  | PFloat S754_nan => true
  | _ => false
  end.

(** ** Values read from a manifest *)

#[local] Set Warnings "-register-all".

(** What [json.load] returns.  A JSON object keeps its keys in document
    order. *)
Inductive json : Type :=
| JNull
| JBool (b : bool)
| JInt (n : Z)
| JFloat (f : spec_float)
| JStr (s : string)
| JList (l : list json)
| JDict (d : list (string * json)).

Fixpoint assoc {A} (k : string) (l : list (string * A)) : option A :=
  match l with
  | [] => None
  | (k', v) :: l' => if String.eqb k k' then Some v else assoc k l'
  end.

(** [v[key]] for a [str] key. *)
Definition subscript (v : json) (key : string) : result json :=
  match v with
  | JDict d =>
      match assoc key d with
      | Some x => Ok x
      | None => Raise KeyError
      end
  | _ => Raise TypeError
  end.

Fixpoint chars (s : string) : list json :=
  match s with
  | EmptyString => []
  | String c s' => JStr (String c EmptyString) :: chars s'
  end.

(** The items that iterating over [v] yields. *)
Definition iterate (v : json) : result (list json) :=
  match v with
  | JList l => Ok l
  | JStr s => Ok (chars s)
  | JDict d => Ok (map (fun kv => JStr (fst kv)) d)
  | _ => Raise TypeError
  end.

(** The right-hand side of [a, b, c = v]. *)
Definition unpack3 (v : json) : result (json * json * json) :=
  (items <- iterate v ;;
   match items with
   | [a; b; c] => Ok (a, b, c)
   | _ => Raise ValueError
   end)%result.

(** [bool] is a subclass of [int]. *)
Definition isinstance_int (v : json) : bool :=
  match v with
  | JInt _ | JBool _ => true
  | _ => false
  end.

Definition isinstance_float (v : json) : bool :=
  match v with
  | JFloat _ => true
  | _ => false
  end.

Definition as_number (v : json) : result Number :=
  match v with
  | JInt n => Ok (PInt n)
  | JBool b => Ok (PInt (if b then 1 else 0))
  | JFloat f => Ok (PFloat f)
  | _ => Raise TypeError
  end.

(** [lo < v <= hi] and [n == v] on a value that passed [isinstance(v, int)]. *)
Definition int_in_range (lo hi : Z) (v : json) : bool :=
  match as_number v with
  | Ok (PInt n) => (lo <? n) && (n <=? hi)
  | _ => false
  end.

Definition int_equals (n : Z) (v : json) : bool :=
  match as_number v with
  | Ok (PInt m) => n =? m
  | _ => false
  end.

(** ** The installed packages *)

(** What [json.load] makes of a text resource. *)
Inductive document : Type :=
| Malformed
| Parsed (v : json).

(** What importing a module gives: its namespace, or the exception that
    its import raises. *)
Inductive module_entry : Type :=
| Namespace (attrs : list (string * string))
| Broken (e : exn).

(** [resources] maps a package to its text resources, [modules] an absolute
    module name to the module; a name that is not listed does not exist. *)
Record Site : Type := {
  resources : list (string * list (string * document));
  modules : list (string * module_entry)
}.

(** [importlib.resources.open_text(package, resource)]: the package is
    imported first, the resource is opened in it. *)
Definition open_text (site : Site) (package resource : string)
  : result document :=
  match assoc package (resources site) with
  | None => Raise ModuleNotFoundError
  | Some files =>
      match assoc resource files with
      | None => Raise FileNotFoundError
      | Some d => Ok d
      end
  end.

Definition json_load (d : document) : result json :=
  match d with
  | Malformed => Raise JSONDecodeError
  | Parsed v => Ok v
  end.

Definition PACKAGE : string := "renderer".

(** [renderer/layers/__init__.py]: the names that the default layers
    package binds, each to the class of that name. *)
Definition renderer_layers : list (string * string) :=
  map (fun n => (n, n))
    [ "LayerShipBase"; "LayerSmokeBase"; "LayerShotBase"; "LayerTorpedoBase";
      "LayerPlaneBase"; "LayerWardBase"; "LayerCaptureBase";
      "LayerHealthBase"; "LayerScoreBase"; "LayerCounterBase";
      "LayerFragBase"; "LayerTimerBase"; "LayerRibbonBase"; "LayerChatBase";
      "LayerBuildingBase" ].

(** [import_module(name, package)] with a relative [name]. *)
Definition import_module (site : Site) (name package : string)
  : result (list (string * string)) :=
  let absolute := package ++ name in
  if String.eqb absolute (PACKAGE ++ ".layers") then Ok renderer_layers
  else
    match assoc absolute (modules site) with
    | None => Raise ModuleNotFoundError
    | Some (Broken e) => Raise e
    | Some (Namespace attrs) => Ok attrs
    end.

Definition getattr (module : list (string * string)) (name : string)
  : result string :=
  match assoc name module with
  | Some c => Ok c
  | None => Raise AttributeError
  end.

(** ** Replay data, the renderer object and the outside world *)

Definition obj : Type := nat.
Definition bytes : Type := list Byte.byte.

(** Keyword arguments of [imageio_ffmpeg.write_frames]. *)
Record WriterParams : Type := {
  path : string;
  fps : Z;
  quality : Z;
  pix_fmt_in : string;
  macro_block_size : Z;
  size : Z * Z
}.

(** The calls that leave the module, in the order they are made. *)
Inductive call : Type :=
| COpenText (package resource : string)
| CInfo (msg : string)
| CImportModule (name package : string)
| CLoadImage (package resource : string)
| CCopy (im : obj)
| CResize (im : obj) (sz : Z * Z)
| CPaste (dst src : obj) (box : option (Z * Z)) (mask : option obj)
| CDrawGrid
| CAlphaComposite (im1 im2 : obj)
| CImageDraw (im : obj)
| CToBytes (im : obj)
| CConstruct (cls : string)
| CLayerDraw (layer : obj) (game_time : Z) (target : obj)
| CWriteFrames (p : WriterParams)
| CSend (gen : obj) (payload : option bytes)
| CClose (gen : obj).

Inductive outcome : Type :=
| Returned
| ReturnedObj (o : obj)
| ReturnedBytes (b : bytes)
| Raised (e : exn).

Definition event : Type := call * outcome.

(** ** State and exceptions

    A method is a function of the state of the run that returns the new
    state and either a value or the exception raised. *)

Definition M (W A : Type) : Type := W -> W * result A.

Definition ret {W A} (a : A) : M W A := fun w => (w, Ok a).
Definition raise {W A} (e : exn) : M W A := fun w => (w, Raise e).
Definition lift {W A} (r : result A) : M W A := fun w => (w, r).

Definition bind {W A B} (m : M W A) (k : A -> M W B) : M W B :=
  fun w =>
    match m w with
    | (w', Ok a) => k a w'
    | (w', Raise e) => (w', Raise e)
    end.

(** [try: m  except <handles> as e: handler e] *)
Definition try_except {W A} (m : M W A) (handles : exn -> bool)
    (handler : exn -> M W A) : M W A :=
  fun w =>
    match m w with
    | (w', Ok a) => (w', Ok a)
    | (w', Raise e) => if handles e then handler e w' else (w', Raise e)
    end.

Fixpoint for_each {W A} (l : list A) (body : A -> M W unit) : M W unit :=
  match l with
  | [] => ret tt
  | a :: l' => bind (body a) (fun _ => for_each l' body)
  end.

Declare Scope monad_scope.
Delimit Scope monad_scope with M.
Notation "x <- m ;; k" := (bind m (fun x => k))
  (at level 61, m at next level, right associativity) : monad_scope.
Notation "m ;; k" := (bind m (fun _ => k))
  (at level 61, right associativity) : monad_scope.

Section Model.
(** The event snapshots are opaque to the renderer; [Store] is whatever
    the external objects hold (pixels, layer state, the encoder). *)
Context {Snapshot : Type} {Store : Type}.

Record ReplayData : Type := {
  game_version : string;
  game_map : string;
  events : list (Z * Snapshot)
}.

(** [events.keys()], in insertion order. *)
Definition keys (d : list (Z * Snapshot)) : list Z := map fst d.

Record Renderer : Type := {
  replay_data : ReplayData;
  res : string;
  minimap_image : option obj;
  minimap_bg : option obj;
  minimap_size : json;
  space_size : json;
  scaling : json
}.

(** [Renderer.__init__] *)
Definition __init__ (replay_data : ReplayData) : Renderer :=
  {| replay_data := replay_data;
     res := PACKAGE ++ ".resources";
     minimap_image := None;
     minimap_bg := None;
     minimap_size := JInt 0;
     space_size := JInt 0;
     scaling := JFloat (S754_zero false) |}.

Definition set_manifest (a b c : json) (r : Renderer) : Renderer :=
  {| replay_data := replay_data r; res := res r;
     minimap_image := minimap_image r; minimap_bg := minimap_bg r;
     minimap_size := a; space_size := b; scaling := c |}.

Definition set_minimap_bg (o : obj) (r : Renderer) : Renderer :=
  {| replay_data := replay_data r; res := res r;
     minimap_image := minimap_image r; minimap_bg := Some o;
     minimap_size := minimap_size r; space_size := space_size r;
     scaling := scaling r |}.

Definition set_minimap_image (o : obj) (r : Renderer) : Renderer :=
  {| replay_data := replay_data r; res := res r;
     minimap_image := Some o; minimap_bg := minimap_bg r;
     minimap_size := minimap_size r; space_size := space_size r;
     scaling := scaling r |}.

(** *** Coordinate transform *)

(** The argument of [round] in [get_scaled]:
    [w * self.scaling + self.minimap_size / 2]. *)
Definition unrounded_axis (self : Renderer) (w : Number) : result Number :=
  (s <- as_number (scaling self) ;;
   p <- py_mul w s ;;
   n <- as_number (minimap_size self) ;;
   h <- py_truediv n (PInt 2) ;;
   py_add p h)%result.

Definition scaled_axis (self : Renderer) (w : Number) : result Z :=
  (q <- unrounded_axis self w ;; py_round q)%result.

Definition get_scaled (self : Renderer) (xy : Number * Number)
    (flip_y : bool) : result (Z * Z) :=
  let '(x, y) := xy in
  let y := if flip_y then py_neg y else y in
  (x <- scaled_axis self x ;;
   y <- scaled_axis self y ;;
   Ok (x, y))%result.

(** What [r * self.scaling] gives: the product of two numbers; or, for an
    int [r] and a [str] or [list] that a manifest left in [scaling], the
    repetition [count * seq] that Python hands to the sequence.  The
    repetition itself is the sequence type's: it is left as it is asked
    for, not evaluated. *)
Inductive Scaled : Type :=
| Product (n : Number)
| Repeated (count : Z) (seq : json).

Definition get_scaled_r (self : Renderer) (r : Number) : result Scaled :=
  match scaling self, r with
  | JStr _, PInt count | JList _, PInt count =>
      Ok (Repeated count (scaling self))
  | _, _ =>
      (s <- as_number (scaling self) ;;
       p <- py_mul r s ;;
       Ok (Product p))%result
  end.

(** *** The collaborators outside the module

    [resman.load_image], [draw_grid], Pillow, the layer classes and the
    [write_frames] generator.  Each acts on the store and may raise; a
    layer is handed the renderer it was constructed with. *)
Record External : Type := {
  load_image : string -> string -> Store -> Store * result obj;
  img_size : obj -> Store -> Z * Z;
  img_copy : obj -> Store -> Store * result obj;
  img_resize : obj -> Z * Z -> Store -> Store * result obj;
  img_paste :
    obj -> obj -> option (Z * Z) -> option obj -> Store -> Store * result unit;
  draw_grid : Store -> Store * result obj;
  alpha_composite : obj -> obj -> Store -> Store * result obj;
  image_draw : obj -> Store -> Store * result obj;
  img_tobytes : obj -> Store -> Store * result bytes;
  construct : string -> Renderer -> Store -> Store * result obj;
  layer_draw : obj -> Renderer -> Z -> obj -> Store -> Store * result unit;
  write_frames : WriterParams -> Store -> Store * result obj;
  gen_send : obj -> option bytes -> Store -> Store * result unit;
  gen_close : obj -> Store -> Store * result unit
}.

(** *** The state of a run *)

Record World : Type := {
  self : Renderer;
  store : Store;
  log : list event
}.

Definition assert (b : bool) : M World unit :=
  if b then ret tt else raise AssertionError.

Definition get_self : M World Renderer := fun w => (w, Ok (self w)).

Definition update_self (f : Renderer -> Renderer) : M World unit :=
  fun w => ({| self := f (self w); store := store w; log := log w |}, Ok tt).

Definition record (c : call) (o : outcome) (w : World) (st : Store) : World :=
  {| self := self w; store := st; log := log w ++ [(c, o)] |}.

(** A call that returns an object, bytes or nothing. *)
Definition call_obj (c : call) (f : Store -> Store * result obj) : M World obj :=
  fun w =>
    match f (store w) with
    | (st, Ok o) => (record c (ReturnedObj o) w st, Ok o)
    | (st, Raise e) => (record c (Raised e) w st, Raise e)
    end.

Definition call_bytes (c : call) (f : Store -> Store * result bytes)
  : M World bytes :=
  fun w =>
    match f (store w) with
    | (st, Ok b) => (record c (ReturnedBytes b) w st, Ok b)
    | (st, Raise e) => (record c (Raised e) w st, Raise e)
    end.

Definition call_unit (c : call) (f : Store -> Store * result unit)
  : M World unit :=
  fun w =>
    match f (store w) with
    | (st, Ok _) => (record c Returned w st, Ok tt)
    | (st, Raise e) => (record c (Raised e) w st, Raise e)
    end.

(** A call answered by the installed packages, without effect on the
    store. *)
Definition call_site {A} (c : call) (r : result A) : M World A :=
  fun w =>
    match r with
    | Ok a => (record c Returned w (store w), Ok a)
    | Raise e => (record c (Raised e) w (store w), Raise e)
    end.

Definition info (msg : string) : M World unit :=
  call_site (CInfo msg) (Ok tt).


(** A read of the store that cannot raise, such as [im.size]. *)
Definition peek {A} (f : Store -> A) : M World A :=
  fun w => (w, Ok (f (store w))).

(** [o.attr] on an attribute that may still be [None]. *)
Definition deref (o : option obj) : M World obj :=
  match o with
  | Some r => ret r
  | None => raise AttributeError
  end.

Definition truthy (o : option obj) : bool :=
  match o with Some _ => true | None => false end.

Variable X : External.
Variable site : Site.

Local Open Scope monad_scope.

(** *** Manifest resolution *)

(** [self.minimap_size, self.space_size, self.scaling = manifest] *)
Definition unpack_manifest (manifest : json) : M World unit :=
  t <- lift (unpack3 manifest) ;;
  let '(a, b, c) := t in
  update_self (set_manifest a b c).

(** [except (FileNotFoundError, KeyError)] *)
Definition missing_manifest (e : exn) : bool :=
  match e with
  | FileNotFoundError | KeyError => true
  | _ => false
  end.

(** The body of either [with open_text(package, "manifest.json")] block:
    decode the manifest, look the map up, unpack its entry into [self]. *)
Definition read_manifest (package key : string) : M World unit :=
  reader <- call_site (COpenText package "manifest.json")
                      (open_text site package "manifest.json") ;;
  doc <- lift (json_load reader) ;;
  manifest <- lift (subscript doc key) ;;
  unpack_manifest manifest.

(** The five assertions on what was unpacked. *)
Definition check_manifest : M World unit :=
  self <- get_self ;;
  assert (isinstance_int (minimap_size self)) ;;
  assert (isinstance_int (space_size self)) ;;
  assert (isinstance_float (scaling self)) ;;
  assert (int_in_range 0 1600 (space_size self)) ;;
  assert (int_equals 760 (minimap_size self)).

Definition _load_map_manifest : M World string :=
  self <- get_self ;;
  let version := game_version (replay_data self) in
  let pkg := PACKAGE ++ ".versions." ++ version ++ ".resources.spaces" in
  let map_default := res self ++ ".spaces." ++ game_map (replay_data self) in
  let map_versioned := pkg ++ "." ++ game_map (replay_data self) in
  try_except
    (map_res <-
       try_except
         (read_manifest pkg (game_map (replay_data self)) ;;
          info "Versioned map resource found. Loading that instead..." ;;
          ret map_versioned)
         missing_manifest
         (fun _ =>
            read_manifest (res self ++ ".spaces")
                          (game_map (replay_data self)) ;;
            info "No versioned map resource found. Loading default..." ;;
            ret map_default) ;;
     check_manifest ;;
     ret map_res)
    (fun _ => true)
    (fun e => raise (MapManifestLoadError e)).

(** *** Map resources *)

(** [except (FileNotFoundError, ModuleNotFoundError)] *)
Definition missing_resource (e : exn) : bool :=
  match e with
  | FileNotFoundError | ModuleNotFoundError => true
  | _ => false
  end.

Definition _load_map : M World unit :=
  info "Looking for versioned map resource..." ;;
  map_res <- _load_map_manifest ;;
  try_except
    (self <- get_self ;;
     map_legends <- call_obj (CLoadImage (res self) "minimap_grid_legends.png")
                      (load_image X (res self) "minimap_grid_legends.png") ;;
     map_land <- call_obj (CLoadImage map_res "minimap.png")
                   (load_image X map_res "minimap.png") ;;
     map_water <- call_obj (CLoadImage map_res "minimap_water.png")
                    (load_image X map_res "minimap_water.png") ;;
     c <- call_obj (CCopy map_water) (img_copy X map_water) ;;
     sz <- peek (img_size X map_legends) ;;
     bg <- call_obj (CResize c sz) (img_resize X c sz) ;;
     update_self (set_minimap_bg bg) ;;
     call_unit (CPaste bg map_legends None (Some map_legends))
               (img_paste X bg map_legends None (Some map_legends)) ;;
     grid <- call_obj CDrawGrid (draw_grid X) ;;
     map_water <- call_obj (CAlphaComposite map_water grid)
                    (alpha_composite X map_water grid) ;;
     im <- call_obj (CAlphaComposite map_water map_land)
             (alpha_composite X map_water map_land) ;;
     update_self (set_minimap_image im))
    missing_resource
    (fun e => raise (MapLoadError e)).

(** *** Layer registry *)

Definition layers : list string :=
  [ "LayerShip"; "LayerShot"; "LayerTorpedo"; "LayerSmoke"; "LayerPlane";
    "LayerWard"; "LayerCapture" ].

(** [except (ModuleNotFoundError, AttributeError)] *)
Definition missing_layer (e : exn) : bool :=
  match e with
  | ModuleNotFoundError | AttributeError => true
  | _ => false
  end.

(** The [try] block of the loop: the version-specific class. *)
Definition versioned_layer (versioned_layers_pkg layer : string)
  : M World string :=
  mod_ <- call_site (CImportModule ".layers" versioned_layers_pkg)
                   (import_module site ".layers" versioned_layers_pkg) ;;
  m_layer <- lift (getattr mod_ layer) ;;
  info ("Versioned " ++ layer ++ " found. Using that instead.") ;;
  ret m_layer.

(** The [except] block: the class of the default package. *)
Definition default_layer (layer : string) : M World string :=
  mod_ <- call_site (CImportModule ".layers" PACKAGE)
                   (import_module site ".layers" PACKAGE) ;;
  lift (getattr mod_ (layer ++ "Base")).

Definition resolve_layer (versioned_layers_pkg layer : string)
  : M World string :=
  try_except (versioned_layer versioned_layers_pkg layer)
             missing_layer
             (fun _ => default_layer layer).

(** The loop [for layer in layers], with [init_layers] so far. *)
Fixpoint init_each (versioned_layers_pkg : string) (todo : list string)
    (init_layers : list obj) : M World (list obj) :=
  match todo with
  | [] => ret init_layers
  | layer :: todo' =>
      m_layer <- resolve_layer versioned_layers_pkg layer ;;
      self <- get_self ;;
      o <- call_obj (CConstruct m_layer) (construct X m_layer self) ;;
      init_each versioned_layers_pkg todo' (init_layers ++ [o])
  end.

Definition _check_versioned_layers : M World (list obj) :=
  self <- get_self ;;
  let versioned_layers_pkg :=
    PACKAGE ++ ".versions." ++ game_version (replay_data self) in
  info "Looking for versioned layers" ;;
  init_each versioned_layers_pkg layers [].

(** *** The rendering run *)

(** The seven names that [start] binds to the registry's list. *)
Record Layers : Type := {
  layer_ship : obj;
  layer_shot : obj;
  layer_torpedo : obj;
  layer_smoke : obj;
  layer_plane : obj;
  layer_ward : obj;
  layer_capture : obj
}.

(** The tuple assignment; it raises unless there are seven values. *)
Definition unpack_layers (init_layers : list obj) : result Layers :=
  match init_layers with
  | [a; b; c; d; e; f; g] =>
      Ok {| layer_ship := a; layer_shot := b; layer_torpedo := c;
            layer_smoke := d; layer_plane := e; layer_ward := f;
            layer_capture := g |}
  | _ => Raise ValueError
  end.

Definition draw_layer (layer : obj) (game_time : Z) (target : obj)
  : M World unit :=
  self <- get_self ;;
  call_unit (CLayerDraw layer game_time target)
            (layer_draw X layer self game_time target).

(** The body of [for game_time in self.replay_data.events.keys()]. *)
Definition frame (ly : Layers) (video_writer : obj) (game_time : Z)
  : M World unit :=
  self <- get_self ;;
  fg <- deref (minimap_image self) ;;
  minimap_img <- call_obj (CCopy fg) (img_copy X fg) ;;
  bg <- deref (minimap_bg self) ;;
  minimap_bg <- call_obj (CCopy bg) (img_copy X bg) ;;
  draw <- call_obj (CImageDraw minimap_img) (image_draw X minimap_img) ;;
  draw_layer (layer_capture ly) game_time minimap_img ;;
  draw_layer (layer_ward ly) game_time minimap_img ;;
  draw_layer (layer_shot ly) game_time draw ;;
  draw_layer (layer_torpedo ly) game_time draw ;;
  draw_layer (layer_ship ly) game_time minimap_img ;;
  draw_layer (layer_smoke ly) game_time minimap_img ;;
  draw_layer (layer_plane ly) game_time minimap_img ;;
  call_unit (CPaste minimap_bg minimap_img (Some (40, 40)) None)
            (img_paste X minimap_bg minimap_img (Some (40, 40)) None) ;;
  b <- call_bytes (CToBytes minimap_bg) (img_tobytes X minimap_bg) ;;
  call_unit (CSend video_writer (Some b)) (gen_send X video_writer (Some b)).

Definition writer_params (sz : Z * Z) : WriterParams :=
  {| path := "minimap.mp4"; fps := 20; quality := 9; pix_fmt_in := "rgba";
     macro_block_size := 20; size := sz |}.

(** What [start] does once the layers are bound: open the writer, run the
    loop, close the writer. *)
Definition stream (ly : Layers) : M World unit :=
  self <- get_self ;;
  bg <- deref (minimap_bg self) ;;
  sz <- peek (img_size X bg) ;;
  video_writer <- call_obj (CWriteFrames (writer_params sz))
                    (write_frames X (writer_params sz)) ;;
  call_unit (CSend video_writer None) (gen_send X video_writer None) ;;
  for_each (keys (events (replay_data self))) (frame ly video_writer) ;;
  call_unit (CClose video_writer) (gen_close X video_writer).

Definition start : M World unit :=
  _load_map ;;
  self <- get_self ;;
  assert (truthy (minimap_image self)) ;;
  assert (truthy (minimap_bg self)) ;;
  init_layers <- _check_versioned_layers ;;
  ly <- lift (unpack_layers init_layers) ;;
  stream ly.
End Model.

Arguments ReplayData : clear implicits.
Arguments Renderer : clear implicits.
Arguments External : clear implicits.
Arguments World : clear implicits.

(** Following the specification of the coordinate transform:
    [pixel = round(world * scale + minimap_size / 2)]. *)
Definition spec_pixel (scale minimap_size world : Number) : result Z :=
  (p <- py_mul world scale ;;
   h <- py_truediv minimap_size (PInt 2) ;;
   q <- py_add p h ;;
   py_round q)%result.

(** [to_pixels(world_xy, flip_y)]: the y coordinate is negated before
    scaling when [flip_y] is set. *)
Definition spec_to_pixels (scale minimap_size : Number)
    (world_xy : Number * Number) (flip_y : bool) : result (Z * Z) :=
  (px <- spec_pixel scale minimap_size (fst world_xy) ;;
   py <- spec_pixel scale minimap_size
           (if flip_y then py_neg (snd world_xy) else snd world_xy) ;;
   Ok (px, py))%result.

Definition is_zero (a : Number) : bool :=
  match a with
  | PInt 0 | PFloat (S754_zero _) => true
  | _ => false
  end.

(** ** Reading a manifest, without the bookkeeping *)

(** The three values that one manifest yields for a map: opening the
    resource, decoding it, looking the map up and unpacking the entry. *)
Definition read_entry (site : Site) (package key : string)
  : result (json * json * json) :=
  (d <- open_text site package "manifest.json" ;;
   doc <- json_load d ;;
   manifest <- subscript doc key ;;
   unpack3 manifest)%result.

(** The five assertions of [_load_map_manifest]. *)
Definition valid_entry (t : json * json * json) : bool :=
  let '(minimap_size, space_size, scaling) := t in
  isinstance_int minimap_size && isinstance_int space_size
  && isinstance_float scaling && int_in_range 0 1600 space_size
  && int_equals 760 minimap_size.

Definition versioned_spaces (version : string) : string :=
  PACKAGE ++ ".versions." ++ version ++ ".resources.spaces".

Definition default_spaces : string := PACKAGE ++ ".resources" ++ ".spaces".

(** The class that the version-specific package gives for a layer. *)
Definition versioned_class (site : Site) (version layer : string)
  : result string :=
  (m <- import_module site ".layers" (PACKAGE ++ ".versions." ++ version) ;;
   getattr m layer)%result.

(** The class that the default package gives for a layer. *)
Definition default_class (site : Site) (layer : string) : result string :=
  (m <- import_module site ".layers" PACKAGE ;;
   getattr m (layer ++ "Base"))%result.

(** The class that the registry instantiates for a layer. *)
Definition resolved_class (site : Site) (version layer : string)
  : result string :=
  match versioned_class site version layer with
  | Ok c => Ok c
  | Raise e => if missing_layer e then default_class site layer else Raise e
  end.

(** The entry that [_load_map_manifest] checks: the one of the
    version's manifest, or the one of the default manifest when the
    version's manifest file or the map in it is missing. *)
Definition selected_entry (site : Site) (version key : string)
  : result (json * json * json) :=
  match read_entry site (versioned_spaces version) key with
  | Ok t => Ok t
  | Raise e =>
      if missing_manifest e then read_entry site default_spaces key
      else Raise e
  end.

(** Following the specification: the manifest of [package] has an entry
    for the map. *)
Definition spec_manifest_entry (site : Site) (package key : string)
  : option json :=
  match open_text site package "manifest.json" with
  | Ok (Parsed (JDict d)) => assoc key d
  | _ => None
  end.

(** Following the specification: [minimap_size] equals 760, [space_size]
    is an integer with [0 < space_size <= 1600], [scale] is a float. *)
Definition spec_entry_ok (entry : json) : bool :=
  match entry with
  | JList [minimap_size; space_size; scale] =>
      int_equals 760 minimap_size
      && isinstance_int space_size && int_in_range 0 1600 space_size
      && isinstance_float scale
  | _ => false
  end.

(** Following the specification: the load fails exactly when the map is
    absent from both manifests (which is also the case when the default
    manifest cannot be loaded at the fallback step) or the selected entry
    violates an invariant. *)
Definition spec_load_fails (site : Site) (version key : string) : bool :=
  match spec_manifest_entry site (versioned_spaces version) key with
  | Some entry => negb (spec_entry_ok entry)
  | None =>
      match spec_manifest_entry site default_spaces key with
      | Some entry => negb (spec_entry_ok entry)
      | None => true
      end
  end.

(** How a call answered by the installed packages shows in the log. *)
Definition outcome_of {A} (r : result A) : outcome :=
  match r with
  | Ok _ => Returned
  | Raise e => Raised e
  end.

(** ** Reading a log *)

(** The text resources that were asked for. *)
Definition opened (l : list event) : list (string * string) :=
  flat_map (fun ev : event =>
              match ev with
              | (COpenText package resource, _) => [(package, resource)]
              | _ => []
              end) l.


(** The frames that reached the video writer. *)
Definition sent_frames (l : list event) : list bytes :=
  flat_map (fun ev : event =>
              match ev with
              | (CSend _ (Some b), Returned) => [b]
              | _ => []
              end) l.

(** The classes instantiated, with the object each gave. *)
Definition constructed (l : list event) : list (string * obj) :=
  flat_map (fun ev : event =>
              match ev with
              | (CConstruct c, ReturnedObj o) => [(c, o)]
              | _ => []
              end) l.

(** The class of which [o] is an instance, by the constructions [cs]. *)
Fixpoint class_of (cs : list (string * obj)) (o : obj) : option string :=
  match cs with
  | [] => None
  | (c, o') :: cs' => if Nat.eqb o o' then Some c else class_of cs' o
  end.

(** The layer objects whose [draw] was called. *)
Definition drawn (l : list event) : list obj :=
  flat_map (fun ev : event =>
              match ev with
              | (CLayerDraw layer _ _, _) => [layer]
              | _ => []
              end) l.

Definition is_close (ev : event) : bool :=
  match fst ev with
  | CClose _ => true
  | _ => false
  end.

Definition is_send (ev : event) : bool :=
  match fst ev with
  | CSend _ _ => true
  | _ => false
  end.

Definition is_open_text (package : string) (ev : event) : bool :=
  match fst ev with
  | COpenText p _ => String.eqb p package
  | _ => false
  end.

(** The objects made while one frame is composed. *)
Record Frame : Type := {
  canvas : obj;
  backdrop : obj;
  context : obj;
  pixels : bytes
}.

(** The calls of one completed pass through the loop of [start], for the
    foreground [fg] and the background [bg]. *)
Definition frame_events (ly : Layers) (video_writer fg bg : obj)
    (game_time : Z) (f : Frame) : list event :=
  [ (CCopy fg, ReturnedObj (canvas f));
    (CCopy bg, ReturnedObj (backdrop f));
    (CImageDraw (canvas f), ReturnedObj (context f));
    (CLayerDraw (layer_capture ly) game_time (canvas f), Returned);
    (CLayerDraw (layer_ward ly) game_time (canvas f), Returned);
    (CLayerDraw (layer_shot ly) game_time (context f), Returned);
    (CLayerDraw (layer_torpedo ly) game_time (context f), Returned);
    (CLayerDraw (layer_ship ly) game_time (canvas f), Returned);
    (CLayerDraw (layer_smoke ly) game_time (canvas f), Returned);
    (CLayerDraw (layer_plane ly) game_time (canvas f), Returned);
    (CPaste (backdrop f) (canvas f) (Some (40, 40)) None, Returned);
    (CToBytes (backdrop f), ReturnedBytes (pixels f));
    (CSend video_writer (Some (pixels f)), Returned) ].

(** The calls of the completed passes for the timestamps [ts]. *)
Definition frames_events (ly : Layers) (video_writer fg bg : obj)
    (ts : list Z) (fs : list Frame) : list event :=
  flat_map (fun tf => frame_events ly video_writer fg bg (fst tf) (snd tf))
           (combine ts fs).

(** The order in which one pass draws the layers. *)
Definition draw_order (ly : Layers) : list obj :=
  [ layer_capture ly; layer_ward ly; layer_shot ly; layer_torpedo ly;
    layer_ship ly; layer_smoke ly; layer_plane ly ].

(** The calls made before the video writer is created. *)
Definition is_setup (ev : event) : bool :=
  match fst ev with
  | COpenText _ _ | CInfo _ | CImportModule _ _ | CLoadImage _ _ | CCopy _
  | CResize _ _ | CPaste _ _ _ _ | CDrawGrid | CAlphaComposite _ _
  | CConstruct _ => true
  | _ => false
  end.

(** The calls made while the registry resolves one class. *)
Definition is_lookup (ev : event) : bool :=
  match fst ev with
  | CInfo _ | CImportModule _ _ => true
  | _ => false
  end.

Definition not_close (ev : event) : bool := negb (is_close ev).

(** [m] only appends to the log, and only events that [p] accepts; it
    leaves the replay data where it is. *)
Definition emits {Snapshot Store A : Type} (p : event -> bool)
    (m : M (World Snapshot Store) A) : Prop :=
  forall w w' r, m w = (w', r) ->
    replay_data (self w') = replay_data (self w) /\
    exists l, log w' = (log w ++ l)%list /\ forallb p l = true.


(** How the calls [l] of a run that ended in [r] close the video writer:
    a completed run ends with the one call of [close]; a run that raised
    either made no such call, or it is the call of [close] that raised. *)
Definition closes_last (r : result unit) (l : list event) : Prop :=
  match r with
  | Ok _ =>
      exists l0 video_writer,
        l = (l0 ++ [(CClose video_writer, Returned)])%list /\
        forallb not_close l0 = true
  | Raise e =>
      forallb not_close l = true \/
      exists l0 video_writer,
        l = (l0 ++ [(CClose video_writer, Raised e)])%list /\
        forallb not_close l0 = true
  end.

(** [m] appends to the log, and closes the video writer last. *)
Definition ends_with_close {Snapshot Store : Type}
    (m : M (World Snapshot Store) unit) : Prop :=
  forall w w' r, m w = (w', r) ->
    exists l, log w' = (log w ++ l)%list /\ closes_last r l.

(** ** A small installation to run the model on *)

Module Example.
(** 0.2347, 1.0 and 0.5 as binary64. *)
Definition f0_2347 : spec_float := S754_finite false 8455958660350843 (-55).
Definition f1 : spec_float := S754_finite false 4503599627370496 (-52).
Definition f0_5 : spec_float := S754_finite false 4503599627370496 (-53).
(** 130.5 + 2^-45 *)
Definition f130_5 : spec_float := S754_finite false 4591560557592577 (-45).

Definition manifest (entries : list (string * json)) : list (string * document) :=
  [("manifest.json", Parsed (JDict entries))].

Definition good_entry : json := JList [JInt 760; JInt 720; JFloat f0_2347].

(** Only the default manifest; no package for any version. *)
Definition site_default : Site :=
  {| resources := [(default_spaces, manifest [("spaces/01_solomon_islands", good_entry)])];
     modules := [] |}.

(** Version 0_11_6 has a manifest of its own and overrides one layer. *)
Definition site_versioned : Site :=
  {| resources :=
       [ (default_spaces, manifest [("spaces/01_solomon_islands", good_entry)]);
         (versioned_spaces "0_11_6",
          manifest [("spaces/16_OC_bees_to_honey", good_entry);
                    ("spaces/01_solomon_islands",
                     JList [JInt 760; JInt 720; JInt 1])]) ];
     modules :=
       [ (PACKAGE ++ ".versions.0_11_6.layers",
          Namespace [("LayerShip", "LayerShip_0_11_6")]) ] |}.

(** The manifest of version 0_11_7 does not decode. *)
Definition site_malformed : Site :=
  {| resources :=
       [ (default_spaces, manifest [("spaces/01_solomon_islands", good_entry)]);
         (versioned_spaces "0_11_7", [("manifest.json", Malformed)]) ];
     modules := [] |}.

(** The default manifest gives an infinite scale, as [1e999] decodes. *)
Definition site_infinite : Site :=
  {| resources :=
       [ (default_spaces,
          manifest [("spaces/01_solomon_islands",
                     JList [JInt 760; JInt 720; JFloat (S754_infinity false)])]);
         (versioned_spaces "0_11_6", []) ];
     modules := [] |}.

Definition replay (version map_ : string) (ts : list Z) : ReplayData unit :=
  {| game_version := version; game_map := map_;
     events := map (fun t => (t, tt)) ts |}.

(** Objects are numbered as they are made; the store is the next number.
    A layer fails to draw at the timestamps [bad]. *)
Definition fresh (n : nat) : nat * result obj := (S n, Ok n).

Definition world (bad : Z -> bool) : External unit nat :=
  {| load_image := fun _ _ => fresh;
     img_size := fun _ _ => (840, 840);
     img_copy := fun _ => fresh;
     img_resize := fun _ _ => fresh;
     img_paste := fun _ _ _ _ n => (n, Ok tt);
     draw_grid := fresh;
     alpha_composite := fun _ _ => fresh;
     image_draw := fun _ => fresh;
     img_tobytes := fun im n =>
       (n, Ok (match Byte.of_nat im with Some b => [b] | None => [] end));
     construct := fun _ _ => fresh;
     layer_draw := fun _ _ t _ n =>
       (n, if bad t then Raise (ExternalError "draw") else Ok tt);
     write_frames := fun _ => fresh;
     gen_send := fun _ _ n => (n, Ok tt);
     gen_close := fun _ n => (n, Ok tt) |}.

Definition initial (d : ReplayData unit) : World unit nat :=
  {| self := __init__ d; store := 0%nat; log := [] |}.

Definition session (scale : spec_float) : Renderer unit :=
  set_manifest (JInt 760) (JInt 720) (JFloat scale)
               (__init__ (replay "0_11_6" "spaces/01_solomon_islands" [])).
End Example.

(** ** Further readings of a log and of the collaborators *)

(** The calls of manifest resolution: opening a manifest and logging. *)
Definition is_manifest_call (ev : event) : bool :=
  match fst ev with
  | COpenText _ _ | CInfo _ => true
  | _ => false
  end.

(** The calls that build the two templates of a map. *)
Definition is_image_call (ev : event) : bool :=
  match fst ev with
  | CLoadImage _ _ | CCopy _ | CResize _ _ | CPaste _ _ _ _ | CDrawGrid
  | CAlphaComposite _ _ => true
  | _ => false
  end.

Definition is_info (ev : event) : bool :=
  match fst ev with
  | CInfo _ => true
  | _ => false
  end.

(** The import of the default layers package. *)
Definition is_default_import (ev : event) : bool :=
  match fst ev with
  | CImportModule name package =>
      String.eqb name ".layers" && String.eqb package PACKAGE
  | _ => false
  end.

(** The layer objects whose [draw] was called, each with the timestamp it
    was handed. *)
Definition drawn_at (l : list event) : list (obj * Z) :=
  flat_map (fun ev : event =>
              match ev with
              | (CLayerDraw layer game_time _, _) => [(layer, game_time)]
              | _ => []
              end) l.

(** The calls on the video writer: its creation, [send] and [close]. *)
Definition is_writer_call (ev : event) : bool :=
  match fst ev with
  | CWriteFrames _ | CSend _ _ | CClose _ => true
  | _ => false
  end.

(** What the video writer sees of a run. *)
Definition writer_events (l : list event) : list event :=
  filter is_writer_call l.

(** No collaborator raises, whatever it is handed. *)
Definition never_raises {Snapshot Store : Type}
    (X : External Snapshot Store) : Prop :=
  (forall p f st, is_ok (snd (load_image X p f st)) = true) /\
  (forall im st, is_ok (snd (img_copy X im st)) = true) /\
  (forall im sz st, is_ok (snd (img_resize X im sz st)) = true) /\
  (forall d s b m st, is_ok (snd (img_paste X d s b m st)) = true) /\
  (forall st, is_ok (snd (draw_grid X st)) = true) /\
  (forall a b st, is_ok (snd (alpha_composite X a b st)) = true) /\
  (forall im st, is_ok (snd (image_draw X im st)) = true) /\
  (forall im st, is_ok (snd (img_tobytes X im st)) = true) /\
  (forall c s st, is_ok (snd (construct X c s st)) = true) /\
  (forall l s t x st, is_ok (snd (layer_draw X l s t x st)) = true) /\
  (forall p st, is_ok (snd (write_frames X p st)) = true) /\
  (forall g b st, is_ok (snd (gen_send X g b st)) = true) /\
  (forall g st, is_ok (snd (gen_close X g st)) = true).

(** The exception of the first role, in the order of [todo], whose class
    does not resolve. *)
Fixpoint first_unresolved (site : Site) (version : string)
    (todo : list string) : option exn :=
  match todo with
  | [] => None
  | layer :: todo' =>
      match resolved_class site version layer with
      | Ok _ => first_unresolved site version todo'
      | Raise e => Some e
      end
  end.

(** ** An installation whose collaborators can be made to fail *)

Module Scenario.
(** Objects are numbered as they are made; a call for which [fails] names
    an exception raises it and makes nothing. *)
Definition make (fails : call -> option exn) (c : call) (n : nat)
  : nat * result obj :=
  match fails c with
  | Some e => (n, Raise e)
  | None => (S n, Ok n)
  end.

Definition act (fails : call -> option exn) (c : call) (n : nat)
  : nat * result unit :=
  match fails c with
  | Some e => (n, Raise e)
  | None => (n, Ok tt)
  end.

Definition world (fails : call -> option exn) : External unit nat :=
  {| load_image := fun p f => make fails (CLoadImage p f);
     img_size := fun _ _ => (840, 840);
     img_copy := fun im => make fails (CCopy im);
     img_resize := fun im sz => make fails (CResize im sz);
     img_paste := fun d s b m => act fails (CPaste d s b m);
     draw_grid := make fails CDrawGrid;
     alpha_composite := fun a b => make fails (CAlphaComposite a b);
     image_draw := fun im => make fails (CImageDraw im);
     img_tobytes := fun im n =>
       match fails (CToBytes im) with
       | Some e => (n, Raise e)
       | None =>
           (n, Ok (match Byte.of_nat im with Some b => [b] | None => [] end))
       end;
     construct := fun c _ => make fails (CConstruct c);
     layer_draw := fun l _ t x => act fails (CLayerDraw l t x);
     write_frames := fun p => make fails (CWriteFrames p);
     gen_send := fun g b => act fails (CSend g b);
     gen_close := fun g => act fails (CClose g) |}.

(** The water image of the map is missing. *)
Definition no_water (c : call) : option exn :=
  match c with
  | CLoadImage _ "minimap_water.png" => Some FileNotFoundError
  | _ => None
  end.

(** The land image does not decode. *)
Definition bad_land (c : call) : option exn :=
  match c with
  | CLoadImage _ "minimap.png" => Some (ExternalError "UnidentifiedImageError")
  | _ => None
  end.

(** The layers package of version 0_11_8 fails while it is imported. *)
Definition site_broken : Site :=
  {| resources := resources Example.site_versioned;
     modules :=
       [ (PACKAGE ++ ".versions.0_11_8.layers",
          Broken (ExternalError "SyntaxError")) ] |}.
End Scenario.

(** ** The right shift of SpecFloat

    After [k] steps of [shr_1] on [m0] the record holds the quotient of
    [m0] by [2^k], and its two bits tell where the remainder lies: at or
    above the half, and off both zero and the half. *)
Definition shr_inv (m0 k : Z) (mrs : shr_record) : Prop :=
  0 <= shr_m mrs /\
  0 <= m0 - shr_m mrs * 2 ^ k < 2 ^ k /\
  (shr_r mrs = true <-> 2 ^ k <= 2 * (m0 - shr_m mrs * 2 ^ k)) /\
  (shr_s mrs = true <->
   0 < m0 - shr_m mrs * 2 ^ k /\ 2 * (m0 - shr_m mrs * 2 ^ k) <> 2 ^ k).

(** * Properties *)

(** ** Rounding *)

Lemma round_half_even_scale (n k j : Z) :
  0 <= k -> 0 <= j ->
  Float64.round_half_even (n * 2 ^ j) (k + j) = Float64.round_half_even n k.
Proof.
  intros Hk Hj. unfold Float64.round_half_even.
  rewrite Z.pow_add_r by assumption.
  assert (Hd : 0 < 2 ^ k) by (apply Z.pow_pos_nonneg; lia).
  assert (Hc : 0 < 2 ^ j) by (apply Z.pow_pos_nonneg; lia).
  rewrite Z.div_mul_cancel_r by lia.
  rewrite Z.mul_mod_distr_r by lia.
  replace (2 * (n mod 2 ^ k * 2 ^ j)) with (2 * (n mod 2 ^ k) * 2 ^ j) by ring.
  rewrite <- (Zmult_compare_compat_r (2 * (n mod 2 ^ k)) (2 ^ k) (2 ^ j)) by lia.
  reflexivity.
Qed.

(** Rounding to the nearest integer, ties to even, is symmetric about the
    half of an even integer: two dyadic numbers over the same power of two
    that add up to [c] round to integers that add up to [c]. *)
Lemma round_half_even_mirror_same (a b k c : Z) :
  0 <= k -> Z.even c = true -> a + b = c * 2 ^ k ->
  Float64.round_half_even a k + Float64.round_half_even b k = c.
Proof.
  intros Hk Hc Hab. unfold Float64.round_half_even.
  assert (Hd : 0 < 2 ^ k) by (apply Z.pow_pos_nonneg; lia).
  generalize dependent (2 ^ k). intros d Hab Hd.
  pose proof (Z.div_mod a d ltac:(lia)) as Ha.
  pose proof (Z.mod_pos_bound a d Hd) as Hra.
  generalize dependent (a / d). generalize dependent (a mod d).
  intros r Hra q Ha.
  destruct (Z.eq_dec r 0) as [Hr0 | Hr0].
  - assert (Hb : b = (c - q) * d) by nia.
    rewrite Hb, Z.div_mul, Z.mod_mul by lia.
    rewrite Hr0. simpl (2 * 0).
    destruct (Z.compare_spec 0 d) as [E | E | E]; lia.
  - assert (Hb : b = (c - q - 1) * d + (d - r)) by nia.
    assert (Hbq : b / d = c - q - 1).
    { symmetry. apply (Z.div_unique b d (c - q - 1) (d - r)); [lia | lia]. }
    assert (Hbr : b mod d = d - r).
    { symmetry. apply (Z.mod_unique b d (c - q - 1) (d - r)); [lia | lia]. }
    rewrite Hbq, Hbr.
    destruct (Z.compare_spec (2 * r) d) as [E | E | E];
      destruct (Z.compare_spec (2 * (d - r)) d) as [F | F | F]; try lia.
    assert (Hpar : Z.even (c - q - 1) = negb (Z.even q)).
    { replace (c - q - 1) with (c - (q + 1)) by ring.
      rewrite Z.even_sub, Hc, Z.even_add. simpl (Z.even 1).
      destruct (Z.even q); reflexivity. }
    rewrite Hpar. destruct (Z.even q); simpl; lia.
Qed.

Lemma round_half_even_mirror (n1 k1 n2 k2 c : Z) :
  0 <= k1 -> 0 <= k2 -> Z.even c = true ->
  n1 * 2 ^ k2 + n2 * 2 ^ k1 = c * 2 ^ (k1 + k2) ->
  Float64.round_half_even n1 k1 + Float64.round_half_even n2 k2 = c.
Proof.
  intros H1 H2 Hc Hs.
  rewrite <- (round_half_even_scale n1 k1 k2) by assumption.
  rewrite <- (round_half_even_scale n2 k2 k1) by assumption.
  rewrite (Z.add_comm k2 k1).
  apply round_half_even_mirror_same; [lia | assumption | assumption].
Qed.

Lemma scale_nonneg (f : spec_float) : 0 <= Float64.scale f.
Proof.
  destruct f as [s | s | | s m e]; simpl; try lia.
  destruct (0 <=? e) eqn:E; [lia | apply Z.leb_gt in E; lia].
Qed.

Lemma py_round_float (f : spec_float) (n : Z) :
  py_round (PFloat f) = Ok n -> n = Float64.to_nearest_Z f.
Proof.
  destruct f; simpl; intros H; try discriminate; injection H as <-; reflexivity.
Qed.

(** ** Binary64 rounding, from the definitions of SpecFloat *)

Lemma digits2_pos_bounds (p : positive) :
  2 ^ (Z.pos (digits2_pos p) - 1) <= Z.pos p < 2 ^ Z.pos (digits2_pos p).
Proof.
  induction p as [p IH | p IH |]; cbn [digits2_pos].
  - rewrite Pos2Z.inj_succ. change (Z.pos p~1) with (2 * Z.pos p + 1).
    replace (Z.succ (Z.pos (digits2_pos p)) - 1)
      with (Z.succ (Z.pos (digits2_pos p) - 1)) by lia.
    rewrite !Z.pow_succ_r by lia.
    generalize dependent (2 ^ (Z.pos (digits2_pos p) - 1)).
    generalize dependent (2 ^ Z.pos (digits2_pos p)). intros; lia.
  - rewrite Pos2Z.inj_succ. change (Z.pos p~0) with (2 * Z.pos p).
    replace (Z.succ (Z.pos (digits2_pos p)) - 1)
      with (Z.succ (Z.pos (digits2_pos p) - 1)) by lia.
    rewrite !Z.pow_succ_r by lia.
    generalize dependent (2 ^ (Z.pos (digits2_pos p) - 1)).
    generalize dependent (2 ^ Z.pos (digits2_pos p)). intros; lia.
  - simpl. lia.
Qed.

Lemma iter_pos_invariant {A : Type} (f : A -> A) (P : Z -> A -> Prop) :
  (forall k x, 0 <= k -> P k x -> P (k + 1) (f x)) ->
  forall p k x, 0 <= k -> P k x -> P (k + Z.pos p) (iter_pos f p x).
Proof.
  intros Hstep. induction p as [p IH | p IH |]; intros k x Hk Hx;
    cbn [iter_pos].
  - change (Z.pos p~1) with (2 * Z.pos p + 1).
    replace (k + (2 * Z.pos p + 1)) with (k + 1 + Z.pos p + Z.pos p) by lia.
    apply IH; [lia |]. apply IH; [lia |]. apply Hstep; assumption.
  - change (Z.pos p~0) with (2 * Z.pos p).
    replace (k + 2 * Z.pos p) with (k + Z.pos p + Z.pos p) by lia.
    apply IH; [lia |]. apply IH; assumption.
  - apply Hstep; assumption.
Qed.

Lemma shr_1_invariant (m0 k : Z) (mrs : shr_record) :
  0 <= k -> shr_inv m0 k mrs -> shr_inv m0 (k + 1) (shr_1 mrs).
Proof.
  intros Hk. unfold shr_inv.
  rewrite Z.pow_add_r by lia. change (2 ^ 1) with 2.
  assert (Hp : 0 < 2 ^ k) by (apply Z.pow_pos_nonneg; lia).
  generalize dependent (2 ^ k). intros d Hd.
  destruct mrs as [m r s]. cbn [shr_m shr_r shr_s].
  intros (Hm & Hrem & Hr & Hs).
  assert (Hors : r || s = true <-> 0 < m0 - m * d).
  { rewrite orb_true_iff, Hr, Hs. lia. }
  destruct m as [| [p | p |] | p]; cbn [shr_1 shr_m shr_r shr_s];
    try lia;
    try change (Z.pos p~1) with (2 * Z.pos p + 1) in *;
    try change (Z.pos p~0) with (2 * Z.pos p) in *;
    (split; [lia |]); (split; [lia |]);
    (split; [split; [try discriminate; intros; lia | intros; try reflexivity; lia]
            | rewrite Hors; lia]).
Qed.

Local Abbreviation fexp64 := (fexp Float64.prec Float64.emax).

Lemma fexp64_eq (x : Z) : fexp64 x = Z.max (x - 53) (-1074).
Proof. reflexivity. Qed.

Lemma shr_spec (m e n : Z) (mrs : shr_record) (e' : Z) :
  0 <= m ->
  shr (shr_record_of_loc m loc_Exact) e n = (mrs, e') ->
  e' = e + Z.max n 0 /\ shr_inv m (Z.max n 0) mrs.
Proof.
  intros Hm H.
  assert (H0 : shr_inv m 0 (shr_record_of_loc m loc_Exact)).
  { unfold shr_inv. cbn [shr_record_of_loc shr_m shr_r shr_s].
    change (2 ^ 0) with 1. repeat split; try lia; try discriminate. }
  destruct n as [| p | p]; cbn [shr] in H; injection H as <- <-.
  - rewrite Z.max_l by lia. split; [lia | exact H0].
  - rewrite Z.max_l by lia. split; [reflexivity |].
    apply (iter_pos_invariant shr_1 (shr_inv m) (shr_1_invariant m) p 0);
      [lia | exact H0].
  - rewrite Z.max_r by lia. split; [lia | exact H0].
Qed.

Lemma round_nearest_even_spec (m d : Z) (mrs : shr_record) :
  0 <= d -> shr_inv m d mrs ->
  let R := round_nearest_even (shr_m mrs) (loc_of_shr_record mrs) in
  0 <= R /\
  2 ^ d * (2 * R - 1) <= 2 * m <= 2 ^ d * (2 * R + 1).
Proof.
  intros Hd. unfold shr_inv.
  assert (Hp : 0 < 2 ^ d) by (apply Z.pow_pos_nonneg; lia).
  generalize dependent (2 ^ d). intros D HD.
  destruct mrs as [q r s]. cbn [shr_m shr_r shr_s].
  intros (Hq & Hrem & Hr & Hs).
  destruct r, s; cbn [loc_of_shr_record round_nearest_even];
    try (destruct (Z.even q));
    repeat match goal with
           | H : true = true <-> _ |- _ => destruct H as [H _]; specialize (H eq_refl)
           | H : false = true <-> _ |- _ => destruct H as [_ H]
           end;
    (split; [lia |]); nia.
Qed.

Lemma Zdigits2_le_53 (R : Z) : 0 <= R -> R < 2 ^ 53 -> Zdigits2 R <= 53.
Proof.
  intros H0 H. destruct R as [| p | p]; cbn [Zdigits2]; try lia.
  pose proof (digits2_pos_bounds p) as [Hlo _].
  destruct (Z_lt_le_dec 53 (Z.pos (digits2_pos p))) as [Hd | Hd]; [| lia].
  assert (2 ^ 53 <= 2 ^ (Z.pos (digits2_pos p) - 1))
    by (apply Z.pow_le_mono_r; lia).
  lia.
Qed.

(** What [binary_round_aux] makes of the positive integer [mp] at the
    exponent [e]: a multiple [R] of [2^g], where [g] is the exponent of
    the format at this magnitude (and no lower than [e]), and [R] a
    nearest integer of [mp / 2^(g - e)]. *)
Lemma binary_round_aux_spec (s : bool) (mp : positive) (e : Z) :
  let g := Z.max e (fexp64 (Z.pos (digits2_pos mp) + e)) in
  exists R,
    0 <= R /\
    2 ^ (g - e) * (2 * R - 1) <= 2 * Z.pos mp <= 2 ^ (g - e) * (2 * R + 1) /\
    (g = e \/ g = -1074 \/ 2 ^ 52 <= R) /\
    match binary_round_aux Float64.prec Float64.emax s (Z.pos mp) e loc_Exact
    with
    | S754_zero s' => s' = s /\ R = 0
    | S754_finite s' m' e' => s' = s /\ g <= e' /\ Z.pos m' * 2 ^ (e' - g) = R
    | S754_infinity _ => True
    | S754_nan => False
    end.
Proof.
  intros g. unfold binary_round_aux, shr_fexp. cbn [Zdigits2].
  destruct (shr (shr_record_of_loc (Z.pos mp) loc_Exact) e
              (fexp64 (Z.pos (digits2_pos mp) + e) - e)) as [mrs e1] eqn:E1.
  apply shr_spec in E1; [| lia]. destruct E1 as [He1 Hinv].
  assert (Hg : e1 = g) by (unfold g; lia).
  assert (Hd : Z.max (fexp64 (Z.pos (digits2_pos mp) + e) - e) 0 = g - e)
    by (unfold g; lia).
  rewrite Hd in Hinv. clear He1. subst e1.
  assert (Hge : 0 <= g - e) by (unfold g; lia).
  pose proof (round_nearest_even_spec _ _ _ Hge Hinv) as HR.
  cbv zeta in HR.
  set (R := round_nearest_even (shr_m mrs) (loc_of_shr_record mrs)) in *.
  destruct HR as [HR0 HR].
  assert (Hgmin : -1074 <= g) by (unfold g; rewrite fexp64_eq; lia).
  assert (HRmax : R <= 2 ^ 53).
  { pose proof (digits2_pos_bounds mp) as [_ Hhi].
    assert (Hdm : Z.pos (digits2_pos mp) <= (g - e) + 53)
      by (unfold g; rewrite fexp64_eq; lia).
    assert (Hpow : 2 ^ Z.pos (digits2_pos mp) <= 2 ^ (g - e) * 2 ^ 53).
    { rewrite <- Z.pow_add_r by lia. apply Z.pow_le_mono_r; lia. }
    assert (Hp : 0 < 2 ^ (g - e)) by (apply Z.pow_pos_nonneg; lia).
    generalize dependent (2 ^ (g - e)). intros D. intros.
    assert (D * (2 * R - 1) < D * 2 ^ 54).
    { change (2 ^ 54) with (2 * 2 ^ 53). lia. }
    assert (2 * R - 1 < 2 ^ 54) by (apply (Z.mul_lt_mono_pos_l D); lia).
    change (2 ^ 54) with (2 * 2 ^ 53) in *. lia. }
  destruct (shr (shr_record_of_loc R loc_Exact) g (fexp64 (Zdigits2 R + g) - g))
    as [mrs2 e2] eqn:E2.
  apply shr_spec in E2; [| lia]. destruct E2 as [He2 Hinv2].
  assert (Hexact : g <= e2 /\ shr_m mrs2 * 2 ^ (e2 - g) = R).
  { destruct (Z.eq_dec R (2 ^ 53)) as [HR53 | HR53].
    - rewrite HR53 in He2, Hinv2.
      change (Zdigits2 (2 ^ 53)) with 54 in He2, Hinv2.
      rewrite fexp64_eq in He2, Hinv2.
      replace (Z.max (Z.max (54 + g - 53) (-1074) - g) 0) with 1
        in He2, Hinv2 by lia.
      split; [lia |]. replace (e2 - g) with 1 by lia.
      unfold shr_inv in Hinv2. change (2 ^ 1) with 2 in *.
      rewrite HR53. change (2 ^ 53) with 9007199254740992 in *. lia.
    - assert (Hdig : Zdigits2 R <= 53) by (apply Zdigits2_le_53; lia).
      rewrite fexp64_eq in He2, Hinv2.
      replace (Z.max (Z.max (Zdigits2 R + g - 53) (-1074) - g) 0) with 0
        in He2, Hinv2 by lia.
      split; [lia |]. replace (e2 - g) with 0 by lia.
      unfold shr_inv in Hinv2. change (2 ^ 0) with 1 in *. lia. }
  destruct Hexact as [Hge2 Hex].
  assert (Hmag : g = e \/ g = -1074 \/ 2 ^ 52 <= R).
  { destruct (Z.eq_dec g e) as [Ege | Ege]; [left; exact Ege | right].
    destruct (Z.eq_dec g (-1074)) as [Egm | Egm]; [left; exact Egm | right].
    assert (Hgd : g - e + 52 = Z.pos (digits2_pos mp) - 1)
      by (unfold g in *; rewrite fexp64_eq in *; lia).
    pose proof (digits2_pos_bounds mp) as [Hlo _].
    rewrite <- Hgd, Z.pow_add_r in Hlo by lia.
    assert (Hp : 0 < 2 ^ (g - e)) by (apply Z.pow_pos_nonneg; lia).
    generalize dependent (2 ^ (g - e)). intros D. intros.
    assert (D * (2 * 2 ^ 52) <= D * (2 * R + 1)) by lia.
    assert (2 * 2 ^ 52 <= 2 * R + 1) by (apply (Z.mul_le_mono_pos_l _ _ D); lia).
    lia. }
  exists R. split; [exact HR0 |]. split; [exact HR |].
  split; [exact Hmag |].
  assert (Hm2 : 0 <= shr_m mrs2) by (apply Hinv2).
  destruct (shr_m mrs2) as [| m2 | m2] eqn:Em2.
  - split; [reflexivity | lia].
  - destruct (e2 <=? Float64.emax - Float64.prec); [| exact I].
    split; [reflexivity |]. split; assumption.
  - lia.
Qed.

Lemma round_half_even_bounds (n k : Z) :
  0 <= k ->
  let r := Float64.round_half_even n k in
  (2 * r - 1) * 2 ^ k <= 2 * n <= (2 * r + 1) * 2 ^ k /\
  (2 * (n mod 2 ^ k) <> 2 ^ k ->
   (2 * r - 1) * 2 ^ k < 2 * n < (2 * r + 1) * 2 ^ k).
Proof.
  intros Hk. unfold Float64.round_half_even.
  assert (Hd : 0 < 2 ^ k) by (apply Z.pow_pos_nonneg; lia).
  generalize dependent (2 ^ k). intros d Hd.
  pose proof (Z.div_mod n d ltac:(lia)) as Hn.
  pose proof (Z.mod_pos_bound n d Hd) as Hr.
  generalize dependent (n / d). generalize dependent (n mod d).
  intros r Hr q Hn. cbv zeta.
  destruct (Z.compare_spec (2 * r) d) as [E | E | E];
    try destruct (Z.even q); split; try (intros; nia).
Qed.

Lemma round_half_even_unique (n k c : Z) :
  0 <= k ->
  (2 * c - 1) * 2 ^ k < 2 * n < (2 * c + 1) * 2 ^ k ->
  Float64.round_half_even n k = c.
Proof.
  intros Hk Hc.
  pose proof (round_half_even_bounds n k Hk) as [Hb _]. cbv zeta in Hb.
  assert (Hd : 0 < 2 ^ k) by (apply Z.pow_pos_nonneg; lia).
  generalize dependent (2 ^ k). intros d Hc Hb Hd.
  generalize dependent (Float64.round_half_even n k). intros r Hb.
  assert (c <= r) by nia. assert (r <= c) by nia. lia.
Qed.

(** A number [v = n1 / 2^k1] on the grid of [2^-j], [1 <= j], that is no
    further than half a step of the grid from [z = n / 2^k], and not half
    way between two integers, rounds to the integer that [z] rounds to. *)
Lemma round_half_even_near (n1 k1 n k R j : Z) :
  0 <= k1 -> 0 <= k -> 1 <= j ->
  n1 * 2 ^ j = R * 2 ^ k1 ->
  2 * Z.abs (R * 2 ^ k - n * 2 ^ j) <= 2 ^ k ->
  2 * (n1 mod 2 ^ k1) <> 2 ^ k1 ->
  Float64.round_half_even n1 k1 = Float64.round_half_even n k.
Proof.
  intros Hk1 Hk Hj Hv Hnear Htie. symmetry.
  apply round_half_even_unique; [assumption |].
  pose proof (round_half_even_bounds n1 k1 Hk1) as [_ Hb].
  cbv zeta in Hb. specialize (Hb Htie).
  generalize dependent (Float64.round_half_even n1 k1). intros c Hb.
  replace j with (Z.succ (j - 1)) in Hv, Hnear by lia.
  rewrite Z.pow_succ_r in Hv, Hnear by lia.
  assert (HJ : 0 < 2 ^ (j - 1)) by (apply Z.pow_pos_nonneg; lia).
  assert (HD1 : 0 < 2 ^ k1) by (apply Z.pow_pos_nonneg; lia).
  assert (HD : 0 < 2 ^ k) by (apply Z.pow_pos_nonneg; lia).
  generalize dependent (2 ^ (j - 1)). intros J Hv Hnear HJ.
  generalize dependent (2 ^ k1). intros D1 Htie Hv Hb HD1.
  generalize dependent (2 ^ k). intros D Hnear HD.
  assert (HR : (2 * c - 1) * J < R < (2 * c + 1) * J).
  { split.
    - apply (Z.mul_lt_mono_pos_r (2 * D1)); [lia |]. nia.
    - apply (Z.mul_lt_mono_pos_r (2 * D1)); [lia |]. nia. }
  assert (HR' : (2 * c - 1) * J + 1 <= R <= (2 * c + 1) * J - 1) by lia.
  split.
  - apply (Z.mul_lt_mono_pos_r (2 * J)); [lia |]. nia.
  - apply (Z.mul_lt_mono_pos_r (2 * J)); [lia |]. nia.
Qed.


Lemma iter_xO_spec (m d : positive) :
  Z.pos (Pos.iter xO m d) = Z.pos m * 2 ^ Z.pos d.
Proof.
  induction d as [| d IH] using Pos.peano_ind.
  - cbn [Pos.iter]. change (2 ^ 1) with 2. lia.
  - rewrite Pos.iter_succ, Pos2Z.inj_succ, Z.pow_succ_r by lia.
    change (Z.pos (Pos.iter xO m d)~0) with (2 * Z.pos (Pos.iter xO m d)).
    rewrite IH. ring.
Qed.

Lemma shl_align_spec (mx : positive) (ex ex' : Z) :
  snd (shl_align mx ex ex') = Z.min ex ex' /\
  Z.pos (fst (shl_align mx ex ex'))
  = Z.pos mx * 2 ^ (ex - Z.min ex ex').
Proof.
  unfold shl_align. destruct (ex' - ex) as [| d | d] eqn:E; cbn [fst snd].
  - replace (Z.min ex ex') with ex by lia. rewrite Z.sub_diag.
    split; [reflexivity | change (2 ^ 0) with 1; lia].
  - replace (Z.min ex ex') with ex by lia. rewrite Z.sub_diag.
    split; [reflexivity | change (2 ^ 0) with 1; lia].
  - replace (Z.min ex ex') with ex' by lia.
    split; [reflexivity |]. rewrite iter_xO_spec.
    replace (ex - ex') with (Z.pos d) by lia. reflexivity.
Qed.

(** The value of a finite float on a grid at least as fine as its own. *)
Lemma num_on_grid (s : bool) (m : positive) (e L : Z) :
  L <= e -> L <= 0 ->
  Float64.num (S754_finite s m e) * 2 ^ (- L)
  = cond_Zopp s (Z.pos m * 2 ^ (e - L))
    * 2 ^ Float64.scale (S754_finite s m e).
Proof.
  intros HL H0. cbn [Float64.num Float64.scale].
  destruct (0 <=? e) eqn:E.
  - apply Z.leb_le in E. change (2 ^ 0) with 1.
    replace (e - L) with (e + - L) by lia. rewrite Z.pow_add_r by lia.
    destruct s; cbn [cond_Zopp]; ring.
  - apply Z.leb_gt in E.
    replace (- L) with ((e - L) + - e) by lia. rewrite Z.pow_add_r by lia.
    destruct s; cbn [cond_Zopp]; ring.
Qed.


Lemma round_half_even_zero (k : Z) : 0 <= k -> Float64.round_half_even 0 k = 0.
Proof.
  intros Hk. apply round_half_even_unique; [assumption |].
  assert (0 < 2 ^ k) by (apply Z.pow_pos_nonneg; lia). lia.
Qed.

(** [binary_round] of a nonzero integer at a negative exponent: when the
    result is finite, below [2^52] and not half way between two integers,
    [round] takes it to the integer that it takes the exact value to. *)
Lemma binary_round_near (s : bool) (mp : positive) (ez n k : Z) :
  let f := binary_round Float64.prec Float64.emax s mp ez in
  ez < 0 -> 0 <= k ->
  n * 2 ^ (- ez) = cond_Zopp s (Z.pos mp) * 2 ^ k ->
  Float64.is_finite f = true -> below_2_52 f = true -> is_tie f = false ->
  Float64.to_nearest_Z f = Float64.round_half_even n k.
Proof.
  intros f Hez Hk Hn Hfin Hsmall Htie. unfold Float64.to_nearest_Z.
  unfold is_tie in Htie. apply Z.eqb_neq in Htie.
  unfold below_2_52 in Hsmall. apply Z.ltb_lt in Hsmall.
  unfold f, binary_round in *. clear f.
  pose proof (shl_align_spec mp ez
                (fexp64 (Z.pos (digits2_pos mp) + ez))) as [He1 Hmz].
  destruct (shl_align mp ez (fexp64 (Z.pos (digits2_pos mp) + ez)))
    as [mz e1]. cbn [fst snd] in He1, Hmz.
  set (a := Z.min ez (fexp64 (Z.pos (digits2_pos mp) + ez))) in *.
  assert (Ha : e1 <= ez) by lia.
  destruct (binary_round_aux_spec s mz e1) as (R & HR0 & HR & Hmag & Hf).
  set (g := Z.max e1 (fexp64 (Z.pos (digits2_pos mz) + e1))) in *.
  assert (Hge : e1 <= g) by (unfold g; lia).
  destruct (binary_round_aux Float64.prec Float64.emax s (Z.pos mz) e1
              loc_Exact) as [s' | s' | | s' m' e'] eqn:Ef;
    try discriminate Hfin; try contradiction.
  - (* the result is a zero *)
    destruct Hf as [_ ->].
    assert (Hg : g <= -1) by lia.
    apply (round_half_even_near _ _ _ _ 0 (- g)); try lia; try assumption.
    + cbn [Float64.num Float64.scale]. lia.
    + assert (Hd : 0 < 2 ^ (g - e1)) by (apply Z.pow_pos_nonneg; lia).
      assert (Hj : 0 < 2 ^ (- g)) by (apply Z.pow_pos_nonneg; lia).
      assert (HK : 0 < 2 ^ k) by (apply Z.pow_pos_nonneg; lia).
      assert (Hpw : 2 ^ (g - e1) * 2 ^ (- g) = 2 ^ (ez - e1) * 2 ^ (- ez)).
      { rewrite <- !Z.pow_add_r by lia. f_equal. lia. }
      rewrite <- He1 in Hmz.
      generalize dependent (2 ^ (g - e1)). intros Pd; intros.
      generalize dependent (2 ^ (- g)). intros Pj; intros.
      generalize dependent (2 ^ k). intros PK; intros.
      generalize dependent (2 ^ (ez - e1)). intros Pa; intros.
      generalize dependent (2 ^ (- ez)). intros Pz; intros.
      assert (Hkey : n * Pj * Pd = cond_Zopp s (Z.pos mz) * PK).
      { transitivity (n * Pz * Pa).
        - transitivity (n * (Pd * Pj)); [ring | rewrite Hpw; ring].
        - rewrite Hn, Hmz. destruct s; cbn [cond_Zopp]; ring. }
      assert (Hx : - PK <= 2 * (0 * PK - n * Pj) <= PK).
      { destruct s; cbn [cond_Zopp] in *; split;
          apply (Z.mul_le_mono_pos_r _ _ Pd); try lia; nia. }
      lia.
  - (* the result is finite *)
    destruct Hf as (-> & Hge' & HmR).
    assert (Hg : g <= -1).
    { destruct Hmag as [Hmag | [Hmag | Hmag]]; try lia.
      destruct (Z_le_gt_dec g (-1)) as [Hle | Hgt]; [exact Hle | exfalso].
      cbn [Float64.num Float64.scale] in Hsmall.
      assert (E0 : (0 <=? e') = true) by (apply Z.leb_le; lia).
      rewrite E0 in Hsmall. rewrite Z.add_0_r in Hsmall.
      replace e' with ((e' - g) + g) in Hsmall by lia.
      rewrite Z.pow_add_r in Hsmall by lia.
      assert (Hpg : 0 < 2 ^ g) by (apply Z.pow_pos_nonneg; lia).
      assert (Habs : Z.abs (cond_Zopp s (Z.pos m' * (2 ^ (e' - g) * 2 ^ g)))
                     = R * 2 ^ g).
      { rewrite <- HmR. destruct s; cbn [cond_Zopp]; lia. }
      rewrite Habs in Hsmall. nia. }
    apply (round_half_even_near _ _ _ _ (cond_Zopp s R) (- g));
      try lia; try assumption.
    + apply scale_nonneg.
    + rewrite num_on_grid by lia. rewrite HmR. reflexivity.
    + assert (Hd : 0 < 2 ^ (g - e1)) by (apply Z.pow_pos_nonneg; lia).
      assert (Hj : 0 < 2 ^ (- g)) by (apply Z.pow_pos_nonneg; lia).
      assert (HK : 0 < 2 ^ k) by (apply Z.pow_pos_nonneg; lia).
      assert (Hpw : 2 ^ (g - e1) * 2 ^ (- g) = 2 ^ (ez - e1) * 2 ^ (- ez)).
      { rewrite <- !Z.pow_add_r by lia. f_equal. lia. }
      rewrite <- He1 in Hmz.
      clear Hsmall Htie HmR Hmag.
      generalize dependent (2 ^ (g - e1)). intros Pd; intros.
      generalize dependent (2 ^ (- g)). intros Pj; intros.
      generalize dependent (2 ^ k). intros PK; intros.
      generalize dependent (2 ^ (ez - e1)). intros Pa; intros.
      generalize dependent (2 ^ (- ez)). intros Pz; intros.
      assert (Hkey : n * Pj * Pd = cond_Zopp s (Z.pos mz) * PK).
      { transitivity (n * Pz * Pa).
        - transitivity (n * (Pd * Pj)); [ring | rewrite Hpw; ring].
        - rewrite Hn, Hmz. destruct s; cbn [cond_Zopp]; ring. }
      assert (Hx : - PK <= 2 * (cond_Zopp s R * PK - n * Pj) <= PK).
      { destruct s; cbn [cond_Zopp] in *; split;
          apply (Z.mul_le_mono_pos_r _ _ Pd); try lia; nia. }
      lia.
Qed.

(** ** Negation and addition of binary64 numbers *)

Lemma binary_round_aux_opp (s : bool) (m e : Z) (l : location) :
  binary_round_aux Float64.prec Float64.emax (negb s) m e l
  = SFopp (binary_round_aux Float64.prec Float64.emax s m e l).
Proof.
  unfold binary_round_aux.
  destruct (shr_fexp Float64.prec Float64.emax m e l) as [mrs e'].
  destruct (shr_fexp Float64.prec Float64.emax
              (round_nearest_even (shr_m mrs) (loc_of_shr_record mrs))
              e' loc_Exact) as [mrs' e''].
  destruct (shr_m mrs') as [| q | q]; try reflexivity.
  destruct (e'' <=? Float64.emax - Float64.prec); reflexivity.
Qed.

Lemma mul_opp_l (x y : spec_float) :
  Float64.mul (Float64.opp x) y = Float64.opp (Float64.mul x y).
Proof.
  unfold Float64.mul, Float64.opp.
  destruct x as [sx | sx | | sx mx ex], y as [sy | sy | | sy my ey];
    cbn [SFmul SFopp]; try reflexivity;
    try (rewrite negb_xorb_l; reflexivity).
  rewrite <- negb_xorb_l. apply binary_round_aux_opp.
Qed.

Lemma py_neg_involutive (a : Number) : py_neg (py_neg a) = a.
Proof.
  destruct a as [n | f]; cbn [py_neg].
  - rewrite Z.opp_involutive. reflexivity.
  - destruct f; cbn [Float64.opp SFopp]; rewrite ?negb_involutive;
      reflexivity.
Qed.

Lemma add_near (su sh : bool) (mu mh : positive) (eu eh : Z) :
  let u := S754_finite su mu eu in
  let h := S754_finite sh mh eh in
  let f := Float64.add u h in
  eh < 0 ->
  Float64.is_finite f = true -> below_2_52 f = true -> is_tie f = false ->
  Float64.to_nearest_Z f
  = Float64.round_half_even
      (Float64.num u * 2 ^ Float64.scale h + Float64.num h * 2 ^ Float64.scale u)
      (Float64.scale u + Float64.scale h).
Proof.
  intros u h f Heh. unfold f, Float64.add, u, h. cbn [SFadd]. cbv zeta.
  fold u. fold h.
  set (ez := Z.min eu eh).
  pose proof (shl_align_spec mu eu ez) as [_ Hmu].
  pose proof (shl_align_spec mh eh ez) as [_ Hmh].
  replace (Z.min eu ez) with ez in Hmu by lia.
  replace (Z.min eh ez) with ez in Hmh by lia.
  rewrite Hmu, Hmh.
  pose proof (scale_nonneg u) as Hsu. pose proof (scale_nonneg h) as Hsh.
  set (N := Float64.num u * 2 ^ Float64.scale h
            + Float64.num h * 2 ^ Float64.scale u).
  assert (HN : N * 2 ^ (- ez)
               = (cond_Zopp su (Z.pos mu * 2 ^ (eu - ez))
                  + cond_Zopp sh (Z.pos mh * 2 ^ (eh - ez)))
                 * 2 ^ (Float64.scale u + Float64.scale h)).
  { unfold N. rewrite Z.pow_add_r by assumption.
    pose proof (num_on_grid su mu eu ez ltac:(lia) ltac:(lia)) as Hu.
    pose proof (num_on_grid sh mh eh ez ltac:(lia) ltac:(lia)) as Hh.
    fold u in Hu. fold h in Hh.
    rewrite Z.mul_add_distr_r.
    replace (Float64.num u * 2 ^ Float64.scale h * 2 ^ (- ez))
      with (Float64.num u * 2 ^ (- ez) * 2 ^ Float64.scale h) by ring.
    replace (Float64.num h * 2 ^ Float64.scale u * 2 ^ (- ez))
      with (Float64.num h * 2 ^ (- ez) * 2 ^ Float64.scale u) by ring.
    rewrite Hu, Hh. ring. }
  destruct (cond_Zopp su (Z.pos mu * 2 ^ (eu - ez))
            + cond_Zopp sh (Z.pos mh * 2 ^ (eh - ez))) as [| mp | mp];
    cbn [binary_normalize]; intros Hfin Hsmall Htie.
  - assert (HN0 : N = 0).
    { assert (0 < 2 ^ (- ez)) by (apply Z.pow_pos_nonneg; lia). nia. }
    rewrite HN0, round_half_even_zero by lia. reflexivity.
  - apply binary_round_near; try assumption; lia.
  - apply binary_round_near; try assumption; lia.
Qed.

Lemma num_opp (f : spec_float) :
  Float64.num (Float64.opp f) = - Float64.num f /\
  Float64.scale (Float64.opp f) = Float64.scale f.
Proof.
  destruct f as [s | s | | s m e]; cbn; try (split; reflexivity).
  destruct s; cbn; split; try reflexivity; lia.
Qed.

Lemma of_Z_opp (k : Z) :
  k <> 0 -> Float64.of_Z (- k) = Float64.opp (Float64.of_Z k).
Proof.
  intros Hk. unfold Float64.of_Z, Float64.opp.
  destruct k as [| p | p]; [contradiction | |];
    cbn [Z.opp binary_normalize]; unfold binary_round;
    destruct (shl_align p 0
                (fexp Float64.prec Float64.emax (Z.pos (digits2_pos p) + 0)))
      as [mz ez].
  - apply (binary_round_aux_opp false).
  - rewrite (binary_round_aux_opp false). 
    destruct (binary_round_aux Float64.prec Float64.emax false (Z.pos mz) ez
                loc_Exact); cbn [SFopp]; rewrite ?negb_involutive;
      reflexivity.
Qed.

(** The float that scaling the negated coordinate gives is the negation,
    in value, of the float that scaling the coordinate gives. *)
Lemma scaled_neg_value (y s p1 p2 : Number) (u1 u2 : spec_float) :
  py_mul (py_neg y) s = Ok p1 -> py_mul y s = Ok p2 ->
  to_float p1 = Ok u1 -> to_float p2 = Ok u2 ->
  Float64.num u1 = - Float64.num u2 /\
  Float64.scale u1 = Float64.scale u2 /\
  Float64.is_finite u1 = Float64.is_finite u2.
Proof.
  assert (Hopp : forall a b, a = Float64.opp b ->
            Float64.num a = - Float64.num b /\
            Float64.scale a = Float64.scale b /\
            Float64.is_finite a = Float64.is_finite b).
  { intros a b ->. destruct (num_opp b) as [H1 H2].
    repeat split; try assumption. destruct b; reflexivity. }
  assert (Hint : forall k a b,
            to_float (PInt (- k)) = Ok a -> to_float (PInt k) = Ok b ->
            a = Float64.opp b \/ (k = 0 /\ a = b)).
  { intros k a b Ha Hb. cbn [to_float] in Ha, Hb.
    destruct (Z.eq_dec k 0) as [-> | Hk].
    - right. split; [reflexivity |]. change (- 0) with 0 in Ha. congruence.
    - left. rewrite (of_Z_opp k Hk) in Ha.
      destruct (Float64.is_finite (Float64.of_Z k)) eqn:E1; [| discriminate].
      injection Hb as <-.
      destruct (Float64.is_finite (Float64.opp (Float64.of_Z k)));
        [| discriminate].
      injection Ha as <-. reflexivity. }
  destruct y as [a | a], s as [b | b]; cbn [py_neg py_mul]; intros H1 H2 H3 H4.
  - injection H1 as <-. injection H2 as <-.
    replace (- a * b) with (- (a * b)) in H3 by ring.
    destruct (Hint _ _ _ H3 H4) as [E | [E0 E]].
    + apply Hopp. exact E.
    + subst u1. cbn [to_float] in H4. rewrite E0 in H4.
      vm_compute in H4. injection H4 as <-. repeat split; reflexivity.
  - destruct (to_float (PInt (- a))) as [fa1 |] eqn:Ea1; [| discriminate].
    destruct (to_float (PInt a)) as [fa2 |] eqn:Ea2; [| discriminate].
    cbn [rbind to_float] in H1, H2.
    injection H1 as <-. injection H2 as <-.
    cbn [to_float] in H3, H4. injection H3 as <-. injection H4 as <-.
    destruct (Hint _ _ _ Ea1 Ea2) as [E | [E0 E]].
    + apply Hopp. rewrite E. apply mul_opp_l.
    + subst fa1. cbn [to_float] in Ea2. rewrite E0 in Ea2.
      vm_compute in Ea2. injection Ea2 as <-.
      destruct b; cbn; repeat split; reflexivity.
  - remember (to_float (PInt b)) as tb eqn:Etb.
    cbn [to_float rbind] in H1, H2.
    destruct tb as [fb |]; [| discriminate].
    cbn [rbind] in H1, H2. injection H1 as <-. injection H2 as <-.
    cbn [to_float] in H3, H4. injection H3 as <-. injection H4 as <-.
    apply Hopp. apply mul_opp_l.
  - cbn [to_float rbind] in H1, H2.
    injection H1 as <-. injection H2 as <-.
    cbn [to_float] in H3, H4. injection H3 as <-. injection H4 as <-.
    apply Hopp. apply mul_opp_l.
Qed.

(** [p + h] for a finite float [h] of negative exponent. *)
Lemma py_add_near (p : Number) (sh : bool) (mh : positive) (eh : Z)
    (q : spec_float) :
  let h := S754_finite sh mh eh in
  py_add p (PFloat h) = Ok (PFloat q) -> eh < 0 ->
  Float64.is_finite q = true -> below_2_52 q = true -> is_tie q = false ->
  exists u,
    to_float p = Ok u /\
    Float64.to_nearest_Z q
    = Float64.round_half_even
        (Float64.num u * 2 ^ Float64.scale h
         + Float64.num h * 2 ^ Float64.scale u)
        (Float64.scale u + Float64.scale h).
Proof.
  intros h Hq Heh Hfin Hsmall Htie.
  assert (E : py_add p (PFloat h)
              = (x <- to_float p ;; Ok (PFloat (Float64.add x h)))%result)
    by (destruct p; reflexivity).
  rewrite E in Hq. clear E.
  destruct (to_float p) as [u |]; [| discriminate].
  cbn [rbind] in Hq. injection Hq as <-.
  exists u. split; [reflexivity |].
  destruct u as [s | s | | s m e].
  - change (Float64.add (S754_zero s) h) with h.
    unfold Float64.to_nearest_Z.
    change (Float64.num (S754_zero s)) with 0.
    change (Float64.scale (S754_zero s)) with 0.
    rewrite Z.mul_0_l, !Z.add_0_l, Z.pow_0_r, Z.mul_1_r. reflexivity.
  - discriminate Hfin.
  - discriminate Hfin.
  - apply add_near; assumption.
Qed.

Lemma py_round_finite (q : spec_float) (n : Z) :
  py_round (PFloat q) = Ok n -> Float64.is_finite q = true.
Proof. destruct q; cbn; intros H; try discriminate; reflexivity. Qed.

(** ** Coordinate transform *)

Section Transform.
Context {Snapshot : Type}.
Implicit Types self : Renderer Snapshot.

Lemma get_scaled_inv self x y flip px py :
  get_scaled self (x, y) flip = Ok (px, py) ->
  scaled_axis self x = Ok px /\
  scaled_axis self (if flip then py_neg y else y) = Ok py.
Proof.
  unfold get_scaled.
  destruct (scaled_axis self x) as [a |]; simpl; [| discriminate].
  destruct (scaled_axis self (if flip then py_neg y else y)) as [b |];
    simpl; [| discriminate].
  intros H; injection H as <- <-. split; reflexivity.
Qed.

Lemma scaled_axis_inv self w q n :
  unrounded_axis self w = Ok (PFloat q) -> scaled_axis self w = Ok n ->
  n = Float64.to_nearest_Z q.
Proof.
  unfold scaled_axis. intros ->. simpl. apply py_round_float.
Qed.

Lemma zero_times_finite (z : Number) (f : spec_float) :
  is_zero z = true -> Float64.is_finite f = true ->
  exists b, py_mul z (PFloat f) = Ok (PFloat (S754_zero b)).
Proof.
  intros Hz Hf.
  destruct z as [[| p | p] | [b | b | | b m e]]; try discriminate;
    destruct f as [c | c | | c m' e']; try discriminate;
    simpl; eexists; reflexivity.
Qed.

(** C5, as the code has it: [get_scaled] is the transform of the
    specification, each axis [round(world * scale + minimap_size / 2)]
    with y negated first when [flip_y] is set; and for every finite
    scale, under the 760 invariant, the origin maps to (380, 380). *)
Theorem get_scaled_formula_and_origin :
  (forall self scale size,
      as_number (scaling self) = Ok scale ->
      as_number (minimap_size self) = Ok size ->
      forall xy flip_y,
        get_scaled self xy flip_y = spec_to_pixels scale size xy flip_y) /\
  (forall self f,
      scaling self = JFloat f -> Float64.is_finite f = true ->
      minimap_size self = JInt 760 ->
      forall zx zy, is_zero zx = true -> is_zero zy = true ->
        get_scaled self (zx, zy) true = Ok (380, 380)).
Proof.
  split.
  - intros self scale size Hs Hn [x y] flip.
    unfold get_scaled, spec_to_pixels, scaled_axis, unrounded_axis, spec_pixel.
    rewrite Hs, Hn. simpl.
    destruct (py_mul x scale) as [p |]; simpl; [| reflexivity].
    destruct (py_truediv size (PInt 2)) as [h |]; simpl.
    + destruct (py_add p h) as [q |]; simpl; [| reflexivity].
      destruct (py_round q) as [a |]; simpl; [| reflexivity].
      destruct (py_mul (if flip then py_neg y else y) scale); reflexivity.
    + destruct (py_mul (if flip then py_neg y else y) scale); reflexivity.
  - intros self f Hs Hf Hn zx zy Hx Hy.
    assert (Hy' : is_zero (py_neg zy) = true).
    { destruct zy as [[| p | p] | [b | b | | b m e]]; try discriminate;
        reflexivity. }
    destruct (zero_times_finite zx f Hx Hf) as [bx Ex].
    destruct (zero_times_finite (py_neg zy) f Hy' Hf) as [by_ Ey].
    unfold get_scaled, scaled_axis, unrounded_axis.
    rewrite Hs, Hn. simpl as_number. cbv beta iota delta [rbind].
    rewrite Ex, Ey.
    destruct bx, by_; vm_compute; reflexivity.
Qed.

Lemma scaled_axis_finite self w q n :
  unrounded_axis self w = Ok (PFloat q) -> scaled_axis self w = Ok n ->
  Float64.is_finite q = true.
Proof.
  unfold scaled_axis. intros ->. cbn [rbind]. apply py_round_finite.
Qed.

(** C6, as the code has it: the x components of
    [get_scaled((x, y))] and [get_scaled((x, -y))] are equal, and the two
    y components add up to [minimap_size] whenever the two values handed
    to [round] add up to it exactly, or, under the 760 invariant, are both
    below [2^52] in magnitude and neither lies half way between two
    integers. *)
Theorem mirror_unless_inexact_tie self n x y px py px' py' :
  minimap_size self = JInt n -> Z.even n = true ->
  get_scaled self (x, y) true = Ok (px, py) ->
  get_scaled self (x, py_neg y) true = Ok (px', py') ->
  px = px' /\
  (forall q q',
      unrounded_axis self (py_neg y) = Ok (PFloat q) ->
      unrounded_axis self (py_neg (py_neg y)) = Ok (PFloat q') ->
      Float64.sum_is q q' n \/
      (n = 760 /\
       below_2_52 q = true /\ below_2_52 q' = true /\
       is_tie q = false /\ is_tie q' = false) ->
      py + py' = n).
Proof.
  intros Hn Heven H1 H2.
  apply get_scaled_inv in H1. destruct H1 as [Hx Hy].
  apply get_scaled_inv in H2. destruct H2 as [Hx' Hy'].
  split.
  - rewrite Hx in Hx'. injection Hx' as ->. reflexivity.
  - intros q q' Hq Hq' [Hsum | (-> & Hs & Hs' & Ht & Ht')].
    + rewrite (scaled_axis_inv _ _ _ _ Hq Hy).
      rewrite (scaled_axis_inv _ _ _ _ Hq' Hy').
      unfold Float64.to_nearest_Z.
      apply round_half_even_mirror;
        [apply scale_nonneg | apply scale_nonneg | assumption |].
      exact Hsum.
    + pose proof (scaled_axis_finite _ _ _ _ Hq Hy) as Hf.
      pose proof (scaled_axis_finite _ _ _ _ Hq' Hy') as Hf'.
      rewrite (scaled_axis_inv _ _ _ _ Hq Hy).
      rewrite (scaled_axis_inv _ _ _ _ Hq' Hy').
      clear Hx Hx' Hy Hy'.
      unfold unrounded_axis in Hq, Hq'. rewrite Hn in Hq, Hq'.
      rewrite py_neg_involutive in Hq'.
      destruct (as_number (scaling self)) as [s |]; [| discriminate].
      cbn [rbind as_number] in Hq, Hq'.
      destruct (py_mul (py_neg y) s) as [p1 |] eqn:E1; [| discriminate].
      destruct (py_mul y s) as [p2 |] eqn:E2; [| discriminate].
      cbn [rbind] in Hq, Hq'.
      change (py_truediv (PInt 760) (PInt 2))
        with (@Ok Number (PFloat (S754_finite false 6685030696878080 (-44))))
        in Hq, Hq'.
      cbn [rbind] in Hq, Hq'.
      destruct (py_add_near _ _ _ _ _ Hq ltac:(lia) Hf Hs Ht)
        as (u1 & Hu1 & ->).
      destruct (py_add_near _ _ _ _ _ Hq' ltac:(lia) Hf' Hs' Ht')
        as (u2 & Hu2 & ->).
      destruct (scaled_neg_value _ _ _ _ _ _ E1 E2 Hu1 Hu2)
        as (Hnum & Hsc & _).
      rewrite Hsc, Hnum.
      pose proof (scale_nonneg u2) as Hk.
      apply round_half_even_mirror_same; [| reflexivity |].
      * cbn [Float64.scale]. change (0 <=? -44) with false. cbv iota. lia.
      * cbn [Float64.scale Float64.num cond_Zopp].
        change (0 <=? -44) with false. cbv iota.
        rewrite (Z.pow_add_r 2 (Float64.scale u2) (- -44)) by lia.
        change (2 ^ (- -44)) with 17592186044416.
        change (Z.pos 6685030696878080) with (380 * 17592186044416).
        generalize dependent (2 ^ Float64.scale u2). intros. ring.
Qed.
End Transform.

(** At the scale 0.2347 the origin maps to (380, 380), for int and float
    zeros alike. *)
Lemma get_scaled_formula_and_origin_witness :
  get_scaled (Example.session Example.f0_2347)
             (PInt 0, PFloat (S754_zero true)) true = Ok (380, 380).
Proof.
  apply (proj2 (@get_scaled_formula_and_origin unit)
               (Example.session Example.f0_2347) Example.f0_2347);
    reflexivity.
Defined.

(** A scale that the manifest check lets through and for which the
    origin has no pixel: the default manifest gives [1e999], which decodes
    to the float infinity; [0 * inf] is NaN and [round] raises. *)
Lemma origin_fails_for_infinite_scale :
  let run := _load_map_manifest Example.site_infinite
               (Example.initial
                  (Example.replay "0_11_6" "spaces/01_solomon_islands" [])) in
  snd run = Ok "renderer.resources.spaces.spaces/01_solomon_islands" /\
  scaling (self (fst run)) = JFloat (S754_infinity false) /\
  minimap_size (self (fst run)) = JInt 760 /\
  get_scaled (self (fst run)) (PInt 0, PInt 0) true = Raise ValueError /\
  get_scaled (self (fst run)) (PInt 0, PInt 0) true <> Ok (380, 380).
Proof.
  vm_compute. repeat split; discriminate.
Qed.

(** With y = 530 at the scale 0.2347 the two sums, 255.609 and 504.391,
    are rounded on different grids and do not add up to 760 exactly;
    neither lies half way between two integers, and the y components are
    mirror images. *)
Lemma mirror_unless_inexact_tie_witness :
  let self := Example.session Example.f0_2347 in
  let q := S754_finite false 8993442165254259 (-45) in
  let q' := S754_finite false 8873340311129030 (-44) in
  get_scaled self (PInt 0, PInt 530) true = Ok (380, 256) /\
  get_scaled self (PInt 0, py_neg (PInt 530)) true = Ok (380, 504) /\
  unrounded_axis self (py_neg (PInt 530)) = Ok (PFloat q) /\
  unrounded_axis self (py_neg (py_neg (PInt 530))) = Ok (PFloat q') /\
  ~ Float64.sum_is q q' 760 /\
  380 = 380 /\ 256 + 504 = 760.
Proof.
  intros self q q'.
  assert (H1 : get_scaled self (PInt 0, PInt 530) true = Ok (380, 256))
    by (vm_compute; reflexivity).
  assert (H2 : get_scaled self (PInt 0, py_neg (PInt 530)) true
               = Ok (380, 504)) by (vm_compute; reflexivity).
  assert (Hq : unrounded_axis self (py_neg (PInt 530)) = Ok (PFloat q))
    by (vm_compute; reflexivity).
  assert (Hq' : unrounded_axis self (py_neg (py_neg (PInt 530)))
                = Ok (PFloat q')) by (vm_compute; reflexivity).
  assert (Hs : ~ Float64.sum_is q q' 760) by (vm_compute; discriminate).
  destruct (mirror_unless_inexact_tie self 760 (PInt 0) (PInt 530)
              380 256 380 504 eq_refl eq_refl H1 H2) as [Hx Hy].
  exact (conj H1 (conj H2 (conj Hq (conj Hq' (conj Hs
           (conj Hx (Hy q q' Hq Hq'
                       (or_intror
                          (conj eq_refl
                             (conj eq_refl
                                (conj eq_refl
                                   (conj eq_refl eq_refl)))))))))))).
Defined.

(** At the scale 1.0 and y = 130.5 + 2^-45 the sum 380 + y is rounded to
    510.5, which [round] takes to 510, while 380 - y is exact and rounds
    to 249: the y components add up to 759. *)
Lemma mirror_fails_on_inexact_sum :
  get_scaled (Example.session Example.f1) (PInt 0, PFloat Example.f130_5) true
    = Ok (380, 249) /\
  get_scaled (Example.session Example.f1)
             (PInt 0, py_neg (PFloat Example.f130_5)) true = Ok (380, 510) /\
  249 + 510 <> 760.
Proof.
  vm_compute. repeat split; discriminate.
Qed.

(** There the value handed to [round] for the mirrored point is 510.5,
    half way between two integers, and it is not the exact sum. *)
Lemma inexact_sum_lands_on_a_tie :
  exists q q',
    unrounded_axis (Example.session Example.f1) (py_neg (PFloat Example.f130_5))
      = Ok (PFloat q) /\
    unrounded_axis (Example.session Example.f1)
                   (py_neg (py_neg (PFloat Example.f130_5))) = Ok (PFloat q') /\
    is_tie q' = true /\ ~ Float64.sum_is q q' 760.
Proof.
  eexists. eexists. split; [vm_compute; reflexivity |].
  split; [vm_compute; reflexivity |].
  split; [vm_compute; reflexivity | vm_compute; discriminate].
Qed.

(** ** Manifest resolution *)

Section Manifest.
Context {Snapshot Store : Type}.
Variable site : Site.
Implicit Types w : World Snapshot Store.

Lemma read_manifest_spec package key w :
  read_manifest site package key w =
  ({| self := match read_entry site package key with
              | Ok (a, b, c) => set_manifest a b c (self w)
              | Raise _ => self w
              end;
      store := store w;
      log := log w ++ [(COpenText package "manifest.json",
                        outcome_of (open_text site package "manifest.json"))] |},
   match read_entry site package key with
   | Ok _ => Ok tt
   | Raise e => Raise e
   end).
Proof.
  unfold read_manifest, read_entry, unpack_manifest, bind, call_site, lift,
    update_self, record.
  destruct (open_text site package "manifest.json") as [d | e]; simpl;
    [| reflexivity].
  destruct (json_load d) as [doc | e]; simpl; [| reflexivity].
  destruct (subscript doc key) as [m | e]; simpl; [| reflexivity].
  destruct (unpack3 m) as [[[a b] c] | e]; simpl; reflexivity.
Qed.

Lemma check_manifest_spec w :
  check_manifest w =
  (w, if valid_entry (minimap_size (self w), space_size (self w),
                      scaling (self w))
      then Ok tt else Raise AssertionError).
Proof.
  unfold check_manifest, valid_entry, bind, get_self, assert, ret, raise.
  destruct (isinstance_int (minimap_size (self w))); simpl; [| reflexivity].
  destruct (isinstance_int (space_size (self w))); simpl; [| reflexivity].
  destruct (isinstance_float (scaling (self w))); simpl; [| reflexivity].
  destruct (int_in_range 0 1600 (space_size (self w))); simpl; [| reflexivity].
  destruct (int_equals 760 (minimap_size (self w))); reflexivity.
Qed.

Lemma load_map_manifest_cases w w' r :
  res (self w) = PACKAGE ++ ".resources" ->
  _load_map_manifest site w = (w', r) ->
  let version := game_version (replay_data (self w)) in
  let key := game_map (replay_data (self w)) in
  let versioned := versioned_spaces version in
  exists l,
    log w' = (log w ++ l)%list /\
    store w' = store w /\
    match read_entry site versioned key with
    | Ok (a, b, c) =>
        opened l = [(versioned, "manifest.json")] /\
        self w' = set_manifest a b c (self w) /\
        r = if valid_entry (a, b, c) then Ok (versioned ++ "." ++ key)
            else Raise (MapManifestLoadError AssertionError)
    | Raise e =>
        if missing_manifest e then
          opened l = [(versioned, "manifest.json");
                      (default_spaces, "manifest.json")] /\
          match read_entry site default_spaces key with
          | Ok (a, b, c) =>
              self w' = set_manifest a b c (self w) /\
              r = if valid_entry (a, b, c)
                  then Ok (default_spaces ++ "." ++ key)
                  else Raise (MapManifestLoadError AssertionError)
          | Raise e' =>
              self w' = self w /\ r = Raise (MapManifestLoadError e')
          end
        else
          opened l = [(versioned, "manifest.json")] /\
          self w' = self w /\ r = Raise (MapManifestLoadError e)
    end.
Proof.
  intros Hres Hrun version key versioned.
  unfold _load_map_manifest in Hrun.
  unfold try_except, bind, get_self in Hrun.
  fold version key in Hrun. rewrite Hres in Hrun.
  change (PACKAGE ++ ".versions." ++ version ++ ".resources.spaces")
    with versioned in Hrun.
  change ((PACKAGE ++ ".resources") ++ ".spaces") with default_spaces in Hrun.
  change ((PACKAGE ++ ".resources") ++ ".spaces." ++ key)
    with (default_spaces ++ "." ++ key) in Hrun.
  rewrite read_manifest_spec in Hrun.
  destruct (read_entry site versioned key) as [[[a b] c] | e].
  - unfold info, call_site, ret, record in Hrun.
    cbv beta iota in Hrun. rewrite check_manifest_spec in Hrun.
    cbn [self store log minimap_size space_size scaling set_manifest] in Hrun.
    eexists.
    destruct (valid_entry (a, b, c)); injection Hrun as <- <-;
      cbn [self store log]; rewrite <- app_assoc; repeat split.
  - destruct (missing_manifest e).
    + rewrite read_manifest_spec in Hrun.
      cbn [self store log] in Hrun.
      destruct (read_entry site default_spaces key) as [[[a b] c] | e'].
      * unfold info, call_site, ret, record in Hrun.
        cbv beta iota in Hrun. rewrite check_manifest_spec in Hrun.
        cbn [self store log minimap_size space_size scaling set_manifest]
          in Hrun.
        eexists.
        destruct (valid_entry (a, b, c)); injection Hrun as <- <-;
          cbn [self store log]; repeat rewrite <- app_assoc; repeat split.
      * injection Hrun as <- <-. eexists. cbn [self store log].
        repeat rewrite <- app_assoc; repeat split.
    + injection Hrun as <- <-. eexists. cbn [self store log]. repeat split.
Qed.

(** What reading a manifest can raise. *)
Lemma read_entry_raises package key e :
  read_entry site package key = Raise e ->
  (e = ModuleNotFoundError /\ assoc package (resources site) = None) \/
  e = FileNotFoundError \/ e = KeyError \/
  e = JSONDecodeError \/ e = TypeError \/ e = ValueError.
Proof.
  unfold read_entry, open_text.
  destruct (assoc package (resources site)) as [files |]; simpl.
  2: { intros H; injection H as <-. left. split; reflexivity. }
  destruct (assoc "manifest.json" files) as [d |]; simpl.
  2: { intros H; injection H as <-. right; left; reflexivity. }
  destruct d as [| v]; simpl.
  { intros H; injection H as <-. do 3 right; left; reflexivity. }
  destruct v; simpl; try (intros H; injection H as <-; tauto).
  destruct (assoc key d) as [m |]; simpl.
  2: { intros H; injection H as <-. tauto. }
  unfold unpack3.
  destruct (iterate m) as [items | e0] eqn:Ei; simpl.
  - destruct items as [| a [| b [| c [| x items]]]]; intros H;
      try discriminate; injection H as <-; tauto.
  - destruct m; simpl in Ei; try discriminate; injection Ei as <-;
      intros H; injection H as <-; tauto.
Qed.

Lemma valid_entry_fields a b c :
  valid_entry (a, b, c) = true ->
  a = JInt 760 /\ (exists f, c = JFloat f) /\
  (b = JBool true \/ exists n, b = JInt n /\ 0 < n <= 1600).
Proof.
  unfold valid_entry. rewrite !andb_true_iff.
  intros [[[[Ha Hb] Hc] Hr] He].
  split; [| split].
  - destruct a; try discriminate.
    + destruct b0; discriminate.
    + unfold int_equals, as_number in He. apply Z.eqb_eq in He.
      subst. reflexivity.
  - destruct c; try discriminate. eexists; reflexivity.
  - destruct b; try discriminate.
    + destruct b; [left; reflexivity | discriminate].
    + right. exists n. split; [reflexivity |].
      unfold int_in_range, as_number in Hr.
      apply andb_true_iff in Hr. destruct Hr as [H1 H2].
      apply Z.ltb_lt in H1. apply Z.leb_le in H2. lia.
Qed.

Lemma versioned_is_not_default version :
  versioned_spaces version <> default_spaces.
Proof. unfold versioned_spaces, default_spaces. simpl. discriminate. Qed.

(** X15: the default manifest is consulted exactly when reading the
    version's manifest raises [FileNotFoundError] or [KeyError]. *)
Lemma fallback_exactly_on_missing w w' r :
  res (self w) = PACKAGE ++ ".resources" ->
  _load_map_manifest site w = (w', r) ->
  exists l,
    log w' = (log w ++ l)%list /\
    (In (default_spaces, "manifest.json") (opened l) <->
     read_entry site (versioned_spaces (game_version (replay_data (self w))))
                (game_map (replay_data (self w))) = Raise FileNotFoundError \/
     read_entry site (versioned_spaces (game_version (replay_data (self w))))
                (game_map (replay_data (self w))) = Raise KeyError).
Proof.
  intros Hres Hrun.
  destruct (load_map_manifest_cases w w' r Hres Hrun) as (l & Hl & _ & H).
  exists l. split; [assumption |].
  pose proof (versioned_is_not_default
                (game_version (replay_data (self w)))) as Hne.
  destruct (read_entry site _ _) as [[[a b] c] | e].
  - destruct H as (Ho & _). rewrite Ho. split.
    + intros [E | []]. exact (False_ind _ (Hne (f_equal fst E))).
    + intros [E | E]; discriminate.
  - destruct (missing_manifest e) eqn:Em.
    + destruct H as (Ho & _). rewrite Ho. split.
      * intros _. destruct e; try discriminate; [left | right]; reflexivity.
      * intros _. right. left. reflexivity.
    + destruct H as (Ho & _). rewrite Ho. split.
      * intros [E | []]. exact (False_ind _ (Hne (f_equal fst E))).
      * intros [E | E]; injection E as ->; discriminate.
Qed.

(** C4, as the code has it.  When the package of the version's resources
    exists, [_load_map_manifest] raises [MapManifestLoadError], and nothing
    else, exactly when: the version's manifest is there but does not
    decode, is not a mapping, or its entry does not unpack into three
    values; or the version's manifest file or the map in it is missing and
    reading the default manifest fails for any reason (the map being absent
    from both among them); or the selected entry fails an assertion.  On
    success the three attributes of the session are those of the selected
    entry: 760, an int in (0, 1600] and a float. *)
Theorem manifest_load_fails_iff w w' r :
  let version := game_version (replay_data (self w)) in
  let key := game_map (replay_data (self w)) in
  res (self w) = PACKAGE ++ ".resources" ->
  assoc (versioned_spaces version) (resources site) <> None ->
  _load_map_manifest site w = (w', r) ->
  ((exists e, r = Raise (MapManifestLoadError e)) \/ exists p, r = Ok p) /\
  ((exists e, r = Raise (MapManifestLoadError e)) <->
   (exists e, read_entry site (versioned_spaces version) key = Raise e /\
              (e = JSONDecodeError \/ e = TypeError \/ e = ValueError)) \/
   (exists e e',
       read_entry site (versioned_spaces version) key = Raise e /\
       (e = FileNotFoundError \/ e = KeyError) /\
       read_entry site default_spaces key = Raise e') \/
   (exists t, selected_entry site version key = Ok t /\
              valid_entry t = false)) /\
  (forall p, r = Ok p ->
     exists b f,
       selected_entry site version key = Ok (JInt 760, b, JFloat f) /\
       (b = JBool true \/ exists n, b = JInt n /\ 0 < n <= 1600) /\
       minimap_size (self w') = JInt 760 /\
       space_size (self w') = b /\
       scaling (self w') = JFloat f).
Proof.
  intros version key Hres Hpkg Hrun.
  destruct (load_map_manifest_cases w w' r Hres Hrun) as (l & _ & _ & H).
  fold version key in H. unfold selected_entry.
  destruct (read_entry site (versioned_spaces version) key)
    as [[[a b] c] | e] eqn:Ev.
  - destruct H as (_ & Hself & Hr).
    destruct (valid_entry (a, b, c)) eqn:Hvalid; subst r.
    + split; [right; eexists; reflexivity |]. split.
      * split.
        -- intros [e He]. discriminate.
        -- intros [(e & He & _) | [(e & e' & He & _) | (t & Ht & Hf)]];
             try discriminate.
           injection Ht as <-. congruence.
      * intros p _.
        destruct (valid_entry_fields a b c Hvalid) as (-> & [f ->] & Hb).
        exists b, f. rewrite Hself. repeat split; assumption.
    + split; [left; eexists; reflexivity |]. split.
      * split; [| intros _; eexists; reflexivity].
        intros _. right. right. exists (a, b, c). split; [reflexivity | assumption].
      * intros p Hp. discriminate.
  - destruct (read_entry_raises _ _ _ Ev)
      as [[_ Hnone] | [-> | [-> | [-> | [-> | ->]]]]];
      [contradiction | | | | |]; cbn [missing_manifest] in H |- *.
    + (* FileNotFoundError *)
      destruct H as (_ & H).
      destruct (read_entry site default_spaces key) as [[[a b] c] | e'] eqn:Ed.
      * destruct H as (Hself & Hr).
        destruct (valid_entry (a, b, c)) eqn:Hvalid; subst r.
        -- split; [right; eexists; reflexivity |]. split.
           ++ split.
              ** intros [e He]. discriminate.
              ** intros [(e & He & [-> | [-> | ->]])
                        | [(e & e' & _ & _ & He) | (t & Ht & Hf)]];
                   try discriminate.
                 injection Ht as <-. congruence.
           ++ intros p _.
              destruct (valid_entry_fields a b c Hvalid) as (-> & [f ->] & Hb).
              exists b, f. rewrite Hself. repeat split; assumption.
        -- split; [left; eexists; reflexivity |]. split.
           ++ split; [| intros _; eexists; reflexivity].
              intros _. right. right. exists (a, b, c).
              split; [reflexivity | assumption].
           ++ intros p Hp. discriminate.
      * destruct H as (_ & ->).
        split; [left; eexists; reflexivity |]. split.
        -- split; [| intros _; eexists; reflexivity].
           intros _. right. left. exists FileNotFoundError, e'.
           repeat split. left; reflexivity.
        -- intros p Hp. discriminate.
    + (* KeyError *)
      destruct H as (_ & H).
      destruct (read_entry site default_spaces key) as [[[a b] c] | e'] eqn:Ed.
      * destruct H as (Hself & Hr).
        destruct (valid_entry (a, b, c)) eqn:Hvalid; subst r.
        -- split; [right; eexists; reflexivity |]. split.
           ++ split.
              ** intros [e He]. discriminate.
              ** intros [(e & He & [-> | [-> | ->]])
                        | [(e & e' & _ & _ & He) | (t & Ht & Hf)]];
                   try discriminate.
                 injection Ht as <-. congruence.
           ++ intros p _.
              destruct (valid_entry_fields a b c Hvalid) as (-> & [f ->] & Hb).
              exists b, f. rewrite Hself. repeat split; assumption.
        -- split; [left; eexists; reflexivity |]. split.
           ++ split; [| intros _; eexists; reflexivity].
              intros _. right. right. exists (a, b, c).
              split; [reflexivity | assumption].
           ++ intros p Hp. discriminate.
      * destruct H as (_ & ->).
        split; [left; eexists; reflexivity |]. split.
        -- split; [| intros _; eexists; reflexivity].
           intros _. right. left. exists KeyError, e'.
           repeat split. right; reflexivity.
        -- intros p Hp. discriminate.
    + destruct H as (_ & _ & ->).
      split; [left; eexists; reflexivity |]. split.
      * split; [| intros _; eexists; reflexivity].
        intros _. left. exists JSONDecodeError. split; [reflexivity | tauto].
      * intros p Hp. discriminate.
    + destruct H as (_ & _ & ->).
      split; [left; eexists; reflexivity |]. split.
      * split; [| intros _; eexists; reflexivity].
        intros _. left. exists TypeError. split; [reflexivity | tauto].
      * intros p Hp. discriminate.
    + destruct H as (_ & _ & ->).
      split; [left; eexists; reflexivity |]. split.
      * split; [| intros _; eexists; reflexivity].
        intros _. left. exists ValueError. split; [reflexivity | tauto].
      * intros p Hp. discriminate.
Qed.

(** C10: when the version's manifest has the map and its entry does not
    pass the checks, [_load_map_manifest] raises [MapManifestLoadError]
    and the only manifest it has opened is the version's: the default
    manifest is not consulted, whatever it holds. *)
Theorem invalid_versioned_entry_is_fatal w w' r d doc entry :
  let version := game_version (replay_data (self w)) in
  let key := game_map (replay_data (self w)) in
  res (self w) = PACKAGE ++ ".resources" ->
  open_text site (versioned_spaces version) "manifest.json" = Ok d ->
  json_load d = Ok doc ->
  subscript doc key = Ok entry ->
  (forall t, unpack3 entry = Ok t -> valid_entry t = false) ->
  _load_map_manifest site w = (w', r) ->
  (exists e, r = Raise (MapManifestLoadError e)) /\
  exists l,
    log w' = (log w ++ l)%list /\
    opened l = [(versioned_spaces version, "manifest.json")] /\
    ~ In (default_spaces, "manifest.json") (opened l).
Proof.
  intros version key Hres Hd Hdoc Hentry Hbad Hrun.
  destruct (load_map_manifest_cases w w' r Hres Hrun) as (l & Hl & _ & H).
  fold version key in H.
  assert (Hread : read_entry site (versioned_spaces version) key
                  = unpack3 entry).
  { unfold read_entry. rewrite Hd. simpl. rewrite Hdoc. simpl.
    rewrite Hentry. reflexivity. }
  rewrite Hread in H.
  assert (Hno : ~ In (default_spaces, "manifest.json")
                     [(versioned_spaces version, "manifest.json")]).
  { intros [E | []].
    exact (versioned_is_not_default version (f_equal fst E)). }
  destruct (unpack3 entry) as [[[a b] c] | e] eqn:Eu.
  - destruct H as (Ho & _ & Hr). rewrite (Hbad _ eq_refl) in Hr.
    split; [eexists; eassumption |].
    exists l. rewrite Ho. repeat split; assumption.
  - assert (He : missing_manifest e = false).
    { unfold unpack3 in Eu. destruct (iterate entry) as [items | e0] eqn:Ei.
      - simpl in Eu.
        destruct items as [| a [| b [| c [| x items]]]]; try discriminate;
          injection Eu as <-; reflexivity.
      - simpl in Eu. injection Eu as <-.
        destruct entry; simpl in Ei; try discriminate;
          injection Ei as <-; reflexivity. }
    rewrite He in H. destruct H as (Ho & _ & Hr).
    split; [eexists; eassumption |].
    exists l. rewrite Ho. repeat split; assumption.
Qed.
End Manifest.

(** C3, where the code departs from it: a replay of a version that has no
    package of its own.  The default manifest holds a valid entry for the
    map, but opening the version's manifest raises [ModuleNotFoundError],
    which the inner handler does not catch: the load fails and the default
    manifest is never opened. *)
Theorem missing_version_package_is_fatal :
  let w := Example.initial
             (Example.replay "0_11_6" "spaces/01_solomon_islands" []) in
  let run := _load_map_manifest Example.site_default w in
  read_entry Example.site_default default_spaces "spaces/01_solomon_islands"
    = Ok (JInt 760, JInt 720, JFloat Example.f0_2347) /\
  valid_entry (JInt 760, JInt 720, JFloat Example.f0_2347) = true /\
  snd run = Raise (MapManifestLoadError ModuleNotFoundError) /\
  log (fst run) =
    [(COpenText "renderer.versions.0_11_6.resources.spaces" "manifest.json",
      Raised ModuleNotFoundError)].
Proof. vm_compute. repeat split. Qed.

(** With the version's manifest file absent from an existing package, or
    the map absent from the version's manifest, the same load falls back
    to the default manifest and succeeds. *)
Lemma missing_version_manifest_falls_back :
  let w := Example.initial
             (Example.replay "0_11_6" "spaces/01_solomon_islands" []) in
  let site := {| resources :=
                   resources Example.site_default
                   ++ [(versioned_spaces "0_11_6", [])];
                 modules := [] |} in
  snd (_load_map_manifest site w)
    = Ok "renderer.resources.spaces.spaces/01_solomon_islands" /\
  opened (log (fst (_load_map_manifest site w)))
    = [("renderer.versions.0_11_6.resources.spaces", "manifest.json");
       ("renderer.resources.spaces", "manifest.json")].
Proof. vm_compute. split; reflexivity. Qed.

(** The version's manifest does not decode while the default manifest has
    a valid entry for the map: by the specification's three causes the
    load does not fail, yet it raises. *)
Lemma malformed_versioned_manifest_is_fatal :
  let w := Example.initial
             (Example.replay "0_11_7" "spaces/01_solomon_islands" []) in
  spec_load_fails Example.site_malformed "0_11_7" "spaces/01_solomon_islands"
    = false /\
  snd (_load_map_manifest Example.site_malformed w)
    = Raise (MapManifestLoadError JSONDecodeError).
Proof. vm_compute. split; reflexivity. Qed.

(** A replay of version 0_11_6 on a map that the version's manifest
    holds: the load succeeds with the version's entry. *)
Lemma manifest_load_fails_iff_witness :
  let w := Example.initial
             (Example.replay "0_11_6" "spaces/16_OC_bees_to_honey" []) in
  let run := _load_map_manifest Example.site_versioned w in
  snd run
    = Ok "renderer.versions.0_11_6.resources.spaces.spaces/16_OC_bees_to_honey"
  /\ exists b f,
       selected_entry Example.site_versioned "0_11_6"
                      "spaces/16_OC_bees_to_honey"
         = Ok (JInt 760, b, JFloat f) /\
       (b = JBool true \/ exists n, b = JInt n /\ 0 < n <= 1600) /\
       minimap_size (self (fst run)) = JInt 760 /\
       space_size (self (fst run)) = b /\
       scaling (self (fst run)) = JFloat f.
Proof.
  intros w run.
  assert (Hres : res (self w) = PACKAGE ++ ".resources") by reflexivity.
  assert (Hpkg : assoc (versioned_spaces (game_version (replay_data (self w))))
                       (resources Example.site_versioned) <> None)
    by (vm_compute; discriminate).
  assert (Hok : snd run
    = Ok "renderer.versions.0_11_6.resources.spaces.spaces/16_OC_bees_to_honey")
    by (vm_compute; reflexivity).
  split; [exact Hok |].
  exact (proj2 (proj2 (manifest_load_fails_iff Example.site_versioned
                         w (fst run) (snd run) Hres Hpkg
                         (surjective_pairing run))) _ Hok).
Defined.

(** The manifest of version 0_11_6 gives the scale of one map as the int
    1; the default manifest has a valid entry for that map, and is not
    opened. *)
Lemma invalid_versioned_entry_is_fatal_witness :
  let w := Example.initial
             (Example.replay "0_11_6" "spaces/01_solomon_islands" []) in
  let run := _load_map_manifest Example.site_versioned w in
  read_entry Example.site_versioned default_spaces "spaces/01_solomon_islands"
    = Ok (JInt 760, JInt 720, JFloat Example.f0_2347) /\
  (exists e, snd run = Raise (MapManifestLoadError e)) /\
  exists l,
    log (fst run) = (log w ++ l)%list /\
    opened l = [(versioned_spaces "0_11_6", "manifest.json")] /\
    ~ In (default_spaces, "manifest.json") (opened l).
Proof.
  intros w run. split; [reflexivity |].
  apply (invalid_versioned_entry_is_fatal Example.site_versioned
           w (fst run) (snd run)
           (Parsed (JDict [("spaces/16_OC_bees_to_honey", Example.good_entry);
                           ("spaces/01_solomon_islands",
                            JList [JInt 760; JInt 720; JInt 1])]))
           (JDict [("spaces/16_OC_bees_to_honey", Example.good_entry);
                   ("spaces/01_solomon_islands",
                    JList [JInt 760; JInt 720; JInt 1])])
           (JList [JInt 760; JInt 720; JInt 1])).
  - reflexivity.
  - reflexivity.
  - reflexivity.
  - reflexivity.
  - intros t Ht. vm_compute in Ht. injection Ht as <-. reflexivity.
  - apply surjective_pairing.
Defined.

(** ** What a run appends to the log *)

Lemma bind_ok_inv {W A B : Type} (m : M W A) (k : A -> M W B)
    (w w' : W) (b : B) :
  bind m k w = (w', Ok b) ->
  exists a w1, m w = (w1, Ok a) /\ k a w1 = (w', Ok b).
Proof.
  unfold bind. destruct (m w) as [w1 [a | e]]; intros H.
  - exists a, w1. split; [reflexivity | assumption].
  - discriminate.
Qed.

Lemma map_Ok_inj {A : Type} (l1 l2 : list A) :
  map Ok l1 = map Ok l2 -> l1 = l2.
Proof.
  revert l2. induction l1 as [| x l1 IH]; intros [| y l2] H;
    try discriminate; [reflexivity |].
  cbn [map] in H. injection H as -> H. f_equal. apply IH, H.
Qed.

Section Emits.
Local Open Scope list_scope.
Context {Snapshot Store : Type}.
Variable p : event -> bool.
Local Abbreviation W := (World Snapshot Store).

Lemma emits_nothing {A} (m : M W A) :
  (forall w, fst (m w) = w) -> emits p m.
Proof.
  intros Hm w w' r H. pose proof (Hm w) as E. rewrite H in E. simpl in E.
  subst w'. split; [reflexivity |]. exists [].
  rewrite app_nil_r. split; reflexivity.
Qed.

Lemma emits_ret {A} (a : A) : emits p (ret (W := W) a).
Proof. apply emits_nothing. reflexivity. Qed.

Lemma emits_raise {A} (e : exn) : emits p (raise (W := W) (A := A) e).
Proof. apply emits_nothing. reflexivity. Qed.

Lemma emits_lift {A} (x : result A) : emits p (lift (W := W) x).
Proof. apply emits_nothing. reflexivity. Qed.

Lemma emits_get_self :
  emits p (get_self (Snapshot := Snapshot) (Store := Store)).
Proof. apply emits_nothing. reflexivity. Qed.

Lemma emits_peek {A} (f : Store -> A) :
  emits p (peek (Snapshot := Snapshot) f).
Proof. apply emits_nothing. reflexivity. Qed.

Lemma emits_deref o :
  emits p (deref (Snapshot := Snapshot) (Store := Store) o).
Proof. destruct o; [apply emits_ret | apply emits_raise]. Qed.

Lemma emits_assert b :
  emits p (assert (Snapshot := Snapshot) (Store := Store) b).
Proof. destruct b; [apply emits_ret | apply emits_raise]. Qed.

Lemma emits_update_self f :
  (forall s, replay_data (f s) = replay_data s) ->
  emits p (update_self (Snapshot := Snapshot) (Store := Store) f).
Proof.
  intros Hf w w' r H. injection H as <- <-. split; [apply Hf |].
  exists []. simpl. rewrite app_nil_r. split; reflexivity.
Qed.

Lemma emits_bind {A B} (m : M W A) (k : A -> M W B) :
  emits p m -> (forall a, emits p (k a)) -> emits p (bind m k).
Proof.
  intros Hm Hk w w' r H. unfold bind in H.
  destruct (m w) as [w1 [a | e]] eqn:Em.
  - destruct (Hm _ _ _ Em) as (D1 & l1 & E1 & P1).
    destruct (Hk a _ _ _ H) as (D2 & l2 & E2 & P2).
    split; [congruence |].
    exists (l1 ++ l2). rewrite E2, E1, app_assoc. split; [reflexivity |].
    rewrite forallb_app, P1, P2. reflexivity.
  - injection H as <- <-. exact (Hm _ _ _ Em).
Qed.

Lemma emits_try_except {A} (m : M W A) handles handler :
  emits p m -> (forall e, emits p (handler e)) ->
  emits p (try_except m handles handler).
Proof.
  intros Hm Hh w w' r H. unfold try_except in H.
  destruct (m w) as [w1 [a | e]] eqn:Em.
  - injection H as <- <-. exact (Hm _ _ _ Em).
  - destruct (handles e).
    + destruct (Hm _ _ _ Em) as (D1 & l1 & E1 & P1).
      destruct (Hh e _ _ _ H) as (D2 & l2 & E2 & P2).
      split; [congruence |].
      exists (l1 ++ l2). rewrite E2, E1, app_assoc. split; [reflexivity |].
      rewrite forallb_app, P1, P2. reflexivity.
    + injection H as <- <-. exact (Hm _ _ _ Em).
Qed.

Lemma emits_call_obj c f :
  (forall o, p (c, o) = true) ->
  emits p (call_obj (Snapshot := Snapshot) (Store := Store) c f).
Proof.
  intros Hc w w' r H. unfold call_obj in H.
  destruct (f (store w)) as [st [o | e]]; injection H as <- <-;
    (split; [reflexivity |]); eexists; (split; [reflexivity |]);
    simpl; rewrite Hc; reflexivity.
Qed.

Lemma emits_call_bytes c f :
  (forall o, p (c, o) = true) ->
  emits p (call_bytes (Snapshot := Snapshot) (Store := Store) c f).
Proof.
  intros Hc w w' r H. unfold call_bytes in H.
  destruct (f (store w)) as [st [o | e]]; injection H as <- <-;
    (split; [reflexivity |]); eexists; (split; [reflexivity |]);
    simpl; rewrite Hc; reflexivity.
Qed.

Lemma emits_call_unit c f :
  (forall o, p (c, o) = true) ->
  emits p (call_unit (Snapshot := Snapshot) (Store := Store) c f).
Proof.
  intros Hc w w' r H. unfold call_unit in H.
  destruct (f (store w)) as [st [o | e]]; injection H as <- <-;
    (split; [reflexivity |]); eexists; (split; [reflexivity |]);
    simpl; rewrite Hc; reflexivity.
Qed.

Lemma emits_call_site {A} c (x : result A) :
  (forall o, p (c, o) = true) ->
  emits p (call_site (Snapshot := Snapshot) (Store := Store) c x).
Proof.
  intros Hc w w' r H. unfold call_site in H.
  destruct x as [a | e]; injection H as <- <-;
    (split; [reflexivity |]); eexists; (split; [reflexivity |]);
    simpl; rewrite Hc; reflexivity.
Qed.

Lemma emits_info msg :
  (forall o, p (CInfo msg, o) = true) ->
  emits p (info (Snapshot := Snapshot) (Store := Store) msg).
Proof. intros Hc. apply emits_call_site. assumption. Qed.

Lemma emits_for_each {A} (l : list A) (body : A -> M W unit) :
  (forall a, emits p (body a)) -> emits p (for_each l body).
Proof.
  intros Hb. induction l as [| a l IH]; simpl.
  - apply emits_ret.
  - apply emits_bind; [apply Hb | intros _; exact IH].
Qed.
End Emits.

Lemma emits_weaken {Snapshot Store A : Type} (p q : event -> bool)
    (m : M (World Snapshot Store) A) :
  (forall ev, p ev = true -> q ev = true) -> emits p m -> emits q m.
Proof.
  intros Hpq Hm w w' r H. destruct (Hm _ _ _ H) as (D & l & E & P).
  split; [assumption |].
  exists l. split; [assumption |].
  rewrite forallb_forall in *. intros ev Hin. apply Hpq, P, Hin.
Qed.

(** One step of a proof that a method emits only what [p] accepts. *)
Ltac emits_step :=
  first
    [ apply emits_bind; [| intro]
    | apply emits_try_except; [| intro]
    | apply emits_ret
    | apply emits_raise
    | apply emits_lift
    | apply emits_get_self
    | apply emits_update_self; intro; reflexivity
    | apply emits_peek
    | apply emits_deref
    | apply emits_assert
    | apply emits_info; intro; reflexivity
    | apply emits_call_site; intro; reflexivity
    | apply emits_call_obj; intro; reflexivity
    | apply emits_call_unit; intro; reflexivity
    | apply emits_call_bytes; intro; reflexivity
    | match goal with
      | |- emits _ (let '(_, _) := ?t in _) => destruct t
      end ].

(** ** The registry and the rendering run *)

Section Run.
Local Open Scope list_scope.
Context {Snapshot Store : Type}.
Variable X : External Snapshot Store.
Variable site : Site.
Implicit Types w : World Snapshot Store.

Lemma emits_load_map_manifest : emits is_setup
    (_load_map_manifest (Snapshot := Snapshot) (Store := Store) site).
Proof.
  unfold _load_map_manifest, read_manifest, check_manifest, unpack_manifest.
  repeat emits_step.
Qed.

Lemma emits_load_map : emits is_setup (_load_map X site).
Proof.
  unfold _load_map.
  apply emits_bind; [apply emits_info; intro; reflexivity | intros _].
  apply emits_bind; [apply emits_load_map_manifest | intros map_res].
  repeat emits_step.
Qed.

Lemma emits_resolve_layer pkg layer :
  emits is_lookup
    (resolve_layer (Snapshot := Snapshot) (Store := Store) site pkg layer).
Proof.
  unfold resolve_layer, versioned_layer, default_layer.
  repeat emits_step.
Qed.

Lemma emits_init_each pkg todo acc :
  emits is_setup (init_each X site pkg todo acc).
Proof.
  revert acc. induction todo as [| layer todo IH]; intros acc; simpl.
  - apply emits_ret.
  - apply emits_bind.
    + apply (emits_weaken is_lookup); [| apply emits_resolve_layer].
      intros [[] o] H; try reflexivity; discriminate H.
    + intros c. apply emits_bind; [apply emits_get_self | intros s].
      apply emits_bind; [apply emits_call_obj; intro; reflexivity | intros o].
      apply IH.
Qed.

Lemma emits_check_versioned_layers :
  emits is_setup (_check_versioned_layers X site).
Proof.
  unfold _check_versioned_layers.
  apply emits_bind; [apply emits_get_self | intros s].
  apply emits_bind; [apply emits_info; intro; reflexivity | intros _].
  apply emits_init_each.
Qed.

Lemma constructed_app l1 l2 :
  constructed (l1 ++ l2) = constructed l1 ++ constructed l2.
Proof. unfold constructed. apply flat_map_app. Qed.

Lemma constructed_lookup l : forallb is_lookup l = true -> constructed l = [].
Proof.
  induction l as [| [c o] l IH]; simpl; [reflexivity |].
  rewrite andb_true_iff. intros [Hc Hl]. rewrite (IH Hl).
  destruct c; try discriminate; reflexivity.
Qed.

Lemma resolve_layer_spec version layer w w' r :
  resolve_layer site (PACKAGE ++ ".versions." ++ version) layer w = (w', r) ->
  self w' = self w /\ store w' = store w /\
  r = resolved_class site version layer.
Proof.
  unfold resolve_layer, versioned_layer, default_layer, resolved_class,
    versioned_class, default_class, try_except, bind, call_site, lift, info,
    ret, record.
  destruct (import_module site ".layers" (PACKAGE ++ ".versions." ++ version))
    as [m | e]; cbn [rbind].
  - destruct (getattr m layer) as [c | e]; cbn [rbind].
    + intros H; injection H as <- <-. repeat split.
    + destruct (missing_layer e).
      * destruct (import_module site ".layers" PACKAGE) as [m' | e'];
          cbn [rbind]; intros H; injection H as <- <-; repeat split.
      * intros H; injection H as <- <-. repeat split.
  - destruct (missing_layer e).
    + destruct (import_module site ".layers" PACKAGE) as [m' | e'];
        cbn [rbind]; intros H; injection H as <- <-; repeat split.
    + intros H; injection H as <- <-. repeat split.
Qed.

Lemma init_each_spec version todo : forall acc w w' objs,
  init_each X site (PACKAGE ++ ".versions." ++ version) todo acc w
    = (w', Ok objs) ->
  exists l,
    log w' = log w ++ l /\ self w' = self w /\
    forallb is_setup l = true /\
    objs = acc ++ map snd (constructed l) /\
    map (resolved_class site version) todo
      = map (fun co => Ok (fst co)) (constructed l).
Proof.
  induction todo as [| layer todo IH]; intros acc w w' objs H; simpl in H.
  - injection H as <- <-. exists []. rewrite !app_nil_r. repeat split.
  - apply bind_ok_inv in H. destruct H as (c & w1 & Hr & H).
    apply bind_ok_inv in H. destruct H as (s & w2 & Hs & H).
    injection Hs as <- <-.
    apply bind_ok_inv in H. destruct H as (o & w3 & Hc & H).
    destruct (emits_resolve_layer _ _ _ _ _ Hr) as (_ & l1 & E1 & P1).
    destruct (resolve_layer_spec _ _ _ _ _ Hr) as (S1 & _ & R1).
    unfold call_obj in Hc.
    destruct (construct X c (self w1) (store w1)) as [st [o' | e]];
      [| discriminate].
    injection Hc as <- <-.
    destruct (IH _ _ _ _ H) as (l2 & E2 & S2 & P2 & O2 & C2).
    exists (l1 ++ (CConstruct c, ReturnedObj o') :: l2).
    rewrite E2. cbn [log self record] in *. rewrite E1.
    repeat split.
    + rewrite <- !app_assoc. reflexivity.
    + rewrite S2. assumption.
    + rewrite forallb_app. cbn [forallb]. rewrite P2.
      rewrite andb_true_r. cbn [is_setup fst andb].
      rewrite forallb_forall in *. intros ev Hin. specialize (P1 ev Hin).
      destruct ev as [[] oc]; try reflexivity; discriminate P1.
    + rewrite O2, constructed_app, (constructed_lookup _ P1).
      cbn [constructed flat_map app map snd]. fold (constructed l2).
      rewrite <- app_assoc. reflexivity.
    + rewrite constructed_app, (constructed_lookup _ P1).
      cbn [constructed flat_map app map fst]. fold (constructed l2).
      rewrite <- R1, C2. reflexivity.
Qed.


Lemma frame_spec ly video_writer game_time w w' :
  frame X ly video_writer game_time w = (w', Ok tt) ->
  exists fg bg f,
    minimap_image (self w) = Some fg /\ minimap_bg (self w) = Some bg /\
    log w' = log w ++ frame_events ly video_writer fg bg game_time f /\
    self w' = self w.
Proof.
  unfold frame, draw_layer, bind, get_self, deref, call_obj, call_unit,
    call_bytes, ret, raise, record.
  destruct (minimap_image (self w)) as [fg |]; [| discriminate].
  destruct (minimap_bg (self w)) as [bg |] eqn:Ebg.
  2: { destruct (img_copy X fg (store w)) as [st [o | e]]; cbn; discriminate. }
  intros H. exists fg, bg.
  repeat
    match type of H with
    | context [match ?f ?st with pair _ _ => _ end] =>
        destruct (f st) as [? [? | ?]]; cbn [self store log] in H;
        try rewrite Ebg in H; try discriminate H
    end.
  injection H as <-. eexists (Build_Frame _ _ _ _).
  cbn [self log frame_events canvas backdrop context pixels].
  repeat rewrite <- app_assoc. repeat split.
Qed.

Lemma frames_spec ly video_writer fg bg ts : forall w w',
  for_each ts (frame X ly video_writer) w = (w', Ok tt) ->
  minimap_image (self w) = Some fg -> minimap_bg (self w) = Some bg ->
  exists fs,
    List.length fs = List.length ts /\
    log w' = log w ++ frames_events ly video_writer fg bg ts fs /\
    self w' = self w.
Proof.
  induction ts as [| t ts IH]; intros w w' H Hfg Hbg; simpl in H.
  - injection H as <-. exists []. rewrite app_nil_r. repeat split.
  - apply bind_ok_inv in H. destruct H as ([] & w1 & Hf & H).
    destruct (frame_spec _ _ _ _ _ Hf) as (fg' & bg' & f & Efg & Ebg & El & Es).
    rewrite Hfg in Efg. injection Efg as <-.
    rewrite Hbg in Ebg. injection Ebg as <-.
    rewrite <- Es in Hfg, Hbg.
    destruct (IH _ _ H Hfg Hbg) as (fs & Hlen & El' & Es').
    exists (f :: fs). repeat split.
    + simpl. rewrite Hlen. reflexivity.
    + rewrite El', El. unfold frames_events. cbn [combine flat_map fst snd].
      rewrite <- app_assoc. reflexivity.
    + congruence.
Qed.

Lemma assert_ok_inv (b : bool) w w' :
  assert b w = (w', Ok tt) -> b = true /\ w' = w.
Proof.
  destruct b; unfold assert, ret, raise; intros H.
  - injection H as <-. split; reflexivity.
  - discriminate.
Qed.

Lemma setup_is_not_close ev : is_setup ev = true -> not_close ev = true.
Proof. destruct ev as [[] o]; intros H; try reflexivity; discriminate H. Qed.

Lemma emits_frame ly video_writer game_time :
  emits not_close (frame X ly video_writer game_time).
Proof. unfold frame, draw_layer. repeat emits_step. Qed.

Lemma check_versioned_layers_spec w w' init_layers :
  _check_versioned_layers X site w = (w', Ok init_layers) ->
  exists l,
    log w' = log w ++ l /\ self w' = self w /\
    forallb is_setup l = true /\
    init_layers = map snd (constructed l) /\
    map (resolved_class site (game_version (replay_data (self w)))) layers
      = map (fun co => Ok (fst co)) (constructed l).
Proof.
  unfold _check_versioned_layers. intros H.
  apply bind_ok_inv in H. destruct H as (s & w1 & Hs & H).
  injection Hs as <- <-.
  apply bind_ok_inv in H. destruct H as ([] & w1 & Hi & H).
  unfold info, call_site, record in Hi. injection Hi as <-.
  destruct (init_each_spec _ _ _ _ _ _ H) as (l & E & S & P & O & C).
  exists ((CInfo "Looking for versioned layers", Returned) :: l).
  cbn [log self] in *. rewrite E, <- app_assoc. repeat split; assumption.
Qed.

Lemma stream_spec ly w w' fg :
  stream X ly w = (w', Ok tt) -> minimap_image (self w) = Some fg ->
  exists bg video_writer fs,
    minimap_bg (self w) = Some bg /\
    List.length fs = List.length (events (replay_data (self w))) /\
    log w' =
      log w
      ++ [ (CWriteFrames (writer_params (img_size X bg (store w))),
            ReturnedObj video_writer);
           (CSend video_writer None, Returned) ]
      ++ frames_events ly video_writer fg bg
           (keys (events (replay_data (self w)))) fs
      ++ [(CClose video_writer, Returned)].
Proof.
  unfold stream. intros H Hfg.
  apply bind_ok_inv in H. destruct H as (s & w1 & Hs & H).
  injection Hs as <- <-.
  apply bind_ok_inv in H. destruct H as (bg & w1 & Hbg & H).
  destruct (minimap_bg (self w)) as [bg' |] eqn:Ebg; [| discriminate].
  injection Hbg as <- <-.
  apply bind_ok_inv in H. destruct H as (sz & w1 & Hsz & H).
  injection Hsz as <- <-.
  apply bind_ok_inv in H. destruct H as (vw & w1 & Hvw & H).
  unfold call_obj in Hvw.
  destruct (write_frames X _ (store w)) as [st1 [o | e]]; [| discriminate].
  injection Hvw as <- <-.
  apply bind_ok_inv in H. destruct H as ([] & w2 & Hsend & H).
  unfold call_unit in Hsend. cbn [store record] in Hsend.
  destruct (gen_send X o None st1) as [st2 [[] | e]]; [| discriminate].
  injection Hsend as <-.
  apply bind_ok_inv in H. destruct H as ([] & w3 & Hloop & H).
  destruct (frames_spec ly o fg bg' _ _ _ Hloop Hfg Ebg)
    as (fs & Hlen & El & Es).
  unfold call_unit in H.
  destruct (gen_close X o (store w3)) as [st3 [[] | e]]; [| discriminate].
  injection H as <-.
  exists bg', o, fs. split; [reflexivity |]. split.
  - rewrite Hlen. unfold keys. apply length_map.
  - cbn [log record self] in *. rewrite El. cbn [log].
    repeat rewrite <- app_assoc. reflexivity.
Qed.

Lemma sent_frames_app l1 l2 :
  sent_frames (l1 ++ l2) = sent_frames l1 ++ sent_frames l2.
Proof. unfold sent_frames. apply flat_map_app. Qed.

Lemma sent_frames_setup l : forallb is_setup l = true -> sent_frames l = [].
Proof.
  induction l as [| [c o] l IH]; simpl; [reflexivity |].
  rewrite andb_true_iff. intros [Hc Hl]. rewrite (IH Hl).
  destruct c; try discriminate; reflexivity.
Qed.

Lemma sent_frames_frames ly video_writer fg bg ts : forall fs,
  List.length fs = List.length ts ->
  sent_frames (frames_events ly video_writer fg bg ts fs) = map pixels fs.
Proof.
  unfold frames_events.
  induction ts as [| t ts IH]; intros [| f fs] Hlen; try discriminate.
  - reflexivity.
  - cbn [combine flat_map fst snd]. rewrite sent_frames_app.
    injection Hlen as Hlen. rewrite (IH fs Hlen). reflexivity.
Qed.

(** C1: in a run of [start] that completes, what reaches the log is the
    setup, then one completed pass of the loop for each timestamp of
    [events], in order, then the call of [close]; the frames sent to the
    video writer are exactly the pixels of these passes, as many as there
    are events and in their order. *)
Theorem frames_follow_events w w' :
  start X site w = (w', Ok tt) ->
  exists setup ly video_writer fg bg fs,
    log w' =
      log w ++ setup
      ++ frames_events ly video_writer fg bg
           (keys (events (replay_data (self w)))) fs
      ++ [(CClose video_writer, Returned)] /\
    sent_frames setup = [] /\
    List.length fs = List.length (events (replay_data (self w))) /\
    sent_frames
      (setup
       ++ frames_events ly video_writer fg bg
            (keys (events (replay_data (self w)))) fs
       ++ [(CClose video_writer, Returned)])
    = map pixels fs /\
    List.length (map pixels fs)
    = List.length (events (replay_data (self w))).
Proof.
  unfold start. intros H.
  apply bind_ok_inv in H. destruct H as ([] & w1 & Hmap & H).
  destruct (emits_load_map _ _ _ Hmap) as (D1 & l1 & E1 & P1).
  apply bind_ok_inv in H. destruct H as (s & w1' & Hs & H).
  injection Hs as <- <-.
  apply bind_ok_inv in H. destruct H as ([] & w1' & Ha & H).
  apply assert_ok_inv in Ha. destruct Ha as [Hfg ->].
  apply bind_ok_inv in H. destruct H as ([] & w1' & Ha & H).
  apply assert_ok_inv in Ha. destruct Ha as [Hbg ->].
  apply bind_ok_inv in H. destruct H as (init_layers & w2 & Hreg & H).
  destruct (check_versioned_layers_spec _ _ _ Hreg)
    as (l2 & E2 & S2 & P2 & _ & _).
  apply bind_ok_inv in H. destruct H as (ly & w2' & Hly & H).
  injection Hly as <- _.
  destruct (minimap_image (self w1)) as [fg |] eqn:Efg; [| discriminate].
  rewrite <- S2 in Efg.
  destruct (stream_spec _ _ _ _ H Efg) as (bg & vw & fs & Ebg & Hlen & El).
  rewrite S2, D1 in Hlen, El.
  set (opening := [ (CWriteFrames (writer_params (img_size X bg (store w2))),
                     ReturnedObj vw);
                    (CSend vw None, Returned) ]) in *.
  assert (Hsetup : sent_frames (l1 ++ l2 ++ opening) = []).
  { rewrite !sent_frames_app, (sent_frames_setup _ P1),
      (sent_frames_setup _ P2). reflexivity. }
  assert (Hlen' : List.length fs
                  = List.length (keys (events (replay_data (self w)))))
    by (unfold keys; rewrite length_map; exact Hlen).
  exists (l1 ++ l2 ++ opening), ly, vw, fg, bg, fs.
  repeat split.
  - rewrite El, E2, E1. repeat rewrite <- app_assoc. reflexivity.
  - exact Hsetup.
  - exact Hlen.
  - rewrite sent_frames_app, Hsetup, sent_frames_app,
      (sent_frames_frames _ _ _ _ _ _ Hlen').
    cbn [app sent_frames flat_map]. apply app_nil_r.
  - rewrite length_map. exact Hlen.
Qed.

(** C2: a pass of the loop that sends its frame has made exactly these
    calls, in this order: a copy of the foreground, a copy of the
    background, a drawing context on the foreground copy, the draws of
    Capture and Ward on the foreground copy, of Shot and Torpedo on the
    drawing context, of Ship, Smoke and Plane on the foreground copy, the
    paste of the foreground copy onto the background copy at (40, 40), and
    the bytes of the background copy sent to the video writer. *)
Theorem frame_draws_in_order ly video_writer game_time w w' :
  frame X ly video_writer game_time w = (w', Ok tt) ->
  exists fg bg minimap_img minimap_bg_copy draw b,
    minimap_image (self w) = Some fg /\ minimap_bg (self w) = Some bg /\
    log w' =
      log w
      ++ [ (CCopy fg, ReturnedObj minimap_img);
           (CCopy bg, ReturnedObj minimap_bg_copy);
           (CImageDraw minimap_img, ReturnedObj draw);
           (CLayerDraw (layer_capture ly) game_time minimap_img, Returned);
           (CLayerDraw (layer_ward ly) game_time minimap_img, Returned);
           (CLayerDraw (layer_shot ly) game_time draw, Returned);
           (CLayerDraw (layer_torpedo ly) game_time draw, Returned);
           (CLayerDraw (layer_ship ly) game_time minimap_img, Returned);
           (CLayerDraw (layer_smoke ly) game_time minimap_img, Returned);
           (CLayerDraw (layer_plane ly) game_time minimap_img, Returned);
           (CPaste minimap_bg_copy minimap_img (Some (40, 40)) None, Returned);
           (CToBytes minimap_bg_copy, ReturnedBytes b);
           (CSend video_writer (Some b), Returned) ].
Proof.
  intros H.
  destruct (frame_spec _ _ _ _ _ H) as (fg & bg & f & Hfg & Hbg & El & _).
  exists fg, bg, (canvas f), (backdrop f), (context f), (pixels f).
  repeat split; assumption.
Qed.

Lemma close_after {A} (m : M (World Snapshot Store) A) k :
  emits not_close m -> (forall a, ends_with_close (k a)) ->
  ends_with_close (bind m k).
Proof.
  intros Hm Hk w w' r H. unfold bind in H.
  destruct (m w) as [w1 [a | e]] eqn:Em.
  - destruct (Hm _ _ _ Em) as (_ & l1 & E1 & P1).
    destruct (Hk a _ _ _ H) as (l2 & E2 & C2).
    exists (l1 ++ l2). rewrite E2, E1, app_assoc. split; [reflexivity |].
    destruct r as [[] | e]; cbn [closes_last] in *.
    + destruct C2 as (l0 & vw & -> & P0).
      exists (l1 ++ l0), vw. rewrite app_assoc. split; [reflexivity |].
      rewrite forallb_app, P1, P0. reflexivity.
    + destruct C2 as [P2 | (l0 & vw & -> & P0)].
      * left. rewrite forallb_app, P1, P2. reflexivity.
      * right. exists (l1 ++ l0), vw. rewrite app_assoc.
        split; [reflexivity |]. rewrite forallb_app, P1, P0. reflexivity.
  - injection H as <- <-.
    destruct (Hm _ _ _ Em) as (_ & l1 & E1 & P1).
    exists l1. split; [assumption |]. left. assumption.
Qed.

Lemma close_is_last video_writer f :
  ends_with_close
    (call_unit (Snapshot := Snapshot) (Store := Store)
               (CClose video_writer) f).
Proof.
  intros w w' r H. unfold call_unit in H.
  destruct (f (store w)) as [st [[] | e]]; injection H as <- <-;
    eexists; (split; [reflexivity |]); cbn [closes_last].
  - exists [], video_writer. split; reflexivity.
  - right. exists [], video_writer. split; reflexivity.
Qed.

(** C9, as the code has it: in every run of [start] the video writer is
    closed by the last call of a run that completes, and only there.  A
    run that raises before that has made no call of [close]; the
    exception leaves [start] with the writer still open. *)
Theorem close_only_on_completion w :
  exists l,
    log (fst (start X site w)) = log w ++ l /\
    closes_last (snd (start X site w)) l.
Proof.
  assert (H : ends_with_close (start X site)).
  { unfold start, stream.
    apply close_after.
    { apply (emits_weaken is_setup); [apply setup_is_not_close |].
      apply emits_load_map. }
    intros _.
    apply close_after; [repeat emits_step |]. intros s.
    apply close_after; [repeat emits_step |]. intros _.
    apply close_after; [repeat emits_step |]. intros _.
    apply close_after.
    { apply (emits_weaken is_setup); [apply setup_is_not_close |].
      apply emits_check_versioned_layers. }
    intros init_layers.
    apply close_after; [repeat emits_step |]. intros ly.
    apply close_after; [repeat emits_step |]. intros s'.
    apply close_after; [repeat emits_step |]. intros bg.
    apply close_after; [repeat emits_step |]. intros sz.
    apply close_after; [repeat emits_step |]. intros vw.
    apply close_after; [repeat emits_step |]. intros _.
    apply close_after.
    { apply emits_for_each. intros t. apply emits_frame. }
    intros _. apply close_is_last. }
  apply (H w). apply surjective_pairing.
Qed.

Lemma default_class_of_layer layer :
  In layer layers -> default_class site layer = Ok (layer ++ "Base")%string.
Proof.
  intros H. repeat (destruct H as [<- | H]; [reflexivity |]). destruct H.
Qed.

Lemma init_each_runs version todo :
  (forall c s st, is_ok (snd (construct X c s st)) = true) ->
  (forall layer, In layer todo ->
     is_ok (resolved_class site version layer) = true) ->
  forall acc w, exists w' objs,
    init_each X site (PACKAGE ++ ".versions." ++ version)%string todo acc w
      = (w', Ok objs).
Proof.
  intros Hctor. induction todo as [| layer todo IH]; intros Hres acc w.
  - exists w, acc. reflexivity.
  - cbn [init_each]. unfold bind at 1.
    destruct (resolve_layer site _ layer w) as [w1 r] eqn:Hr.
    destruct (resolve_layer_spec _ _ _ _ _ Hr) as (_ & _ & ->).
    pose proof (Hres layer (or_introl eq_refl)) as Hok.
    destruct (resolved_class site version layer) as [c | e];
      [| discriminate].
    unfold bind at 1, get_self. unfold bind at 1, call_obj.
    pose proof (Hctor c (self w1) (store w1)) as Hc.
    destruct (construct X c (self w1) (store w1)) as [st [o | e]];
      [| discriminate].
    apply IH. intros l Hl. apply Hres. right. assumption.
Qed.

(** C7, as the code has it: the registry resolves the seven roles of
    [layers], in the order Ship, Shot, Torpedo, Smoke, Plane, Ward,
    Capture, and instantiates the class resolved for each, in that order.
    [start] binds the seven objects by position, so that the order of
    drawing (Capture, Ward, Shot, Torpedo, Ship, Smoke, Plane) is a
    rearrangement of the order of resolution, each role drawn with the
    object resolved for it. *)
Theorem registry_order_and_draw_order w w' init_layers :
  _check_versioned_layers X site w = (w', Ok init_layers) ->
  layers = [ "LayerShip"; "LayerShot"; "LayerTorpedo"; "LayerSmoke";
             "LayerPlane"; "LayerWard"; "LayerCapture" ]%string /\
  exists l ship shot torpedo smoke plane ward capture ly,
    log w' = log w ++ l /\
    map (resolved_class site (game_version (replay_data (self w)))) layers
      = map (fun co => Ok (fst co)) (constructed l) /\
    map snd (constructed l) = init_layers /\
    init_layers = [ship; shot; torpedo; smoke; plane; ward; capture] /\
    unpack_layers init_layers = Ok ly /\
    draw_order ly = [capture; ward; shot; torpedo; ship; smoke; plane] /\
    Permutation (draw_order ly) init_layers.
Proof.
  intros H. split; [reflexivity |].
  destruct (check_versioned_layers_spec _ _ _ H) as (l & E & _ & _ & O & C).
  assert (Hlen : List.length (constructed l) = 7%nat).
  { apply (f_equal (@List.length _)) in C. rewrite !length_map in C.
    rewrite <- C. reflexivity. }
  destruct (constructed l)
    as [| [c1 a] [| [c2 b] [| [c3 c] [| [c4 d] [| [c5 e] [| [c6 f]
        [| [c7 g] [| x rest]]]]]]]] eqn:Ecs; try discriminate Hlen.
  cbn [map snd] in O. subst init_layers.
  exists l, a, b, c, d, e, f, g.
  exists {| layer_ship := a; layer_shot := b; layer_torpedo := c;
            layer_smoke := d; layer_plane := e; layer_ward := f;
            layer_capture := g |}.
  rewrite Ecs.
  split; [exact E |]. split; [exact C |].
  split; [reflexivity |]. split; [reflexivity |]. split; [reflexivity |].
  split; [reflexivity |].
  cbn [draw_order layer_capture layer_ward layer_shot layer_torpedo
       layer_ship layer_smoke layer_plane].
  apply (Permutation_trans (l' := [f; g; a; b; c; d; e])).
  - apply (Permutation_trans (l' := [g; f; a; b; c; d; e])).
    + do 2 apply perm_skip.
      apply (Permutation_trans (l' := [b; a; c; d; e]));
        [apply perm_skip, perm_swap | apply perm_swap].
    + apply perm_swap.
  - change [f; g; a; b; c; d; e] with ([f; g] ++ [a; b; c; d; e]).
    change [a; b; c; d; e; f; g] with ([a; b; c; d; e] ++ [f; g]).
    apply Permutation_app_comm.
Qed.

(** C8: a version-specific lookup that misses (module or attribute not
    found) does not raise: the role resolves to the default class
    [<role>Base], with no effect on the session.  Hence, when every lookup
    that fails is such a miss and the constructors return, the registry
    returns its seven objects, having instantiated for each role the
    version's class where the lookup gave one and [<role>Base] where it
    missed. *)
Theorem version_miss_uses_default version :
  (forall layer e w,
      In layer layers ->
      versioned_class site version layer = Raise e ->
      missing_layer e = true ->
      exists w',
        resolve_layer site (PACKAGE ++ ".versions." ++ version)%string layer w
          = (w', Ok (layer ++ "Base")%string) /\
        self w' = self w /\ store w' = store w) /\
  (forall w,
      game_version (replay_data (self w)) = version ->
      (forall c s st, is_ok (snd (construct X c s st)) = true) ->
      (forall layer e,
          In layer layers ->
          versioned_class site version layer = Raise e ->
          missing_layer e = true) ->
      exists w' init_layers l,
        _check_versioned_layers X site w = (w', Ok init_layers) /\
        log w' = log w ++ l /\
        List.length init_layers = 7%nat /\
        map fst (constructed l)
        = map (fun layer =>
                 match versioned_class site version layer with
                 | Ok c => c
                 | Raise _ => (layer ++ "Base")%string
                 end) layers).
Proof.
  split.
  - intros layer e w Hin Ev Hmiss.
    destruct (resolve_layer site (PACKAGE ++ ".versions." ++ version)%string
                            layer w) as [w' r] eqn:Hr.
    destruct (resolve_layer_spec _ _ _ _ _ Hr) as (Hs & Hst & ->).
    exists w'. unfold resolved_class. rewrite Ev, Hmiss.
    rewrite (default_class_of_layer layer Hin). repeat split; assumption.
  - intros w Hv Hctor Hmiss.
    assert (Hres : forall layer, In layer layers ->
              resolved_class site version layer =
              Ok match versioned_class site version layer with
                 | Ok c => c
                 | Raise _ => (layer ++ "Base")%string
                 end).
    { intros layer Hin. unfold resolved_class.
      destruct (versioned_class site version layer) as [c | e] eqn:Ev;
        [reflexivity |].
      rewrite (Hmiss layer e Hin Ev). apply default_class_of_layer, Hin. }
    assert (Hrun : exists w' objs,
              _check_versioned_layers X site w = (w', Ok objs)).
    { unfold _check_versioned_layers, bind, get_self, info, call_site.
      rewrite Hv. apply init_each_runs; [assumption |].
      intros layer Hin. rewrite (Hres layer Hin). reflexivity. }
    destruct Hrun as (w' & objs & Hrun).
    destruct (check_versioned_layers_spec _ _ _ Hrun)
      as (l & E & _ & _ & O & C).
    rewrite Hv in C.
    assert (Hcls : map fst (constructed l)
                   = map (fun layer =>
                            match versioned_class site version layer with
                            | Ok c => c
                            | Raise _ => (layer ++ "Base")%string
                            end) layers).
    { rewrite (map_ext_in _ _ _ Hres) in C.
      rewrite <- (map_map _ Ok) in C.
      rewrite <- (map_map fst Ok) in C.
      symmetry. apply map_Ok_inj. exact C. }
    exists w', objs, l. repeat split; try assumption.
    rewrite O, length_map.
    rewrite <- (length_map fst), Hcls, length_map. reflexivity.
Qed.
End Run.

(** ** The model at work *)

(** A replay of two events renders to two frames, in order. *)
Lemma frames_follow_events_witness :
  let w := Example.initial
             (Example.replay "0_11_6" "spaces/16_OC_bees_to_honey" [3; 8]) in
  let run := start (Example.world (fun _ => false)) Example.site_versioned w in
  snd run = Ok tt /\
  sent_frames (log (fst run)) = [[Byte.x11]; [Byte.x14]] /\
  exists setup ly video_writer fg bg fs,
    log (fst run) =
      (log w ++ setup
       ++ frames_events ly video_writer fg bg
            (keys (events (replay_data (self w)))) fs
       ++ [(CClose video_writer, Returned)])%list /\
    sent_frames setup = [] /\
    List.length fs = List.length (events (replay_data (self w))) /\
    sent_frames
      (setup
       ++ frames_events ly video_writer fg bg
            (keys (events (replay_data (self w)))) fs
       ++ [(CClose video_writer, Returned)])%list
    = map pixels fs /\
    List.length (map pixels fs)
    = List.length (events (replay_data (self w))).
Proof.
  intros w run.
  assert (Hok : snd run = Ok tt) by (vm_compute; reflexivity).
  split; [exact Hok |]. split; [vm_compute; reflexivity |].
  apply (frames_follow_events (Example.world (fun _ => false))
           Example.site_versioned w (fst run)).
  rewrite <- Hok. apply surjective_pairing.
Defined.

(** One pass of the loop, on a session whose map is loaded. *)
Lemma frame_draws_in_order_witness :
  let ly := {| layer_ship := 8; layer_shot := 9; layer_torpedo := 10;
               layer_smoke := 11; layer_plane := 12; layer_ward := 13;
               layer_capture := 14 |}%nat in
  let w := {| self := set_minimap_image 7%nat
                        (set_minimap_bg 4%nat
                           (Example.session Example.f0_2347));
              store := 16%nat; log := [] |} in
  let run := frame (Example.world (fun _ => false)) ly 15%nat 5 w in
  snd run = Ok tt /\
  exists fg bg minimap_img minimap_bg_copy draw b,
    minimap_image (self w) = Some fg /\ minimap_bg (self w) = Some bg /\
    log (fst run) =
      (log w
       ++ [ (CCopy fg, ReturnedObj minimap_img);
            (CCopy bg, ReturnedObj minimap_bg_copy);
            (CImageDraw minimap_img, ReturnedObj draw);
            (CLayerDraw (layer_capture ly) 5 minimap_img, Returned);
            (CLayerDraw (layer_ward ly) 5 minimap_img, Returned);
            (CLayerDraw (layer_shot ly) 5 draw, Returned);
            (CLayerDraw (layer_torpedo ly) 5 draw, Returned);
            (CLayerDraw (layer_ship ly) 5 minimap_img, Returned);
            (CLayerDraw (layer_smoke ly) 5 minimap_img, Returned);
            (CLayerDraw (layer_plane ly) 5 minimap_img, Returned);
            (CPaste minimap_bg_copy minimap_img (Some (40, 40)) None,
             Returned);
            (CToBytes minimap_bg_copy, ReturnedBytes b);
            (CSend 15%nat (Some b), Returned) ])%list.
Proof.
  intros ly w run.
  assert (Hok : snd run = Ok tt) by (vm_compute; reflexivity).
  split; [exact Hok |].
  apply (frame_draws_in_order (Example.world (fun _ => false))
           ly 15%nat 5 w (fst run)).
  rewrite <- Hok. apply surjective_pairing.
Defined.

(** The registry on version 0_11_6, which overrides the ship layer. *)
Lemma registry_order_and_draw_order_witness :
  let w := Example.initial
             (Example.replay "0_11_6" "spaces/16_OC_bees_to_honey" []) in
  let run := _check_versioned_layers (Example.world (fun _ => false))
               Example.site_versioned w in
  snd run = Ok [0; 1; 2; 3; 4; 5; 6]%nat /\
  exists l ship shot torpedo smoke plane ward capture ly,
    log (fst run) = (log w ++ l)%list /\
    map (resolved_class Example.site_versioned
           (game_version (replay_data (self w)))) layers
      = map (fun co => Ok (fst co)) (constructed l) /\
    map snd (constructed l) = [0; 1; 2; 3; 4; 5; 6]%nat /\
    [0; 1; 2; 3; 4; 5; 6]%nat
      = [ship; shot; torpedo; smoke; plane; ward; capture] /\
    unpack_layers [0; 1; 2; 3; 4; 5; 6]%nat = Ok ly /\
    draw_order ly = [capture; ward; shot; torpedo; ship; smoke; plane] /\
    Permutation (draw_order ly) [0; 1; 2; 3; 4; 5; 6]%nat.
Proof.
  intros w run.
  assert (Hok : snd run = Ok [0; 1; 2; 3; 4; 5; 6]%nat)
    by (vm_compute; reflexivity).
  split; [exact Hok |].
  apply (proj2 (registry_order_and_draw_order
                  (Example.world (fun _ => false)) Example.site_versioned
                  w (fst run) [0; 1; 2; 3; 4; 5; 6]%nat
                  (eq_trans (surjective_pairing run)
                            (f_equal (pair (fst run)) Hok)))).
Defined.

(** The roles are resolved Ship first and Capture last, and there are
    seven of them; a frame draws Capture first and Plane last. *)
Lemma registry_order_differs_from_draw_order :
  let w := Example.initial
             (Example.replay "0_11_6" "spaces/16_OC_bees_to_honey" [5]) in
  let run := start (Example.world (fun _ => false)) Example.site_versioned w in
  let cs := constructed (log (fst run)) in
  snd run = Ok tt /\
  map fst cs = [ "LayerShip_0_11_6"; "LayerShotBase"; "LayerTorpedoBase";
                 "LayerSmokeBase"; "LayerPlaneBase"; "LayerWardBase";
                 "LayerCaptureBase" ] /\
  map (class_of cs) (drawn (log (fst run)))
    = [ Some "LayerCaptureBase"; Some "LayerWardBase"; Some "LayerShotBase";
        Some "LayerTorpedoBase"; Some "LayerShip_0_11_6";
        Some "LayerSmokeBase"; Some "LayerPlaneBase" ] /\
  map Some (map fst cs) <> map (class_of cs) (drawn (log (fst run))) /\
  List.length layers = 7%nat /\ List.length cs <> 15%nat.
Proof.
  vm_compute. repeat split; discriminate.
Qed.

(** Version 0_11_6 overrides the ship layer only: the six other lookups
    miss on the attribute, and the registry returns seven layers, six of
    them instances of the default classes. *)
Lemma version_miss_uses_default_witness :
  let w := Example.initial
             (Example.replay "0_11_6" "spaces/16_OC_bees_to_honey" []) in
  (exists w',
      resolve_layer Example.site_versioned "renderer.versions.0_11_6"
                    "LayerWard" w
        = (w', Ok "LayerWardBase") /\
      self w' = self w /\ store w' = store w) /\
  exists w' init_layers l,
    _check_versioned_layers (Example.world (fun _ => false))
      Example.site_versioned w = (w', Ok init_layers) /\
    log w' = (log w ++ l)%list /\
    List.length init_layers = 7%nat /\
    map fst (constructed l)
    = map (fun layer =>
             match versioned_class Example.site_versioned "0_11_6" layer with
             | Ok c => c
             | Raise _ => (layer ++ "Base")%string
             end) layers.
Proof.
  intros w.
  assert (Hmiss : forall layer e,
             In layer layers ->
             versioned_class Example.site_versioned "0_11_6" layer = Raise e ->
             missing_layer e = true).
  { intros layer e Hin.
    destruct Hin as [<- | Hin]; [vm_compute; discriminate |].
    repeat (destruct Hin as [<- | Hin];
            [vm_compute; intros H; injection H as <-; reflexivity |]).
    destruct Hin. }
  destruct (version_miss_uses_default (Example.world (fun _ => false))
              Example.site_versioned "0_11_6") as [Hone Hall].
  split.
  - apply (Hone "LayerWard" AttributeError w).
    + simpl. tauto.
    + reflexivity.
    + reflexivity.
  - apply (Hall w).
    + reflexivity.
    + intros c s st. reflexivity.
    + exact Hmiss.
Defined.

(** A layer raises while the second frame is composed: the writer has
    been created and primed and one frame has been sent, the exception
    leaves [start], and the log holds no call of [close]. *)
Lemma writer_left_open_on_failure :
  let w := Example.initial
             (Example.replay "0_11_6" "spaces/16_OC_bees_to_honey" [0; 1]) in
  let run := start (Example.world (Z.eqb 1)) Example.site_versioned w in
  snd run = Raise (ExternalError "draw") /\
  In (CWriteFrames (writer_params (840, 840)), ReturnedObj 15%nat)
     (log (fst run)) /\
  In (CSend 15%nat None, Returned) (log (fst run)) /\
  sent_frames (log (fst run)) = [[Byte.x11]] /\
  existsb is_close (log (fst run)) = false.
Proof.
  vm_compute. repeat split; auto 60.
Qed.

(** * More of the code *)

(** ** The coordinate transform under negation, and what it raises *)


Section MoreTransform.
Context {Snapshot : Type}.
Implicit Types self : Renderer Snapshot.

(** X1: [get_scaled_r] is an odd function of a float radius.  When
    scaling the radius gives a number that is not a NaN, scaling the
    negated radius gives its negation, bit for bit; when it gives a NaN,
    scaling the negated radius gives a NaN (of which sign is not said);
    when it raises, scaling the negated radius raises the same
    exception.  A float radius is never handed to a sequence. *)
Theorem get_scaled_r_odd self (r : spec_float) :
  match get_scaled_r self (PFloat r) with
  | Ok (Product v) =>
      if is_nan v
      then exists v',
             get_scaled_r self (py_neg (PFloat r)) = Ok (Product v') /\
             is_nan v' = true
      else get_scaled_r self (py_neg (PFloat r)) = Ok (Product (py_neg v))
  | Ok (Repeated _ _) => False
  | Raise e => get_scaled_r self (py_neg (PFloat r)) = Raise e
  end.
Proof.
  assert (Hr : forall r0,
            get_scaled_r self (PFloat r0)
            = (s <- as_number (scaling self) ;;
               p <- py_mul (PFloat r0) s ;;
               Ok (Product p))%result).
  { intros r0. unfold get_scaled_r. destruct (scaling self); reflexivity. }
  cbn [py_neg]. rewrite !Hr.
  destruct (as_number (scaling self)) as [s |]; cbn [rbind]; [| reflexivity].
  cbn [py_mul to_float rbind].
  destruct (to_float s) as [f |]; cbn [rbind]; [| reflexivity].
  rewrite mul_opp_l.
  destruct (Float64.mul r f) as [b | b | | b m e]; cbn [is_nan];
    try reflexivity.
  exists (PFloat S754_nan). split; reflexivity.
Qed.

(** A manifest entry whose third value is a [str] fails the checks and
    stays in [scaling]: an int radius is then handed to the [str] for
    repetition, and a float radius raises [TypeError]. *)
Lemma get_scaled_r_on_a_str_scale :
  let self := set_manifest (JInt 760) (JInt 720) (JStr "ab")
                (__init__ (Example.replay "0_11_6"
                             "spaces/01_solomon_islands" [])) in
  get_scaled_r self (PInt 3) = Ok (Repeated 3 (JStr "ab")) /\
  get_scaled_r self (PFloat Example.f1) = Raise TypeError.
Proof. split; reflexivity. Qed.

(** X2: with [flip_y] set, [get_scaled] of the mirrored point is
    [get_scaled] of the point itself without the flip. *)
Theorem flip_is_negation self x y :
  get_scaled self (x, py_neg y) true = get_scaled self (x, y) false.
Proof. unfold get_scaled. rewrite py_neg_involutive. reflexivity. Qed.

(** X3: on a session whose map is loaded (size 760, a float scale),
    [get_scaled] raises nothing but [ValueError] and [OverflowError], and
    it does raise [ValueError] on a NaN x coordinate. *)
Theorem get_scaled_raises self s :
  minimap_size self = JInt 760 -> scaling self = JFloat s ->
  (forall xy flip_y e,
      get_scaled self xy flip_y = Raise e ->
      e = ValueError \/ e = OverflowError) /\
  (forall y flip_y,
      get_scaled self (PFloat S754_nan, y) flip_y = Raise ValueError).
Proof.
  intros Hn Hs.
  assert (Haxis : forall w e, scaled_axis self w = Raise e ->
                    e = ValueError \/ e = OverflowError).
  { intros w e. unfold scaled_axis, unrounded_axis. rewrite Hs, Hn.
    cbn [as_number rbind].
    assert (Hp : (exists p, py_mul w (PFloat s) = Ok (PFloat p)) \/
                 py_mul w (PFloat s) = Raise OverflowError).
    { destruct w as [n | f]; cbn [py_mul to_float rbind].
      - destruct (Float64.is_finite (Float64.of_Z n)); cbn [rbind];
          [left; eexists; reflexivity | right; reflexivity].
      - left; eexists; reflexivity. }
    destruct Hp as [[p ->] | ->]; cbn [rbind].
    - change (py_truediv (PInt 760) (PInt 2))
        with (Ok (PFloat (Float64.of_Z 380))).
      cbn [rbind py_add to_float].
      destruct (Float64.add p (Float64.of_Z 380)); cbn [py_round];
        intros H; try discriminate; injection H as <-; tauto.
    - intros H; injection H as <-; tauto. }
  split.
  - intros [x y] flip e. unfold get_scaled.
    destruct (scaled_axis self x) as [px | ex] eqn:Ex; cbn [rbind].
    + destruct (scaled_axis self (if flip then py_neg y else y))
        as [py | ey] eqn:Ey; cbn [rbind]; intros H; [discriminate |].
      injection H as <-. exact (Haxis _ _ Ey).
    + intros H; injection H as <-. exact (Haxis _ _ Ex).
  - intros y flip. unfold get_scaled, scaled_axis, unrounded_axis.
    rewrite Hs, Hn. cbn [as_number rbind py_mul to_float].
    replace (Float64.mul S754_nan s) with S754_nan
      by (destruct s; reflexivity).
    reflexivity.
Qed.
End MoreTransform.

(** ** The manifest: what a load selects, and what a failure leaves *)

Section MoreManifest.
Context {Snapshot Store : Type}.
Variable site : Site.
Implicit Types w : World Snapshot Store.

(** X4: a successful load returns the package of the manifest that gave
    the entry: the version's package when the version's manifest has the
    map, having opened that manifest only; otherwise the default package,
    having opened both, the version's manifest file or the map in it being
    missing. *)
Theorem manifest_success_selects_package w w' p :
  let version := game_version (replay_data (self w)) in
  let key := game_map (replay_data (self w)) in
  res (self w) = PACKAGE ++ ".resources" ->
  _load_map_manifest site w = (w', Ok p) ->
  exists l,
    log w' = (log w ++ l)%list /\
    ((exists t,
         read_entry site (versioned_spaces version) key = Ok t /\
         p = versioned_spaces version ++ "." ++ key /\
         opened l = [(versioned_spaces version, "manifest.json")]) \/
     (exists t,
         (read_entry site (versioned_spaces version) key
            = Raise FileNotFoundError \/
          read_entry site (versioned_spaces version) key = Raise KeyError) /\
         read_entry site default_spaces key = Ok t /\
         p = default_spaces ++ "." ++ key /\
         opened l = [(versioned_spaces version, "manifest.json");
                     (default_spaces, "manifest.json")])).
Proof.
  intros version key Hres Hrun.
  destruct (load_map_manifest_cases site w w' (Ok p) Hres Hrun)
    as (l & Hl & _ & H).
  fold version key in H. exists l. split; [assumption |].
  destruct (read_entry site (versioned_spaces version) key)
    as [[[a b] c] | e] eqn:Ev.
  - destruct H as (Ho & _ & Hr). left. exists (a, b, c).
    destruct (valid_entry (a, b, c)); [| discriminate].
    injection Hr as ->. repeat split; assumption.
  - destruct (missing_manifest e) eqn:Em.
    + destruct H as (Ho & H).
      destruct (read_entry site default_spaces key) as [[[a b] c] | e'];
        [| destruct H as (_ & Hr); discriminate].
      destruct H as (_ & Hr). right. exists (a, b, c).
      destruct (valid_entry (a, b, c)); [| discriminate].
      injection Hr as ->.
      split; [destruct e; try discriminate; tauto |].
      repeat split; assumption.
    + destruct H as (_ & _ & Hr). discriminate.
Qed.

(** X5: a failed load touches neither the store nor the images of the
    session.  When no entry was unpacked the session is as it was; when an
    entry was unpacked and failed an assertion, its three values stay in
    [minimap_size], [space_size] and [scaling]. *)
Theorem manifest_failure_state w w' e :
  let version := game_version (replay_data (self w)) in
  let key := game_map (replay_data (self w)) in
  res (self w) = PACKAGE ++ ".resources" ->
  _load_map_manifest site w = (w', Raise e) ->
  store w' = store w /\
  match selected_entry site version key with
  | Ok (a, b, c) =>
      valid_entry (a, b, c) = false /\
      e = MapManifestLoadError AssertionError /\
      self w' = set_manifest a b c (self w)
  | Raise e' => e = MapManifestLoadError e' /\ self w' = self w
  end.
Proof.
  intros version key Hres Hrun.
  destruct (load_map_manifest_cases site w w' (Raise e) Hres Hrun)
    as (l & _ & Hst & H).
  fold version key in H. split; [assumption |]. unfold selected_entry.
  destruct (read_entry site (versioned_spaces version) key)
    as [[[a b] c] | e1].
  - destruct H as (_ & Hs & Hr).
    destruct (valid_entry (a, b, c)); [discriminate |].
    injection Hr as ->.
    split; [reflexivity | split; [reflexivity | assumption]].
  - destruct (missing_manifest e1).
    + destruct H as (_ & H).
      destruct (read_entry site default_spaces key) as [[[a b] c] | e2].
      * destruct H as (Hs & Hr).
        destruct (valid_entry (a, b, c)); [discriminate |].
        injection Hr as ->.
    split; [reflexivity | split; [reflexivity | assumption]].
      * destruct H as (Hs & Hr). injection Hr as ->. split; [reflexivity | assumption].
    + destruct H as (_ & Hs & Hr). injection Hr as ->. split; [reflexivity | assumption].
Qed.
End MoreManifest.

(** ** The map: its calls and its errors *)

Section MoreRun.
Local Open Scope list_scope.
Context {Snapshot Store : Type}.
Variable X : External Snapshot Store.
Variable site : Site.
Implicit Types w : World Snapshot Store.

Lemma emits_manifest_calls :
  emits is_manifest_call
    (_load_map_manifest (Snapshot := Snapshot) (Store := Store) site).
Proof.
  unfold _load_map_manifest, read_manifest, check_manifest, unpack_manifest.
  repeat emits_step.
Qed.

Lemma load_map_manifest_raises w w' e :
  _load_map_manifest site w = (w', Raise e) ->
  exists c, e = MapManifestLoadError c.
Proof.
  unfold _load_map_manifest. unfold bind at 1, get_self, try_except at 1.
  match goal with
  | |- context [match ?m w with pair _ _ => _ end] =>
      destruct (m w) as [w1 [p | c]]
  end.
  - discriminate.
  - unfold raise. intros H. injection H as _ <-. exists c. reflexivity.
Qed.

(** What [_load_map] does once the manifest has named the package. *)
Lemma load_map_after_manifest w w1 map_res w' r :
  _load_map_manifest site
    (fst (info "Looking for versioned map resource..." w)) = (w1, Ok map_res) ->
  _load_map X site w = (w', r) ->
  exists l,
    log w' = log w1 ++ l /\
    match r with
    | Ok _ =>
        exists legends land water c sz bg grid wg fg,
          l = [ (CLoadImage (res (self w1)) "minimap_grid_legends.png",
                 ReturnedObj legends);
                (CLoadImage map_res "minimap.png", ReturnedObj land);
                (CLoadImage map_res "minimap_water.png", ReturnedObj water);
                (CCopy water, ReturnedObj c);
                (CResize c sz, ReturnedObj bg);
                (CPaste bg legends None (Some legends), Returned);
                (CDrawGrid, ReturnedObj grid);
                (CAlphaComposite water grid, ReturnedObj wg);
                (CAlphaComposite wg land, ReturnedObj fg) ] /\
          self w' = set_minimap_image fg (set_minimap_bg bg (self w1))
    | Raise e =>
        exists l0 c e1,
          l = l0 ++ [(c, Raised e1)] /\
          forallb is_image_call l = true /\
          e = (if missing_resource e1 then MapLoadError e1 else e1)
    end.
Proof.
  intros Hm. unfold _load_map. unfold bind at 1.
  unfold info at 1, call_site at 1.
  unfold info, call_site in Hm. cbn [fst] in Hm.
  unfold bind at 1. rewrite Hm.
  unfold try_except, bind, get_self, call_obj, call_unit, peek, update_self,
    record, raise.
  intros H.
  repeat
    match type of H with
    | context [match ?f ?st with pair _ _ => _ end] =>
        let E := fresh "E" in
        destruct (f st) as [? [? | ?]] eqn:E; cbn [self store log fst] in H
    end.
  all: try (injection H as <- <-; eexists; cbn [log];
            repeat rewrite <- app_assoc; (split; [reflexivity |]);
            do 9 eexists; split; reflexivity).
  all: match type of H with
       | context [missing_resource ?e1] =>
           eexists; (split;
             [ destruct (missing_resource e1); injection H as <- _;
               cbn [log]; repeat rewrite <- app_assoc; reflexivity |]);
           destruct (missing_resource e1) eqn:Em; injection H as _ <-;
           first
             [ eexists [], _, e1; split; [reflexivity |]
             | eexists [_], _, e1; split; [reflexivity |]
             | eexists [_; _], _, e1; split; [reflexivity |]
             | eexists [_; _; _], _, e1; split; [reflexivity |]
             | eexists [_; _; _; _], _, e1; split; [reflexivity |]
             | eexists [_; _; _; _; _], _, e1; split; [reflexivity |]
             | eexists [_; _; _; _; _; _], _, e1; split; [reflexivity |]
             | eexists [_; _; _; _; _; _; _], _, e1; split; [reflexivity |]
             | eexists [_; _; _; _; _; _; _; _], _, e1;
               split; [reflexivity |] ];
           (split; [reflexivity | rewrite Em; reflexivity])
       end.
Qed.

Lemma manifest_ok_package w w' p :
  res (self w) = (PACKAGE ++ ".resources")%string ->
  _load_map_manifest site w = (w', Ok p) ->
  p = (versioned_spaces (game_version (replay_data (self w))) ++ "."
       ++ game_map (replay_data (self w)))%string \/
  p = (default_spaces ++ "." ++ game_map (replay_data (self w)))%string.
Proof.
  intros Hres Hrun.
  destruct (load_map_manifest_cases site w w' (Ok p) Hres Hrun)
    as (l & _ & _ & H).
  destruct (read_entry site _ _) as [[[a b] c] | e].
  - destruct H as (_ & _ & Hr).
    destruct (valid_entry (a, b, c)); [| discriminate].
    injection Hr as ->. left; reflexivity.
  - destruct (missing_manifest e).
    + destruct H as (_ & H).
      destruct (read_entry site default_spaces _) as [[[a b] c] | e'];
        destruct H as (_ & Hr); [| discriminate].
      destruct (valid_entry (a, b, c)); [| discriminate].
      injection Hr as ->. right; reflexivity.
    + destruct H as (_ & _ & Hr). discriminate.
Qed.

(** X6: when the manifests give no entry that passes the checks, [start]
    raises [MapManifestLoadError] having opened manifests and logged, and
    nothing else: no image is loaded, no layer is instantiated, no video
    writer is created, and the store is as it was. *)
Theorem invalid_manifest_stops_start w :
  res (self w) = (PACKAGE ++ ".resources")%string ->
  (forall t,
      selected_entry site (game_version (replay_data (self w)))
                     (game_map (replay_data (self w))) = Ok t ->
      valid_entry t = false) ->
  exists w' c l,
    start X site w = (w', Raise (MapManifestLoadError c)) /\
    log w' = log w ++ l /\
    forallb is_manifest_call l = true /\
    store w' = store w.
Proof.
  intros Hres Hbad.
  set (w0 := fst (info "Looking for versioned map resource..." w)).
  assert (Hres0 : res (self w0) = (PACKAGE ++ ".resources")%string)
    by exact Hres.
  destruct (_load_map_manifest site w0) as [w1 r] eqn:Hm.
  destruct (load_map_manifest_cases site w0 w1 r Hres0 Hm)
    as (l' & _ & Hst & H).
  destruct (emits_manifest_calls _ _ _ Hm) as (_ & l & Hl & Pl).
  change (game_version (replay_data (self w0)))
    with (game_version (replay_data (self w))) in H.
  change (game_map (replay_data (self w0)))
    with (game_map (replay_data (self w))) in H.
  assert (Hr : exists c, r = Raise (MapManifestLoadError c)).
  { unfold selected_entry in Hbad.
    destruct (read_entry site (versioned_spaces _) _) as [[[a b] c] | e].
    - destruct H as (_ & _ & ->). rewrite (Hbad _ eq_refl).
      eexists; reflexivity.
    - destruct (missing_manifest e).
      + destruct H as (_ & H).
        destruct (read_entry site default_spaces _) as [[[a b] c] | e'].
        * destruct H as (_ & ->). rewrite (Hbad _ eq_refl).
          eexists; reflexivity.
        * destruct H as (_ & ->). eexists; reflexivity.
      + destruct H as (_ & _ & ->). eexists; reflexivity. }
  destruct Hr as [c ->].
  exists w1, c, ((CInfo "Looking for versioned map resource...", Returned) :: l).
  split; [| split; [| split]].
  - unfold start, _load_map. unfold bind at 1. unfold bind at 1.
    unfold info at 1, call_site at 1. unfold bind at 1.
    unfold w0, info, call_site in Hm. cbn [fst] in Hm. rewrite Hm.
    reflexivity.
  - rewrite Hl. unfold w0, info, call_site, record. cbn [fst log].
    rewrite <- app_assoc. reflexivity.
  - cbn [forallb]. rewrite Pl. reflexivity.
  - rewrite Hst. reflexivity.
Qed.

(** X7: [_load_map] lets neither [FileNotFoundError] nor
    [ModuleNotFoundError] out.  What it raises is the
    [MapManifestLoadError] of the manifest, before any image call; or,
    after the manifest, what the last image call raised, wrapped in
    [MapLoadError] when that is one of the two and as it is otherwise. *)
Theorem load_map_error_classes w w' e :
  _load_map X site w = (w', Raise e) ->
  missing_resource e = false /\
  exists l,
    log w' = log w ++ l /\
    ((exists c, e = MapManifestLoadError c /\
                forallb is_manifest_call l = true) \/
     (exists l0 l1 c e1,
         l = l0 ++ l1 ++ [(c, Raised e1)] /\
         forallb is_manifest_call l0 = true /\
         forallb is_image_call (l1 ++ [(c, Raised e1)]) = true /\
         e = (if missing_resource e1 then MapLoadError e1 else e1))).
Proof.
  intros Hrun.
  set (w0 := fst (info "Looking for versioned map resource..." w)).
  assert (Hw0 : log w0
                = log w ++ [(CInfo "Looking for versioned map resource...",
                             Returned)]) by reflexivity.
  destruct (_load_map_manifest site w0) as [w1 [p | e0]] eqn:Hm.
  - destruct (emits_manifest_calls _ _ _ Hm) as (_ & l0 & Hl0 & P0).
    destruct (load_map_after_manifest _ _ _ _ _ Hm Hrun)
      as (l & Hl & l1 & c & e1 & -> & Pl & ->).
    split; [destruct (missing_resource e1) eqn:Em; try reflexivity; exact Em |].
    exists (((CInfo "Looking for versioned map resource...", Returned) :: l0)
            ++ l1 ++ [(c, Raised e1)]).
    split.
    + rewrite Hl, Hl0, Hw0. repeat rewrite <- app_assoc. reflexivity.
    + right. exists ((CInfo "Looking for versioned map resource...", Returned)
                     :: l0), l1, c, e1.
      repeat split; try assumption; cbn [forallb]; rewrite ?P0; reflexivity.
  - destruct (load_map_manifest_raises _ _ _ Hm) as [c ->].
    destruct (emits_manifest_calls _ _ _ Hm) as (_ & l0 & Hl0 & P0).
    assert (E : _load_map X site w = (w1, Raise (MapManifestLoadError c))).
    { unfold _load_map. unfold bind at 1.
      unfold info at 1, call_site at 1. unfold bind at 1.
      unfold w0, info, call_site in Hm. cbn [fst] in Hm. rewrite Hm.
      reflexivity. }
    rewrite E in Hrun. injection Hrun as <- <-.
    split; [reflexivity |].
    exists ((CInfo "Looking for versioned map resource...", Returned) :: l0).
    split.
    + rewrite Hl0, Hw0. rewrite <- app_assoc. reflexivity.
    + left. exists c. split; [reflexivity |]. cbn [forallb]. rewrite P0.
      reflexivity.
Qed.

(** X8: a successful [_load_map] has, after the manifest, made exactly
    these calls: the legends loaded from the default resources, land and
    water from the package that the manifest selected; a copy of the water
    resized to the size of the legends, which becomes [minimap_bg], and
    the legends pasted on it with themselves as mask; the grid composited
    over the water and the land over that, which becomes
    [minimap_image]. *)
Theorem load_map_builds_templates w w' :
  res (self w) = (PACKAGE ++ ".resources")%string ->
  _load_map X site w = (w', Ok tt) ->
  exists l0 map_res legends land water c sz bg grid wg fg,
    forallb is_manifest_call l0 = true /\
    (map_res = (versioned_spaces (game_version (replay_data (self w)))
                ++ "." ++ game_map (replay_data (self w)))%string \/
     map_res = (default_spaces ++ "."
                ++ game_map (replay_data (self w)))%string) /\
    log w' =
      log w ++ l0
      ++ [ (CLoadImage (PACKAGE ++ ".resources")%string
                       "minimap_grid_legends.png", ReturnedObj legends);
           (CLoadImage map_res "minimap.png", ReturnedObj land);
           (CLoadImage map_res "minimap_water.png", ReturnedObj water);
           (CCopy water, ReturnedObj c);
           (CResize c sz, ReturnedObj bg);
           (CPaste bg legends None (Some legends), Returned);
           (CDrawGrid, ReturnedObj grid);
           (CAlphaComposite water grid, ReturnedObj wg);
           (CAlphaComposite wg land, ReturnedObj fg) ] /\
    minimap_bg (self w') = Some bg /\
    minimap_image (self w') = Some fg.
Proof.
  intros Hres Hrun.
  set (w0 := fst (info "Looking for versioned map resource..." w)).
  assert (Hw0 : log w0
                = log w ++ [(CInfo "Looking for versioned map resource...",
                             Returned)]) by reflexivity.
  assert (Hres0 : res (self w0) = (PACKAGE ++ ".resources")%string)
    by exact Hres.
  destruct (_load_map_manifest site w0) as [w1 [p | e0]] eqn:Hm.
  - destruct (emits_manifest_calls _ _ _ Hm) as (_ & l0 & Hl0 & P0).
    destruct (load_map_after_manifest _ _ _ _ _ Hm Hrun)
      as (l & Hl & legends & land & water & c & sz & bg & grid & wg & fg
          & -> & Hs).
    assert (Hres1 : res (self w1) = (PACKAGE ++ ".resources")%string).
    { destruct (load_map_manifest_cases site w0 w1 (Ok p) Hres0 Hm)
        as (l' & _ & _ & H).
      destruct (read_entry site (versioned_spaces _) _) as [[[x y] z] | e].
      - destruct H as (_ & -> & _). exact Hres0.
      - destruct (missing_manifest e).
        + destruct H as (_ & H).
          destruct (read_entry site default_spaces _) as [[[x y] z] | e'].
          * destruct H as (-> & _). exact Hres0.
          * destruct H as (_ & Hr). discriminate.
        + destruct H as (_ & _ & Hr). discriminate. }
    rewrite Hres1 in Hl.
    exists ((CInfo "Looking for versioned map resource...", Returned) :: l0),
      p, legends, land, water, c, sz, bg, grid, wg, fg.
    split; [cbn [forallb]; rewrite P0; reflexivity |].
    split; [exact (manifest_ok_package w0 w1 p Hres0 Hm) |].
    split; [| rewrite Hs; split; reflexivity].
    rewrite Hl, Hl0, Hw0. repeat rewrite <- app_assoc. reflexivity.
  - exfalso.
    assert (E : _load_map X site w = (w1, Raise e0)).
    { unfold _load_map. unfold bind at 1.
      unfold info at 1, call_site at 1. unfold bind at 1.
      unfold w0, info, call_site in Hm. cbn [fst] in Hm. rewrite Hm.
      reflexivity. }
    rewrite E in Hrun. discriminate.
Qed.
End MoreRun.

(** ** The registry: its trace and its failures *)

Section MoreRegistry.
Local Open Scope list_scope.
Context {Snapshot Store : Type}.
Variable X : External Snapshot Store.
Variable site : Site.
Implicit Types w : World Snapshot Store.

(** X9: the registry logs a message for a role exactly when the version's
    package gave its class, and imports the default package for a role
    exactly when the version's lookup missed (module or attribute not
    found): a miss leaves no message. *)
Theorem resolve_layer_trace version layer w w' r :
  resolve_layer site (PACKAGE ++ ".versions." ++ version)%string layer w
    = (w', r) ->
  exists l,
    log w' = log w ++ l /\
    (existsb is_info l = true <->
     exists c, versioned_class site version layer = Ok c) /\
    (existsb is_default_import l = true <->
     exists e, versioned_class site version layer = Raise e /\
               missing_layer e = true).
Proof.
  unfold resolve_layer, versioned_layer, default_layer, versioned_class,
    try_except, bind, call_site, lift, info, ret.
  destruct (import_module site ".layers"
              (PACKAGE ++ ".versions." ++ version)%string) as [m | e];
    cbn [rbind].
  - destruct (getattr m layer) as [c | e]; cbn [rbind].
    + intros H; injection H as <- _. eexists. unfold record. cbn [log].
      rewrite <- app_assoc. split; [reflexivity |]. split.
      * split; [intros _; eexists; reflexivity | reflexivity].
      * split; [discriminate | intros (e & He & _); discriminate].
    + destruct (missing_layer e) eqn:Em.
      * destruct (import_module site ".layers" PACKAGE) as [m' | e'];
          cbn [rbind]; intros H; injection H as <- _; eexists;
          unfold record; cbn [log];
          rewrite <- app_assoc; (split; [reflexivity |]); split;
          try (split; [discriminate | intros (c & Hc); discriminate]);
          (split; [intros _; exists e; split; [reflexivity | assumption]
                  | reflexivity]).
      * intros H; injection H as <- _. eexists. unfold record. cbn [log].
        split; [reflexivity |]. split.
        -- split; [discriminate | intros (c & Hc); discriminate].
        -- split; [discriminate |].
           intros (e0 & He & Hm). injection He as <-. congruence.
  - destruct (missing_layer e) eqn:Em.
    + destruct (import_module site ".layers" PACKAGE) as [m' | e'];
        cbn [rbind]; intros H; injection H as <- _; eexists;
        unfold record; cbn [log];
        rewrite <- app_assoc; (split; [reflexivity |]); split;
        try (split; [discriminate | intros (c & Hc); discriminate]);
        (split; [intros _; exists e; split; [reflexivity | assumption]
                | reflexivity]).
    + intros H; injection H as <- _. eexists. unfold record. cbn [log].
      split; [reflexivity |]. split.
      * split; [discriminate | intros (c & Hc); discriminate].
      * split; [discriminate |].
        intros (e0 & He & Hm). injection He as <-. congruence.
Qed.

Lemma resolved_class_of_layer version layer :
  In layer layers ->
  resolved_class site version layer =
  match versioned_class site version layer with
  | Ok c => Ok c
  | Raise e => if missing_layer e then Ok (layer ++ "Base")%string
               else Raise e
  end.
Proof.
  intros Hin. unfold resolved_class.
  destruct (versioned_class site version layer) as [c | e]; [reflexivity |].
  destruct (missing_layer e); [| reflexivity].
  apply default_class_of_layer, Hin.
Qed.

Lemma init_each_step version layer todo acc w c :
  (forall c s st, is_ok (snd (construct X c s st)) = true) ->
  resolved_class site version layer = Ok c ->
  exists acc' w',
    init_each X site (PACKAGE ++ ".versions." ++ version)%string
              (layer :: todo) acc w
    = init_each X site (PACKAGE ++ ".versions." ++ version)%string
                todo acc' w'.
Proof.
  intros Hctor Hc. cbn [init_each]. unfold bind at 1.
  destruct (resolve_layer site _ layer w) as [w1 r] eqn:Hr.
  destruct (resolve_layer_spec _ _ _ _ _ _ Hr) as (_ & _ & ->).
  rewrite Hc. unfold bind at 1, get_self. unfold bind at 1, call_obj.
  pose proof (Hctor c (self w1) (store w1)) as Ho.
  destruct (construct X c (self w1) (store w1)) as [st [o | e]];
    [| discriminate].
  eexists _, _. reflexivity.
Qed.

Lemma init_each_stop version layer todo acc w e :
  resolved_class site version layer = Raise e ->
  snd (init_each X site (PACKAGE ++ ".versions." ++ version)%string
                 (layer :: todo) acc w) = Raise e.
Proof.
  intros He. cbn [init_each]. unfold bind at 1.
  destruct (resolve_layer site _ layer w) as [w1 r] eqn:Hr.
  destruct (resolve_layer_spec _ _ _ _ _ _ Hr) as (_ & _ & ->).
  rewrite He. reflexivity.
Qed.

Lemma init_each_first_unresolved version todo :
  (forall c s st, is_ok (snd (construct X c s st)) = true) ->
  forall acc w,
    match first_unresolved site version todo with
    | Some e =>
        snd (init_each X site (PACKAGE ++ ".versions." ++ version)%string
                       todo acc w) = Raise e
    | None =>
        is_ok (snd (init_each X site
                      (PACKAGE ++ ".versions." ++ version)%string
                      todo acc w)) = true
    end.
Proof.
  intros Hctor. induction todo as [| layer todo IH]; intros acc w.
  - reflexivity.
  - cbn [first_unresolved].
    destruct (resolved_class site version layer) as [c | e] eqn:Ec.
    + destruct (init_each_step version layer todo acc w c Hctor Ec)
        as (acc' & w' & ->).
      apply IH.
    + apply init_each_stop. assumption.
Qed.

Lemma first_unresolved_in version todo e :
  first_unresolved site version todo = Some e ->
  exists layer, In layer todo /\ resolved_class site version layer = Raise e.
Proof.
  induction todo as [| layer todo IH]; cbn [first_unresolved];
    [discriminate |].
  destruct (resolved_class site version layer) as [c | e'] eqn:Er.
  - intros H. destruct (IH H) as (l & Hin & Hl).
    exists l. split; [right; assumption | assumption].
  - intros H; injection H as <-. exists layer.
    split; [left; reflexivity | assumption].
Qed.

(** X10: when the constructors return, the registry fails only through a
    version-specific lookup that raises something other than
    [ModuleNotFoundError] and [AttributeError]: it then raises the
    exception of the first such role, in the order of [layers]; when there
    is no such role it returns its objects. *)
Theorem registry_fails_on_broken_import w :
  (forall c s st, is_ok (snd (construct X c s st)) = true) ->
  let version := game_version (replay_data (self w)) in
  match first_unresolved site version layers with
  | Some e =>
      snd (_check_versioned_layers X site w) = Raise e /\
      exists layer,
        In layer layers /\
        versioned_class site version layer = Raise e /\
        missing_layer e = false
  | None =>
      is_ok (snd (_check_versioned_layers X site w)) = true /\
      forall layer e,
        In layer layers ->
        versioned_class site version layer = Raise e ->
        missing_layer e = true
  end.
Proof.
  intros Hctor version.
  pose proof (init_each_first_unresolved version layers Hctor []
                (fst (info "Looking for versioned layers" w))) as H.
  assert (E : _check_versioned_layers X site w
              = init_each X site (PACKAGE ++ ".versions." ++ version)%string
                          layers []
                          (fst (info "Looking for versioned layers" w)))
    by reflexivity.
  rewrite E.
  destruct (first_unresolved site version layers) as [e |] eqn:Ef.
  - split; [exact H |].
    destruct (first_unresolved_in _ _ _ Ef) as (layer & Hin & Hr).
    exists layer. split; [assumption |].
    rewrite (resolved_class_of_layer _ _ Hin) in Hr.
    destruct (versioned_class site version layer) as [c | e0];
      [discriminate |].
    destruct (missing_layer e0) eqn:Em; [discriminate |].
    injection Hr as <-. split; [reflexivity | assumption].
  - split; [exact H |].
    intros layer e Hin Ev.
    destruct (missing_layer e) eqn:Em; [reflexivity |]. exfalso.
    assert (Hr : resolved_class site version layer = Raise e).
    { rewrite (resolved_class_of_layer _ _ Hin), Ev, Em. reflexivity. }
    clear - Ef Hin Hr. revert Ef Hin. generalize layers.
    induction l as [| x xs IH]; cbn [first_unresolved In]; [tauto |].
    intros Ef [-> | Hin].
    + rewrite Hr in Ef. discriminate.
    + destruct (resolved_class site version x); [| discriminate].
      exact (IH Ef Hin).
Qed.
End MoreRegistry.

(** ** Runs that complete *)

Ltac call_returns H :=
  match goal with
  | |- context [match ?f ?st with pair _ _ => _ end] =>
      let Hok := fresh "Hok" in
      assert (Hok : is_ok (snd (f st)) = true) by (apply H);
      destruct (f st) as [? [? | ?]]; [clear Hok | discriminate Hok];
      cbn [self store log fst snd]
  end.

Section Progress.
Local Open Scope list_scope.
Context {Snapshot Store : Type}.
Variable X : External Snapshot Store.
Variable site : Site.
Implicit Types w : World Snapshot Store.

Lemma manifest_runs w t :
  res (self w) = (PACKAGE ++ ".resources")%string ->
  selected_entry site (game_version (replay_data (self w)))
                 (game_map (replay_data (self w))) = Ok t ->
  valid_entry t = true ->
  exists w' p, _load_map_manifest site w = (w', Ok p).
Proof.
  intros Hres Hsel Hvalid.
  destruct (_load_map_manifest site w) as [w' r] eqn:Hrun.
  destruct (load_map_manifest_cases site w w' r Hres Hrun)
    as (l & _ & _ & H).
  unfold selected_entry in Hsel. exists w'.
  destruct (read_entry site (versioned_spaces _) _) as [[[a b] c] | e].
  - injection Hsel as <-. destruct H as (_ & _ & ->). rewrite Hvalid.
    eexists; reflexivity.
  - destruct (missing_manifest e); [| discriminate].
    destruct H as (_ & H). rewrite Hsel in H. destruct t as [[a b] c].
    destruct H as (_ & ->). rewrite Hvalid. eexists; reflexivity.
Qed.

Lemma frame_runs ly video_writer game_time w fg bg :
  never_raises X ->
  minimap_image (self w) = Some fg -> minimap_bg (self w) = Some bg ->
  exists w', frame X ly video_writer game_time w = (w', Ok tt) /\
             self w' = self w.
Proof.
  intros (N1 & N2 & N3 & N4 & N5 & N6 & N7 & N8 & N9 & N10 & N11 & N12 & N13)
         Hfg Hbg.
  unfold frame, draw_layer, bind, get_self, deref, call_obj, call_unit,
    call_bytes, ret, raise, record.
  rewrite Hfg. call_returns N2. rewrite Hbg. call_returns N2.
  call_returns N7.
  do 7 call_returns N10.
  call_returns N4. call_returns N8. call_returns N12.
  eexists. split; reflexivity.
Qed.

Lemma frames_runs ly video_writer fg bg ts : forall w,
  never_raises X ->
  minimap_image (self w) = Some fg -> minimap_bg (self w) = Some bg ->
  exists w', for_each ts (frame X ly video_writer) w = (w', Ok tt).
Proof.
  induction ts as [| t ts IH]; intros w Hn Hfg Hbg.
  - exists w. reflexivity.
  - destruct (frame_runs ly video_writer t w fg bg Hn Hfg Hbg)
      as (w1 & Hf & Hs).
    rewrite <- Hs in Hfg, Hbg.
    destruct (IH w1 Hn Hfg Hbg) as (w' & Hl).
    exists w'. cbn [for_each]. unfold bind. rewrite Hf. exact Hl.
Qed.

Lemma load_map_runs w w1 p :
  never_raises X ->
  _load_map_manifest site
    (fst (info "Looking for versioned map resource..." w)) = (w1, Ok p) ->
  exists w', _load_map X site w = (w', Ok tt).
Proof.
  intros (N1 & N2 & N3 & N4 & N5 & N6 & N7 & N8 & N9 & N10 & N11 & N12 & N13)
         Hm.
  unfold _load_map. unfold bind at 1.
  unfold info at 1, call_site at 1.
  unfold info, call_site in Hm. cbn [fst] in Hm.
  unfold bind at 1. rewrite Hm.
  unfold try_except, bind, get_self, call_obj, call_unit, peek, update_self,
    record, raise.
  do 3 call_returns N1. call_returns N2. call_returns N3. call_returns N4.
  call_returns N5. do 2 call_returns N6.
  eexists. reflexivity.
Qed.

(** X11: [start] completes whenever the manifests give an entry that
    passes the checks, no version-specific lookup raises anything but
    [ModuleNotFoundError] or [AttributeError], and no collaborator
    raises. *)
Theorem start_completes w t :
  never_raises X ->
  res (self w) = (PACKAGE ++ ".resources")%string ->
  selected_entry site (game_version (replay_data (self w)))
                 (game_map (replay_data (self w))) = Ok t ->
  valid_entry t = true ->
  first_unresolved site (game_version (replay_data (self w))) layers = None ->
  exists w', start X site w = (w', Ok tt).
Proof.
  intros Hn Hres Hsel Hvalid Hreg.
  set (w0 := fst (info "Looking for versioned map resource..." w)).
  destruct (manifest_runs w0 t Hres Hsel Hvalid) as (w1 & p & Hm).
  destruct (load_map_runs w w1 p Hn Hm) as (w2 & Hmap).
  destruct (load_map_after_manifest X site w w1 p w2 (Ok tt) Hm Hmap)
    as (l & _ & legends & land & water & c & sz & bg & grid & wg & fg
        & _ & Hs2).
  destruct (emits_load_map X site _ _ _ Hmap) as (D2 & _).
  assert (Hctor : forall c s st, is_ok (snd (construct X c s st)) = true)
    by (destruct Hn as (_ & _ & _ & _ & _ & _ & _ & _ & N9 & _); exact N9).
  pose proof (init_each_first_unresolved X site
                (game_version (replay_data (self w2))) layers Hctor []
                (fst (info "Looking for versioned layers" w2))) as Hr.
  rewrite D2, Hreg in Hr.
  assert (Ereg : _check_versioned_layers X site w2
                 = init_each X site
                     (PACKAGE ++ ".versions."
                      ++ game_version (replay_data (self w)))%string
                     layers []
                     (fst (info "Looking for versioned layers" w2))).
  { unfold _check_versioned_layers, bind, get_self, info, call_site.
    rewrite D2. reflexivity. }
  rewrite <- Ereg in Hr.
  destruct (_check_versioned_layers X site w2) as [w3 [init | e]] eqn:Hc;
    [| discriminate].
  destruct (check_versioned_layers_spec X site _ _ _ Hc)
    as (l3 & _ & S3 & _ & O3 & C3).
  assert (Hlen : List.length (constructed l3) = 7%nat).
  { apply (f_equal (@List.length _)) in C3. rewrite !length_map in C3.
    rewrite <- C3. reflexivity. }
  assert (Hunpack : exists ly, unpack_layers init = Ok ly).
  { rewrite O3.
    destruct (constructed l3)
      as [| [c1 a1] [| [c2 a2] [| [c3 a3] [| [c4 a4] [| [c5 a5] [| [c6 a6]
          [| [c7 a7] [| x rest]]]]]]]]; try discriminate Hlen.
    eexists. reflexivity. }
  destruct Hunpack as (ly & Hly).
  assert (Hfg : minimap_image (self w3) = Some fg)
    by (rewrite S3, Hs2; reflexivity).
  assert (Hbg : minimap_bg (self w3) = Some bg)
    by (rewrite S3, Hs2; reflexivity).
  assert (Hstream : exists w', stream X ly w3 = (w', Ok tt)).
  { unfold stream, bind at 1, get_self. unfold bind at 1, deref.
    rewrite Hbg. unfold ret. unfold bind at 1, peek. unfold bind at 1.
    destruct Hn as (N1 & N2 & N3 & N4 & N5 & N6 & N7 & N8 & N9 & N10 & N11
                    & N12 & N13).
    unfold call_obj at 1. call_returns N11.
    unfold bind at 1, call_unit at 1. cbn [store record].
    call_returns N12.
    unfold bind at 1.
    match goal with
    | |- context [for_each ?ts (frame X ly ?vw) ?w4] =>
        destruct (frames_runs ly vw fg bg ts w4) as (w5 & Hloop);
        [ repeat split; assumption | exact Hfg | exact Hbg | ]
    end.
    rewrite Hloop. unfold call_unit. call_returns N13.
    eexists. reflexivity. }
  destruct Hstream as (w' & Hstream).
  exists w'. unfold start. unfold bind at 1. rewrite Hmap.
  unfold bind at 1, get_self. rewrite Hs2.
  cbn [minimap_image minimap_bg set_minimap_image set_minimap_bg truthy].
  unfold bind at 1, assert, ret. unfold bind at 1.
  unfold bind at 1. rewrite Hc. unfold bind at 1, lift. rewrite Hly.
  exact Hstream.
Qed.
End Progress.

(** ** What the video writer and the layers see *)

Section Protocol.
Local Open Scope list_scope.
Context {Snapshot Store : Type}.
Variable X : External Snapshot Store.
Variable site : Site.
Implicit Types w : World Snapshot Store.

Lemma emits_map_calls :
  emits (fun ev => is_manifest_call ev || is_image_call ev)
        (_load_map X site).
Proof.
  unfold _load_map, _load_map_manifest, read_manifest, check_manifest,
    unpack_manifest.
  repeat emits_step.
Qed.

(** The stages of a run of [start] that completes. *)
Lemma start_ok_inv w w' :
  start X site w = (w', Ok tt) ->
  exists l1 l2 init_layers ly fg bg video_writer sz fs,
    forallb (fun ev => is_manifest_call ev || is_image_call ev) l1 = true /\
    forallb is_setup l2 = true /\
    init_layers = map snd (constructed l2) /\
    unpack_layers init_layers = Ok ly /\
    List.length fs = List.length (keys (events (replay_data (self w)))) /\
    log w' =
      log w ++ l1 ++ l2
      ++ [ (CWriteFrames (writer_params sz), ReturnedObj video_writer);
           (CSend video_writer None, Returned) ]
      ++ frames_events ly video_writer fg bg
           (keys (events (replay_data (self w)))) fs
      ++ [(CClose video_writer, Returned)].
Proof.
  unfold start. intros H.
  apply bind_ok_inv in H. destruct H as ([] & w1 & Hmap & H).
  destruct (emits_map_calls _ _ _ Hmap) as (D1 & l1 & E1 & P1).
  apply bind_ok_inv in H. destruct H as (s & w1' & Hs & H).
  injection Hs as <- <-.
  apply bind_ok_inv in H. destruct H as ([] & w1' & Ha & H).
  apply assert_ok_inv in Ha. destruct Ha as [Hfg ->].
  apply bind_ok_inv in H. destruct H as ([] & w1' & Ha & H).
  apply assert_ok_inv in Ha. destruct Ha as [Hbg ->].
  apply bind_ok_inv in H. destruct H as (init_layers & w2 & Hreg & H).
  destruct (check_versioned_layers_spec _ _ _ _ _ Hreg)
    as (l2 & E2 & S2 & P2 & O2 & _).
  apply bind_ok_inv in H. destruct H as (ly & w2' & Hly & H).
  unfold lift in Hly.
  assert (Hly' : unpack_layers init_layers = Ok ly /\ w2' = w2)
    by (split; congruence).
  destruct Hly' as [Hunpack ->].
  destruct (minimap_image (self w1)) as [fg |] eqn:Efg; [| discriminate].
  rewrite <- S2 in Efg.
  destruct (stream_spec _ _ _ _ _ H Efg) as (bg & vw & fs & Ebg & Hlen & El).
  rewrite S2, D1 in Hlen, El.
  exists l1, l2, init_layers, ly, fg, bg, vw, (img_size X bg (store w2)), fs.
  repeat split; try assumption.
  - unfold keys. rewrite length_map. exact Hlen.
  - rewrite El, E2, E1. repeat rewrite <- app_assoc. reflexivity.
Qed.

Lemma writer_events_app l1 l2 :
  writer_events (l1 ++ l2) = writer_events l1 ++ writer_events l2.
Proof. unfold writer_events. apply filter_app. Qed.

Lemma writer_events_none (p : event -> bool) l :
  (forall ev, p ev = true -> is_writer_call ev = false) ->
  forallb p l = true -> writer_events l = [].
Proof.
  intros Hp. induction l as [| ev l IH]; cbn [forallb writer_events filter];
    [reflexivity |].
  rewrite andb_true_iff. intros [Hev Hl]. rewrite (Hp ev Hev).
  exact (IH Hl).
Qed.

Lemma writer_events_frames ly video_writer fg bg ts : forall fs,
  List.length fs = List.length ts ->
  writer_events (frames_events ly video_writer fg bg ts fs)
  = map (fun f => (CSend video_writer (Some (pixels f)), Returned)) fs.
Proof.
  unfold frames_events.
  induction ts as [| t ts IH]; intros [| f fs] Hlen; try discriminate.
  - reflexivity.
  - cbn [combine flat_map fst snd]. rewrite writer_events_app.
    injection Hlen as Hlen. rewrite (IH fs Hlen). reflexivity.
Qed.

(** X12: what the video writer sees of a run of [start] that completes:
    its creation for "minimap.mp4" at 20 frames a second, quality 9, RGBA
    input and macro blocks of 20; one [send(None)]; one [send] for each
    event of the replay, in order, all on that writer; one [close].  With
    no events it is created, primed and closed. *)
Theorem writer_protocol w w' :
  start X site w = (w', Ok tt) ->
  exists l video_writer sz frames,
    log w' = log w ++ l /\
    List.length frames = List.length (events (replay_data (self w))) /\
    writer_events l =
      (CWriteFrames {| path := "minimap.mp4"; fps := 20; quality := 9;
                       pix_fmt_in := "rgba"; macro_block_size := 20;
                       size := sz |}, ReturnedObj video_writer)
      :: (CSend video_writer None, Returned)
      :: map (fun b => (CSend video_writer (Some b), Returned)) frames
      ++ [(CClose video_writer, Returned)].
Proof.
  intros H.
  destruct (start_ok_inv _ _ H)
    as (l1 & l2 & init & ly & fg & bg & vw & sz & fs
        & P1 & P2 & _ & _ & Hlen & El).
  eexists _, vw, sz, (map pixels fs).
  split; [exact El |]. split.
  - rewrite length_map, Hlen. unfold keys. apply length_map.
  - rewrite !writer_events_app.
    rewrite (writer_events_none
               (fun ev => is_manifest_call ev || is_image_call ev) l1
               ltac:(intros [[] o] Hev;
                      first [ reflexivity | discriminate Hev
                            | simpl in Hev; discriminate Hev ]) P1).
    rewrite (writer_events_none is_setup l2
               ltac:(intros [[] o] Hev;
                      first [ reflexivity | discriminate Hev
                            | simpl in Hev; discriminate Hev ]) P2).
    rewrite (writer_events_frames _ _ _ _ _ _ Hlen).
    rewrite map_map. reflexivity.
Qed.

Lemma constructed_none (p : event -> bool) l :
  (forall c o, p (CConstruct c, o) = false) ->
  forallb p l = true -> constructed l = [].
Proof.
  intros Hp. induction l as [| [c o] l IH]; cbn [forallb]; [reflexivity |].
  rewrite andb_true_iff. intros [Hev Hl].
  cbn [constructed flat_map]. fold (constructed l). rewrite (IH Hl).
  destruct c; try reflexivity. rewrite Hp in Hev. discriminate.
Qed.

Lemma constructed_frames ly video_writer fg bg ts : forall fs,
  constructed (frames_events ly video_writer fg bg ts fs) = [].
Proof.
  unfold frames_events.
  induction ts as [| t ts IH]; intros [| f fs]; try reflexivity.
  cbn [combine flat_map fst snd]. rewrite constructed_app, IH. reflexivity.
Qed.

Lemma drawn_at_app l1 l2 :
  drawn_at (l1 ++ l2) = drawn_at l1 ++ drawn_at l2.
Proof. unfold drawn_at. apply flat_map_app. Qed.

Lemma drawn_at_none (p : event -> bool) l :
  (forall a b c o, p (CLayerDraw a b c, o) = false) ->
  forallb p l = true -> drawn_at l = [].
Proof.
  intros Hp. induction l as [| [c o] l IH]; cbn [forallb]; [reflexivity |].
  rewrite andb_true_iff. intros [Hev Hl].
  cbn [drawn_at flat_map]. fold (drawn_at l). rewrite (IH Hl).
  destruct c; try reflexivity. rewrite Hp in Hev. discriminate.
Qed.

Lemma drawn_at_frames ly video_writer fg bg ts : forall fs,
  List.length fs = List.length ts ->
  drawn_at (frames_events ly video_writer fg bg ts fs)
  = flat_map (fun t => map (fun o => (o, t)) (draw_order ly)) ts.
Proof.
  unfold frames_events.
  induction ts as [| t ts IH]; intros [| f fs] Hlen; try discriminate.
  - reflexivity.
  - cbn [combine flat_map fst snd]. rewrite drawn_at_app.
    injection Hlen as Hlen. rewrite (IH fs Hlen). reflexivity.
Qed.

(** X13: in a run of [start] that completes, seven layers are instantiated,
    once, and every frame draws these same seven objects, each once and
    with the timestamp of the frame, the frames following the events of
    the replay. *)
Theorem layers_built_once_drawn_every_frame w w' :
  start X site w = (w', Ok tt) ->
  exists l ly,
    log w' = log w ++ l /\
    map snd (constructed l)
    = [ layer_ship ly; layer_shot ly; layer_torpedo ly; layer_smoke ly;
        layer_plane ly; layer_ward ly; layer_capture ly ] /\
    drawn_at l
    = flat_map (fun t => map (fun o => (o, t)) (draw_order ly))
               (keys (events (replay_data (self w)))).
Proof.
  intros H.
  destruct (start_ok_inv _ _ H)
    as (l1 & l2 & init & ly & fg & bg & vw & sz & fs
        & P1 & P2 & Hinit & Hunpack & Hlen & El).
  eexists _, ly. split; [exact El |]. split.
  - rewrite !constructed_app.
    rewrite (constructed_none
               (fun ev => is_manifest_call ev || is_image_call ev) l1
               ltac:(reflexivity) P1).
    rewrite constructed_frames. cbn [constructed flat_map app].
    rewrite app_nil_r, <- Hinit.
    unfold unpack_layers in Hunpack.
    destruct init as [| a [| b [| c [| d [| e [| f [| g [| x rest]]]]]]]];
      try discriminate.
    injection Hunpack as <-. reflexivity.
  - rewrite !drawn_at_app.
    rewrite (drawn_at_none
               (fun ev => is_manifest_call ev || is_image_call ev) l1
               ltac:(reflexivity) P1).
    rewrite (drawn_at_none is_setup l2 ltac:(reflexivity) P2).
    rewrite (drawn_at_frames _ _ _ _ _ _ Hlen).
    cbn [drawn_at flat_map app]. apply app_nil_r.
Qed.
End Protocol.

(** ** Runs that stop early *)

Lemma bind_inv {W A B : Type} (m : M W A) (k : A -> M W B)
    (w w' : W) (r : result B) :
  bind m k w = (w', r) ->
  (exists a w1, m w = (w1, Ok a) /\ k a w1 = (w', r)) \/
  (exists e, m w = (w', Raise e) /\ r = Raise e).
Proof.
  unfold bind. destruct (m w) as [w1 [a | e]]; intros H.
  - left. exists a, w1. split; [reflexivity | assumption].
  - right. injection H as <- <-. exists e. split; reflexivity.
Qed.

Section Partial.
Local Open Scope list_scope.
Context {Snapshot Store : Type}.
Variable X : External Snapshot Store.
Variable site : Site.
Implicit Types w : World Snapshot Store.

Lemma frame_raises ly video_writer game_time w w' e :
  frame X ly video_writer game_time w = (w', Raise e) ->
  exists l, log w' = log w ++ l /\ sent_frames l = [].
Proof.
  unfold frame, draw_layer, bind, get_self, deref, call_obj, call_unit,
    call_bytes, ret, raise, record.
  intros H.
  assert (Hdone : forall (w0 : World Snapshot Store) l,
            log w0 = log w ++ l -> sent_frames l = [] ->
            (w0, @Raise unit e) = (w', Raise e) ->
            exists l, log w' = log w ++ l /\ sent_frames l = []).
  { intros w0 l Hl Hs E. injection E as <-. exists l. split; assumption. }
  destruct (minimap_image (self w)) as [fg |].
  2: { injection H as <- _. exists []. rewrite app_nil_r.
       split; reflexivity. }
  destruct (minimap_bg (self w)) as [bg |] eqn:Ebg.
  - repeat
      match type of H with
      | context [match ?f ?st with pair _ _ => _ end] =>
          destruct (f st) as [? [? | ?]]; cbn [self store log] in H;
          try rewrite Ebg in H;
          [| injection H as <- _; eexists; cbn [log];
             repeat rewrite <- app_assoc; split; reflexivity ]
      end.
    discriminate H.
  - destruct (img_copy X fg (store w)) as [st [o | e0]];
      cbn [self store log] in H; try rewrite Ebg in H;
      injection H as <- _; eexists; cbn [log]; split; reflexivity.
Qed.

Lemma frames_raise ly video_writer fg bg ts : forall w w' e,
  for_each ts (frame X ly video_writer) w = (w', Raise e) ->
  minimap_image (self w) = Some fg -> minimap_bg (self w) = Some bg ->
  exists k fs tail,
    (k < List.length ts)%nat /\ List.length fs = k /\
    log w' = log w ++ frames_events ly video_writer fg bg (firstn k ts) fs
             ++ tail /\
    sent_frames tail = [].
Proof.
  induction ts as [| t ts IH]; intros w w' e H Hfg Hbg; cbn [for_each] in H.
  - discriminate.
  - apply bind_inv in H. destruct H as [([] & w1 & Hf & H) | (e0 & Hf & _)].
    + destruct (frame_spec _ _ _ _ _ _ Hf)
        as (fg' & bg' & f & Efg & Ebg & El & Es).
      rewrite Hfg in Efg. injection Efg as <-.
      rewrite Hbg in Ebg. injection Ebg as <-.
      rewrite <- Es in Hfg, Hbg.
      destruct (IH _ _ _ H Hfg Hbg) as (k & fs & tail & Hk & Hlen & El' & Ht).
      exists (S k), (f :: fs), tail. repeat split.
      * cbn [List.length]. lia.
      * cbn [List.length]. rewrite Hlen. reflexivity.
      * rewrite El', El. unfold frames_events.
        cbn [firstn combine flat_map fst snd].
        repeat rewrite <- app_assoc. reflexivity.
      * assumption.
    + destruct (frame_raises _ _ _ _ _ _ Hf) as (l & El & Hs).
      exists 0%nat, [], l. repeat split.
      * cbn [List.length]. lia.
      * rewrite El. reflexivity.
      * assumption.
Qed.

Lemma stream_any ly w w' r fg :
  stream X ly w = (w', r) -> minimap_image (self w) = Some fg ->
  exists pre video_writer bg k fs tail,
    log w' =
      log w ++ pre
      ++ frames_events ly video_writer fg bg
           (firstn k (keys (events (replay_data (self w))))) fs
      ++ tail /\
    List.length fs = k /\
    (k <= List.length (keys (events (replay_data (self w)))))%nat /\
    sent_frames pre = [] /\ sent_frames tail = [] /\
    (is_ok r = true ->
     k = List.length (keys (events (replay_data (self w))))).
Proof.
  intros H Hfg. destruct r as [[] | e].
  { destruct (stream_spec _ _ _ _ _ H Hfg) as (bg & vw & fs & Ebg & Hlen & El).
    assert (Hlen' : List.length fs
                    = List.length (keys (events (replay_data (self w)))))
      by (unfold keys; rewrite length_map; exact Hlen).
    exists [ (CWriteFrames (writer_params (img_size X bg (store w))),
               ReturnedObj vw);
              (CSend vw None, Returned) ],
      vw, bg, (List.length fs), fs, [(CClose vw, Returned)].
    split; [| repeat split].
    - rewrite El. rewrite firstn_all2 by lia. reflexivity.
    - lia.
    - intros _. exact Hlen'. }
  assert (Hearly : forall l,
            log w' = log w ++ l -> sent_frames l = [] ->
            exists pre video_writer bg k fs tail,
              log w' =
                log w ++ pre
                ++ frames_events ly video_writer fg bg
                     (firstn k (keys (events (replay_data (self w))))) fs
                ++ tail /\
              List.length fs = k /\
              (k <= List.length (keys (events (replay_data (self w)))))%nat /\
              sent_frames pre = [] /\ sent_frames tail = [] /\
              (is_ok (@Raise unit e) = true ->
               k = List.length (keys (events (replay_data (self w)))))).
  { intros l El Hl. exists l, 0%nat, 0%nat, 0%nat, [], [].
    cbn [firstn frames_events combine flat_map List.length app].
    rewrite app_nil_r. repeat split; try assumption; try lia.
    intros D. discriminate D. }
  unfold stream in H.
  apply bind_inv in H. destruct H as [(s & w1 & Hs & H) | (e0 & Hs & _)];
    [| discriminate Hs].
  injection Hs as <- <-.
  apply bind_inv in H. destruct H as [(bg & w1 & Hbg & H) | (e0 & Hbg & _)].
  2: { unfold deref in Hbg. destruct (minimap_bg (self w)); [discriminate |].
       injection Hbg as <- _. apply (Hearly []); [| reflexivity].
       rewrite app_nil_r. reflexivity. }
  destruct (minimap_bg (self w)) as [bg' |] eqn:Ebg; [| discriminate].
  injection Hbg as <- <-.
  apply bind_inv in H. destruct H as [(sz & w1 & Hsz & H) | (e0 & Hsz & _)];
    [| discriminate Hsz].
  injection Hsz as <- <-.
  apply bind_inv in H. destruct H as [(vw & w1 & Hvw & H) | (e0 & Hvw & _)];
    unfold call_obj in Hvw;
    destruct (write_frames X _ (store w)) as [st1 [o | e1]];
    try discriminate.
  2: { injection Hvw as <- _.
       eapply Hearly; [unfold record; cbn [log]; reflexivity | reflexivity]. }
  injection Hvw as <- <-.
  apply bind_inv in H. destruct H as [([] & w2 & Hsend & H) | (e0 & Hsend & _)];
    unfold call_unit in Hsend; cbn [store record] in Hsend;
    destruct (gen_send X o None st1) as [st2 [[] | e1]];
    try discriminate.
  2: { injection Hsend as <- _.
       eapply Hearly;
         [ unfold record; cbn [log]; rewrite <- app_assoc; reflexivity
         | reflexivity ]. }
  injection Hsend as <-.
  apply bind_inv in H. destruct H as [([] & w3 & Hloop & H) | (e0 & Hloop & _)].
  - destruct (frames_spec _ ly o fg bg' _ _ _ Hloop Hfg Ebg)
      as (fs & Hlen & El & Es).
    unfold call_unit in H.
    destruct (gen_close X o (store w3)) as [st3 [[] | e1]]; [discriminate |].
    injection H as <- _.
    exists [ (CWriteFrames (writer_params (img_size X bg' (store w))),
               ReturnedObj o);
              (CSend o None, Returned) ],
      o, bg', (List.length fs), fs, [(CClose o, Raised e1)].
    split; [| repeat split].
    + cbn [log record self] in *. rewrite El. cbn [log].
      rewrite firstn_all2 by lia.
      repeat rewrite <- app_assoc. reflexivity.
    + lia.
    + intros D. discriminate D.
  - destruct (frames_raise ly o fg bg' _ _ _ _ Hloop Hfg Ebg)
      as (k & fs & tail & Hk & Hlen & El & Ht).
    exists [ (CWriteFrames (writer_params (img_size X bg' (store w))),
               ReturnedObj o);
              (CSend o None, Returned) ],
      o, bg', k, fs, tail.
    split; [| repeat split].
    + cbn [log record self] in *. rewrite El. cbn [log].
      repeat rewrite <- app_assoc. reflexivity.
    + exact Hlen.
    + lia.
    + exact Ht.
    + intros D. discriminate D.
Qed.

(** X14: whatever the outcome of [start], the frames that reached the
    video writer are those of the first [k] events of the replay, in
    order, each composed in full: what comes before them and what comes
    after them in the log sends no frame.  A run that completes has sent
    one frame for every event. *)
Theorem sent_frames_are_a_prefix w w' r :
  start X site w = (w', r) ->
  exists pre ly video_writer fg bg k fs tail,
    log w' =
      log w ++ pre
      ++ frames_events ly video_writer fg bg
           (firstn k (keys (events (replay_data (self w))))) fs
      ++ tail /\
    List.length fs = k /\
    (k <= List.length (events (replay_data (self w))))%nat /\
    sent_frames pre = [] /\ sent_frames tail = [] /\
    sent_frames
      (pre
       ++ frames_events ly video_writer fg bg
            (firstn k (keys (events (replay_data (self w))))) fs
       ++ tail) = map pixels fs /\
    (is_ok r = true -> k = List.length (events (replay_data (self w)))).
Proof.
  intros H.
  assert (Hshape : forall ly video_writer fg bg pre k fs tail,
            log w' =
              log w ++ pre
              ++ frames_events ly video_writer fg bg
                   (firstn k (keys (events (replay_data (self w))))) fs
              ++ tail ->
            List.length fs = k ->
            (k <= List.length (keys (events (replay_data (self w)))))%nat ->
            sent_frames pre = [] -> sent_frames tail = [] ->
            (is_ok r = true ->
             k = List.length (keys (events (replay_data (self w))))) ->
            exists pre ly video_writer fg bg k fs tail,
              log w' =
                log w ++ pre
                ++ frames_events ly video_writer fg bg
                     (firstn k (keys (events (replay_data (self w))))) fs
                ++ tail /\
              List.length fs = k /\
              (k <= List.length (events (replay_data (self w))))%nat /\
              sent_frames pre = [] /\ sent_frames tail = [] /\
              sent_frames
                (pre
                 ++ frames_events ly video_writer fg bg
                      (firstn k (keys (events (replay_data (self w))))) fs
                 ++ tail) = map pixels fs /\
              (is_ok r = true ->
               k = List.length (events (replay_data (self w))))).
  { intros ly vw fg bg pre k fs tail El Hlen Hk Hp Ht Hr.
    unfold keys in Hk, Hr. rewrite length_map in Hk, Hr.
    exists pre, ly, vw, fg, bg, k, fs, tail.
    repeat split; try assumption.
    rewrite !sent_frames_app, Hp, Ht, app_nil_r. cbn [app].
    apply sent_frames_frames. rewrite length_firstn.
    unfold keys. rewrite length_map. lia. }
  assert (Hearly : forall l,
            log w' = log w ++ l -> forallb is_setup l = true ->
            is_ok r = false ->
            exists pre ly video_writer fg bg k fs tail,
              log w' =
                log w ++ pre
                ++ frames_events ly video_writer fg bg
                     (firstn k (keys (events (replay_data (self w))))) fs
                ++ tail /\
              List.length fs = k /\
              (k <= List.length (events (replay_data (self w))))%nat /\
              sent_frames pre = [] /\ sent_frames tail = [] /\
              sent_frames
                (pre
                 ++ frames_events ly video_writer fg bg
                      (firstn k (keys (events (replay_data (self w))))) fs
                 ++ tail) = map pixels fs /\
              (is_ok r = true ->
               k = List.length (events (replay_data (self w))))).
  { intros l El Hl Hr.
    apply (Hshape (Build_Layers 0 0 0 0 0 0 0)%nat 0%nat 0%nat 0%nat
             l 0%nat [] []).
    - cbn [firstn frames_events combine flat_map app].
      rewrite app_nil_r. exact El.
    - reflexivity.
    - lia.
    - apply sent_frames_setup. exact Hl.
    - reflexivity.
    - rewrite Hr. intros D. discriminate D. }
  unfold start in H.
  apply bind_inv in H. destruct H as [([] & w1 & Hmap & H) | (e0 & Hmap & ->)].
  2: { destruct (emits_load_map _ _ _ _ _ Hmap) as (_ & l & El & Hl).
       apply (Hearly l); [assumption | assumption | reflexivity]. }
  destruct (emits_load_map _ _ _ _ _ Hmap) as (D1 & l1 & E1 & P1).
  apply bind_inv in H. destruct H as [(s & w1' & Hs & H) | (e0 & Hs & _)];
    [| discriminate Hs].
  injection Hs as <- <-.
  apply bind_inv in H. destruct H as [([] & w1' & Ha & H) | (e0 & Ha & ->)].
  2: { unfold assert in Ha. destruct (truthy (minimap_image (self w1)));
         [discriminate |]. injection Ha as <- _.
       apply (Hearly l1); [assumption | assumption | reflexivity]. }
  apply assert_ok_inv in Ha. destruct Ha as [Hfg ->].
  apply bind_inv in H. destruct H as [([] & w1' & Ha & H) | (e0 & Ha & ->)].
  2: { unfold assert in Ha. destruct (truthy (minimap_bg (self w1)));
         [discriminate |]. injection Ha as <- _.
       apply (Hearly l1); [assumption | assumption | reflexivity]. }
  apply assert_ok_inv in Ha. destruct Ha as [Hbg ->].
  apply bind_inv in H.
  destruct H as [(init_layers & w2 & Hreg & H) | (e0 & Hreg & ->)].
  2: { destruct (emits_check_versioned_layers _ _ _ _ _ Hreg)
         as (_ & l & El & Hl).
       apply (Hearly (l1 ++ l)).
       - rewrite El, E1, <- app_assoc. reflexivity.
       - rewrite forallb_app, P1, Hl. reflexivity.
       - reflexivity. }
  destruct (check_versioned_layers_spec _ _ _ _ _ Hreg)
    as (l2 & E2 & S2 & P2 & _ & _).
  apply bind_inv in H. destruct H as [(ly & w2' & Hly & H) | (e0 & Hly & ->)].
  2: { unfold lift in Hly. injection Hly as <- _.
       apply (Hearly (l1 ++ l2)).
       - rewrite E2, E1, <- app_assoc. reflexivity.
       - rewrite forallb_app, P1, P2. reflexivity.
       - reflexivity. }
  unfold lift in Hly. injection Hly as <- _.
  destruct (minimap_image (self w1)) as [fg |] eqn:Efg; [| discriminate].
  rewrite <- S2 in Efg.
  destruct (stream_any _ _ _ _ _ H Efg)
    as (pre & vw & bg & k & fs & tail & El & Hlen & Hk & Hp & Ht & Hr).
  rewrite S2, D1 in El, Hk, Hr.
  apply (Hshape ly vw fg bg (l1 ++ l2 ++ pre) k fs tail);
    try assumption.
  - rewrite El, E2, E1. repeat rewrite <- app_assoc. reflexivity.
  - rewrite !sent_frames_app, (sent_frames_setup _ P1),
      (sent_frames_setup _ P2), Hp. reflexivity.
Qed.
End Partial.

(** ** More of the model at work *)

(** A session on the Solomon Islands at scale 0.2347: nothing but the two
    exceptions comes out of [get_scaled], and each of them does. *)
Lemma get_scaled_raises_witness :
  let self := Example.session Example.f0_2347 in
  get_scaled self (PFloat (S754_infinity false), PInt 0) false
    = Raise OverflowError /\
  (forall xy flip_y e,
      get_scaled self xy flip_y = Raise e ->
      e = ValueError \/ e = OverflowError) /\
  (forall y flip_y,
      get_scaled self (PFloat S754_nan, y) flip_y = Raise ValueError).
Proof.
  intros self. split; [vm_compute; reflexivity |].
  apply (get_scaled_raises self Example.f0_2347); reflexivity.
Defined.

(** Version 0_11_6 has the map in its own manifest: the load returns the
    version's package and has opened that manifest only. *)
Lemma manifest_success_selects_package_witness :
  let w := Example.initial
             (Example.replay "0_11_6" "spaces/16_OC_bees_to_honey" []) in
  let run := _load_map_manifest Example.site_versioned w in
  let version := game_version (replay_data (self w)) in
  let key := game_map (replay_data (self w)) in
  snd run
    = Ok "renderer.versions.0_11_6.resources.spaces.spaces/16_OC_bees_to_honey"
  /\
  exists l,
    log (fst run) = (log w ++ l)%list /\
    ((exists t,
         read_entry Example.site_versioned (versioned_spaces version) key
           = Ok t /\
         "renderer.versions.0_11_6.resources.spaces.spaces/16_OC_bees_to_honey"
           = versioned_spaces version ++ "." ++ key /\
         opened l = [(versioned_spaces version, "manifest.json")]) \/
     (exists t,
         (read_entry Example.site_versioned (versioned_spaces version) key
            = Raise FileNotFoundError \/
          read_entry Example.site_versioned (versioned_spaces version) key
            = Raise KeyError) /\
         read_entry Example.site_versioned default_spaces key = Ok t /\
         "renderer.versions.0_11_6.resources.spaces.spaces/16_OC_bees_to_honey"
           = default_spaces ++ "." ++ key /\
         opened l = [(versioned_spaces version, "manifest.json");
                     (default_spaces, "manifest.json")])).
Proof.
  intros w run version key.
  assert (Hok : snd run
                = Ok "renderer.versions.0_11_6.resources.spaces.spaces/16_OC_bees_to_honey")
    by (vm_compute; reflexivity).
  split; [exact Hok |].
  apply (manifest_success_selects_package Example.site_versioned w (fst run)).
  - reflexivity.
  - rewrite <- Hok. apply surjective_pairing.
Defined.

(** The entry of version 0_11_6 for the Solomon Islands has an integer
    scale: the load fails on the assertion, and the three values of the
    entry stay in the session. *)
Lemma manifest_failure_state_witness :
  let w := Example.initial
             (Example.replay "0_11_6" "spaces/01_solomon_islands" []) in
  let run := _load_map_manifest Example.site_versioned w in
  snd run = Raise (MapManifestLoadError AssertionError) /\
  scaling (self (fst run)) = JInt 1 /\
  store (fst run) = store w /\
  match selected_entry Example.site_versioned "0_11_6"
          "spaces/01_solomon_islands" with
  | Ok (a, b, c) =>
      valid_entry (a, b, c) = false /\
      MapManifestLoadError AssertionError
        = MapManifestLoadError AssertionError /\
      self (fst run) = set_manifest a b c (self w)
  | Raise e' =>
      MapManifestLoadError AssertionError = MapManifestLoadError e' /\
      self (fst run) = self w
  end.
Proof.
  intros w run.
  assert (Hr : snd run = Raise (MapManifestLoadError AssertionError))
    by (vm_compute; reflexivity).
  split; [exact Hr |]. split; [vm_compute; reflexivity |].
  apply (manifest_failure_state Example.site_versioned w (fst run)
           (MapManifestLoadError AssertionError)).
  - reflexivity.
  - rewrite <- Hr. apply surjective_pairing.
Defined.

(** The same replay, run: [start] stops at the manifest. *)
Lemma invalid_manifest_stops_start_witness :
  let w := Example.initial
             (Example.replay "0_11_6" "spaces/01_solomon_islands" [3; 8]) in
  exists w' c l,
    start (Example.world (fun _ => false)) Example.site_versioned w
      = (w', Raise (MapManifestLoadError c)) /\
    log w' = (log w ++ l)%list /\
    forallb is_manifest_call l = true /\
    store w' = store w.
Proof.
  intros w.
  apply (invalid_manifest_stops_start (Example.world (fun _ => false))
           Example.site_versioned w).
  - reflexivity.
  - intros t Ht. vm_compute in Ht. injection Ht as <-. reflexivity.
Defined.

(** The water image of the map is missing: [_load_map] raises
    [MapLoadError], after the manifest and two images that loaded. *)
Lemma load_map_error_classes_witness :
  let w := Example.initial
             (Example.replay "0_11_6" "spaces/16_OC_bees_to_honey" []) in
  let X := Scenario.world Scenario.no_water in
  let run := _load_map X Example.site_versioned w in
  snd run = Raise (MapLoadError FileNotFoundError) /\
  missing_resource (MapLoadError FileNotFoundError) = false /\
  exists l,
    log (fst run) = (log w ++ l)%list /\
    ((exists c, MapLoadError FileNotFoundError = MapManifestLoadError c /\
                forallb is_manifest_call l = true) \/
     (exists l0 l1 c e1,
         l = (l0 ++ l1 ++ [(c, Raised e1)])%list /\
         forallb is_manifest_call l0 = true /\
         forallb is_image_call (l1 ++ [(c, Raised e1)]) = true /\
         MapLoadError FileNotFoundError
         = (if missing_resource e1 then MapLoadError e1 else e1))).
Proof.
  intros w X run.
  assert (Hr : snd run = Raise (MapLoadError FileNotFoundError))
    by (vm_compute; reflexivity).
  split; [exact Hr |].
  apply (load_map_error_classes X Example.site_versioned w (fst run)).
  rewrite <- Hr. apply surjective_pairing.
Defined.

(** The land image does not decode: the error of the image library comes
    out of [_load_map] as it is. *)
Lemma undecodable_image_is_not_wrapped :
  let w := Example.initial
             (Example.replay "0_11_6" "spaces/16_OC_bees_to_honey" []) in
  snd (_load_map (Scenario.world Scenario.bad_land) Example.site_versioned w)
    = Raise (ExternalError "UnidentifiedImageError").
Proof. vm_compute. reflexivity. Qed.

(** A map of version 0_11_6 loads: the nine image calls, and the two
    templates. *)
Lemma load_map_builds_templates_witness :
  let w := Example.initial
             (Example.replay "0_11_6" "spaces/16_OC_bees_to_honey" []) in
  let X := Example.world (fun _ => false) in
  let run := _load_map X Example.site_versioned w in
  snd run = Ok tt /\
  exists l0 map_res legends land water c sz bg grid wg fg,
    forallb is_manifest_call l0 = true /\
    (map_res = (versioned_spaces (game_version (replay_data (self w)))
                ++ "." ++ game_map (replay_data (self w)))%string \/
     map_res = (default_spaces ++ "."
                ++ game_map (replay_data (self w)))%string) /\
    log (fst run) =
      (log w ++ l0
       ++ [ (CLoadImage (PACKAGE ++ ".resources")%string
                        "minimap_grid_legends.png", ReturnedObj legends);
            (CLoadImage map_res "minimap.png", ReturnedObj land);
            (CLoadImage map_res "minimap_water.png", ReturnedObj water);
            (CCopy water, ReturnedObj c);
            (CResize c sz, ReturnedObj bg);
            (CPaste bg legends None (Some legends), Returned);
            (CDrawGrid, ReturnedObj grid);
            (CAlphaComposite water grid, ReturnedObj wg);
            (CAlphaComposite wg land, ReturnedObj fg) ])%list /\
    minimap_bg (self (fst run)) = Some bg /\
    minimap_image (self (fst run)) = Some fg.
Proof.
  intros w X run.
  assert (Hok : snd run = Ok tt) by (vm_compute; reflexivity).
  split; [exact Hok |].
  apply (load_map_builds_templates X Example.site_versioned w (fst run)).
  - reflexivity.
  - rewrite <- Hok. apply surjective_pairing.
Defined.

(** Version 0_11_6 overrides [LayerShip]: a message, and no import of the
    default package. *)
Lemma resolve_layer_trace_witness :
  let w := Example.initial
             (Example.replay "0_11_6" "spaces/16_OC_bees_to_honey" []) in
  let run := resolve_layer Example.site_versioned
               "renderer.versions.0_11_6" "LayerShip" w in
  snd run = Ok "LayerShip_0_11_6" /\
  exists l,
    log (fst run) = (log w ++ l)%list /\
    (existsb is_info l = true <->
     exists c, versioned_class Example.site_versioned "0_11_6" "LayerShip"
               = Ok c) /\
    (existsb is_default_import l = true <->
     exists e, versioned_class Example.site_versioned "0_11_6" "LayerShip"
               = Raise e /\
               missing_layer e = true).
Proof.
  intros w run. split; [vm_compute; reflexivity |].
  apply (resolve_layer_trace Example.site_versioned "0_11_6" "LayerShip"
           w (fst run) (snd run)).
  apply surjective_pairing.
Defined.

(** The layers package of version 0_11_8 has a syntax error: the registry
    raises it at the first role. *)
Lemma registry_fails_on_broken_import_witness :
  let w := Example.initial
             (Example.replay "0_11_8" "spaces/01_solomon_islands" []) in
  let X := Example.world (fun _ => false) in
  first_unresolved Scenario.site_broken "0_11_8" layers
    = Some (ExternalError "SyntaxError") /\
  snd (_check_versioned_layers X Scenario.site_broken w)
    = Raise (ExternalError "SyntaxError") /\
  match first_unresolved Scenario.site_broken "0_11_8" layers with
  | Some e =>
      snd (_check_versioned_layers X Scenario.site_broken w) = Raise e /\
      exists layer,
        In layer layers /\
        versioned_class Scenario.site_broken "0_11_8" layer = Raise e /\
        missing_layer e = false
  | None =>
      is_ok (snd (_check_versioned_layers X Scenario.site_broken w)) = true /\
      forall layer e,
        In layer layers ->
        versioned_class Scenario.site_broken "0_11_8" layer = Raise e ->
        missing_layer e = true
  end.
Proof.
  intros w X. split; [vm_compute; reflexivity |].
  split; [vm_compute; reflexivity |].
  apply (registry_fails_on_broken_import X Scenario.site_broken w).
  intros c s st. reflexivity.
Defined.

Lemma example_world_never_raises bad :
  (forall t, bad t = false) -> never_raises (Example.world bad).
Proof.
  intros Hbad. unfold never_raises. repeat split; intros;
    cbn [Example.world load_image img_copy img_resize img_paste draw_grid
         alpha_composite image_draw img_tobytes construct layer_draw
         write_frames gen_send gen_close Example.fresh snd is_ok];
    try rewrite Hbad; reflexivity.
Qed.

(** A replay of two events on a map of version 0_11_6, with collaborators
    that return: [start] completes. *)
Lemma start_completes_witness :
  let w := Example.initial
             (Example.replay "0_11_6" "spaces/16_OC_bees_to_honey" [3; 8]) in
  exists w',
    start (Example.world (fun _ => false)) Example.site_versioned w
      = (w', Ok tt).
Proof.
  intros w.
  apply (start_completes (Example.world (fun _ => false))
           Example.site_versioned w
           (JInt 760, JInt 720, JFloat Example.f0_2347)).
  - apply example_world_never_raises. reflexivity.
  - reflexivity.
  - vm_compute. reflexivity.
  - vm_compute. reflexivity.
  - vm_compute. reflexivity.
Defined.

(** The same run, seen from the video writer. *)
Lemma writer_protocol_witness :
  let w := Example.initial
             (Example.replay "0_11_6" "spaces/16_OC_bees_to_honey" [3; 8]) in
  let run := start (Example.world (fun _ => false)) Example.site_versioned w in
  snd run = Ok tt /\
  exists l video_writer sz frames,
    log (fst run) = (log w ++ l)%list /\
    List.length frames = List.length (events (replay_data (self w))) /\
    writer_events l =
      (CWriteFrames {| path := "minimap.mp4"; fps := 20; quality := 9;
                       pix_fmt_in := "rgba"; macro_block_size := 20;
                       size := sz |}, ReturnedObj video_writer)
      :: (CSend video_writer None, Returned)
      :: (map (fun b => (CSend video_writer (Some b), Returned)) frames
          ++ [(CClose video_writer, Returned)])%list.
Proof.
  intros w run.
  assert (Hok : snd run = Ok tt) by (vm_compute; reflexivity).
  split; [exact Hok |].
  apply (writer_protocol (Example.world (fun _ => false))
           Example.site_versioned w (fst run)).
  rewrite <- Hok. apply surjective_pairing.
Defined.

(** The same run, seen from the layers. *)
Lemma layers_built_once_drawn_every_frame_witness :
  let w := Example.initial
             (Example.replay "0_11_6" "spaces/16_OC_bees_to_honey" [3; 8]) in
  let run := start (Example.world (fun _ => false)) Example.site_versioned w in
  snd run = Ok tt /\
  List.length (drawn_at (log (fst run))) = 14%nat /\
  exists l ly,
    log (fst run) = (log w ++ l)%list /\
    map snd (constructed l)
    = [ layer_ship ly; layer_shot ly; layer_torpedo ly; layer_smoke ly;
        layer_plane ly; layer_ward ly; layer_capture ly ] /\
    drawn_at l
    = flat_map (fun t => map (fun o => (o, t)) (draw_order ly))
               (keys (events (replay_data (self w)))).
Proof.
  intros w run.
  assert (Hok : snd run = Ok tt) by (vm_compute; reflexivity).
  split; [exact Hok |]. split; [vm_compute; reflexivity |].
  apply (layers_built_once_drawn_every_frame (Example.world (fun _ => false))
           Example.site_versioned w (fst run)).
  rewrite <- Hok. apply surjective_pairing.
Defined.

(** A layer fails to draw at the second of three events: one frame has
    reached the writer, that of the first event. *)
Lemma sent_frames_are_a_prefix_witness :
  let w := Example.initial
             (Example.replay "0_11_6" "spaces/16_OC_bees_to_honey"
                [3; 8; 9]) in
  let run := start (Example.world (fun t => t =? 8)) Example.site_versioned
               w in
  snd run = Raise (ExternalError "draw") /\
  List.length (sent_frames (log (fst run))) = 1%nat /\
  exists pre ly video_writer fg bg k fs tail,
    log (fst run) =
      (log w ++ pre
       ++ frames_events ly video_writer fg bg
            (firstn k (keys (events (replay_data (self w))))) fs
       ++ tail)%list /\
    List.length fs = k /\
    (k <= List.length (events (replay_data (self w))))%nat /\
    sent_frames pre = [] /\ sent_frames tail = [] /\
    sent_frames
      (pre
       ++ frames_events ly video_writer fg bg
            (firstn k (keys (events (replay_data (self w))))) fs
       ++ tail)%list = map pixels fs /\
    (is_ok (snd run) = true ->
     k = List.length (events (replay_data (self w)))).
Proof.
  intros w run. split; [vm_compute; reflexivity |].
  split; [vm_compute; reflexivity |].
  apply (sent_frames_are_a_prefix (Example.world (fun t => t =? 8))
           Example.site_versioned w (fst run) (snd run)).
  apply surjective_pairing.
Defined.

(** The package of version 0_11_6 has no manifest file: the default
    manifest is consulted. *)
Lemma fallback_exactly_on_missing_witness :
  let w := Example.initial
             (Example.replay "0_11_6" "spaces/01_solomon_islands" []) in
  let run := _load_map_manifest Example.site_infinite w in
  read_entry Example.site_infinite (versioned_spaces "0_11_6")
             "spaces/01_solomon_islands" = Raise FileNotFoundError /\
  exists l,
    log (fst run) = (log w ++ l)%list /\
    (In (default_spaces, "manifest.json") (opened l) <->
     read_entry Example.site_infinite
                (versioned_spaces (game_version (replay_data (self w))))
                (game_map (replay_data (self w))) = Raise FileNotFoundError \/
     read_entry Example.site_infinite
                (versioned_spaces (game_version (replay_data (self w))))
                (game_map (replay_data (self w))) = Raise KeyError).
Proof.
  intros w run. split; [vm_compute; reflexivity |].
  apply (fallback_exactly_on_missing Example.site_infinite w (fst run)
           (snd run)).
  - reflexivity.
  - apply surjective_pairing.
Defined.
